(** * IBBS backend: seat leases, booking confirmation and payment webhooks

    A shallow embedding of
      app/services/seat_lock.py
      app/services/payment_gateway.py
      app/modules/bookings/router.py
      app/modules/payments/router.py
      app/models/models.py (tables trips, bookings, payments)
    together with the properties of the reservation core.

    Every request handler is a short sequence of round trips to the two
    stores (Redis and the relational ledger).  A round trip is one atomic
    step on the shared [World]; a handler is a [proc], a tree of such
    steps, so that handlers can be run one after the other ([exec]) or
    interleaved by a scheduler ([run]). *)

From stdpp Require Import base gmap strings list fin_maps pretty.
From Stdlib Require Import ZArith Lia.
From Stdlib Require QArith Qabs.

Open Scope Z_scope.

(** ** Python values and exceptions *)

(** Exceptions other than [HTTPException] that the modelled code meets. *)
Inductive error :=
  | IntegrityError      (* sqlalchemy.exc.IntegrityError *)
  | ProgrammingError    (* sqlalchemy.exc.ProgrammingError *)
  | DBAPIError          (* any other sqlalchemy.exc.DBAPIError: a DataError *)
  | OperationalError    (* the ledger cannot be reached *)
  | ConnectionError     (* Redis cannot be reached *)
  | ResponseError       (* Redis refuses the command *)
  | TypeError
  | AttributeError
  | OverflowError
  | NameError
  | PaymentError.

(** [detail=] of an HTTPException is a literal or [str(exc)]. *)
Inductive exn :=
  | Err (e : error)
  | HTTPException (status_code : Z) (d : detail)
with detail :=
  | Text (s : string)
  | StrOf (e : exn).

Inductive result (A : Type) :=
  | Ok (a : A)
  | Raise (e : exn).
Arguments Ok {A} a.
Arguments Raise {A} e.

Definition HTTP_400_BAD_REQUEST : Z := 400.
Definition HTTP_409_CONFLICT : Z := 409.

(** A member of a JSON object as the webhook handler reads it: a string,
    an integer, or any other value (true, false, a number with a fraction,
    an array, an object), which the handler only tests for truth and
    prints.  A member that is null reads as an absent one: [dict.get]
    returns [None] for both. *)
Inductive jval :=
  | JStr (s : string)
  | JNum (z : Z)
  | JOther (truth : bool) (text : string).

(** Python truthiness of [x] where [x] came from [dict.get]. *)
Definition truthy (v : option jval) : bool :=
  match v with
  | None => false
  | Some (JStr s) => negb (String.eqb s "")
  | Some (JNum z) => negb (z =? 0)
  | Some (JOther t _) => t
  end.

(** [a or b] *)
Definition py_or (a b : option jval) : option jval :=
  if truthy a then a else b.

(** [str(v)] *)
Definition py_str (v : jval) : string :=
  match v with
  | JStr s => s
  | JNum z => pretty z
  | JOther _ text => text
  end.

(** A Python float: a finite one, given by the decimal the driver sends
    for it, an infinite one, or not a number. *)
Inductive pyfloat :=
  | Finite (q : QArith_base.Q)
  | Infinite
  | NaN.

(** [str(x)] inside a format string, where [x] is an int or [None]. *)
Definition format_int (x : option Z) : string :=
  match x with
  | Some z => pretty z
  | None => "None"
  end.

Definition lower_ascii (c : Ascii.ascii) : Ascii.ascii :=
  let n := Ascii.N_of_ascii c in
  if ((65 <=? n) && (n <=? 90))%N then Ascii.ascii_of_N (n + 32) else c.

(** [s.lower()] on the ASCII range; none of the strings it is compared
    with below can be produced from a character outside that range. *)
Fixpoint lower (s : string) : string :=
  match s with
  | EmptyString => EmptyString
  | String c s' => String (lower_ascii c) (lower s')
  end.

(** Every character of a string passes a test. *)
Fixpoint all_chars (P : Ascii.ascii → bool) (s : string) : bool :=
  match s with
  | EmptyString => true
  | String c s' => P c && all_chars P s'
  end.

(** A str that [hmac.compare_digest] accepts: ASCII only. *)
Definition is_ascii (s : string) : bool :=
  all_chars (λ c, (Ascii.N_of_ascii c <? 128)%N) s.

Definition is_space (c : Ascii.ascii) : bool := (Ascii.N_of_ascii c =? 32)%N.
Definition not_nul (c : Ascii.ascii) : bool := negb (Ascii.N_of_ascii c =? 0)%N.

(** What a VARCHAR(n) column stores for a text: the text when it fits;
    when it is longer, its first [n] characters if the rest are all
    spaces, and nothing, the statement failing, otherwise.  No text with
    a NUL character is stored. *)
Definition varchar (n : nat) (s : string) : option string :=
  if negb (all_chars not_nul s) then None
  else if (String.length s <=? n)%nat then Some s
  else if all_chars is_space (String.substring n (String.length s - n) s)
       then Some (String.substring 0 n s)
       else None.

(** ** The two stores *)

(** *** Redis *)

Record entry := Entry {
  value : string;
  expires_at : option Z;        (* absolute time, [None]: no expiry *)
}.

(** *** Ledger tables (app/models/models.py)

    Only the columns the handlers read or constrain are kept; amounts,
    currencies and timestamps are written by the handlers and never read
    back by them. *)

Record Trip := mkTrip {
  seats_available : Z;
}.

Record Booking := mkBooking {
  user_id : option Z;           (* FK users.id, nullable *)
  trip_id : Z;                  (* FK trips.id, NOT NULL *)
  seat_id : option Z;           (* FK seats.id, nullable *)
  status : string;
}.

Record Payment := mkPayment {
  booking_id : Z;               (* FK bookings.id, NOT NULL *)
  provider : option string;
  provider_ref : option string; (* unique *)
  pay_status : string;
}.

(** Tables are keyed by their integer primary key. *)
Record DB := mkDB {
  users : gset Z;
  seats : gset Z;
  trips : gmap Z Trip;
  bookings : gmap Z Booking;
  payments : gmap Z Payment;
}.

(** The sequences of the two serial keys stand beside the ledger: a
    value drawn from a sequence is not given back by a rollback. *)
Record World := mkWorld {
  redis : gmap string entry;
  redis_up : bool;
  ledger : DB;
  ledger_up : bool;
  now : Z;                      (* seconds since the epoch, UTC *)
  bookings_id_seq : Z;          (* the last value drawn for bookings.id *)
  payments_id_seq : Z;          (* the last value drawn for payments.id *)
}.

Definition set_redis (r : gmap string entry) (w : World) : World :=
  mkWorld r (redis_up w) (ledger w) (ledger_up w) (now w)
    (bookings_id_seq w) (payments_id_seq w).
Definition set_ledger (d : DB) (w : World) : World :=
  mkWorld (redis w) (redis_up w) d (ledger_up w) (now w)
    (bookings_id_seq w) (payments_id_seq w).
Definition set_redis_up (b : bool) (w : World) : World :=
  mkWorld (redis w) b (ledger w) (ledger_up w) (now w)
    (bookings_id_seq w) (payments_id_seq w).
Definition set_ledger_up (b : bool) (w : World) : World :=
  mkWorld (redis w) (redis_up w) (ledger w) b (now w)
    (bookings_id_seq w) (payments_id_seq w).
Definition set_now (t : Z) (w : World) : World :=
  mkWorld (redis w) (redis_up w) (ledger w) (ledger_up w) t
    (bookings_id_seq w) (payments_id_seq w).
Definition set_bookings_id_seq (i : Z) (w : World) : World :=
  mkWorld (redis w) (redis_up w) (ledger w) (ledger_up w) (now w)
    i (payments_id_seq w).
Definition set_payments_id_seq (i : Z) (w : World) : World :=
  mkWorld (redis w) (redis_up w) (ledger w) (ledger_up w) (now w)
    (bookings_id_seq w) i.

(** ** Effects: one atomic step on the world, returning or raising *)

Definition M (A : Type) : Type := World → World * result A.

Definition ret {A} (a : A) : M A := λ w, (w, Ok a).
Definition raise {A} (e : exn) : M A := λ w, (w, Raise e).
Definition bind {A B} (m : M A) (k : A → M B) : M B :=
  λ w, match m w with
       | (w', Ok a) => k a w'
       | (w', Raise e) => (w', Raise e)
       end.
(** [try: m except Exception: h] *)
Definition try_except {A} (m : M A) (h : exn → M A) : M A :=
  λ w, match m w with
       | (w', Ok a) => (w', Ok a)
       | (w', Raise e) => h e w'
       end.

Notation "'let*' x ':=' m 'in' k" := (bind m (λ x, k))
  (at level 10, x name, m at level 100, k at level 200).

(** ** Redis commands

    Modelled from the spec: app/redis_client.py (the shared client) is not
    among the sources.  The Lease Store of the spec is a key-value store
    with an atomic set-if-absent with expiry and a compare-and-delete run
    as one uninterruptible step; the commands below are the ones the
    services call on it.  A key whose expiry has passed is absent for
    every command. *)

Definition live (t : Z) (e : entry) : bool :=
  match expires_at e with
  | None => true
  | Some x => bool_decide (t < x)
  end.

Definition redis_lookup (w : World) (key : string) : option string :=
  match redis w !! key with
  | Some e => if live (now w) e then Some (value e) else None
  | None => None
  end.

Definition connected {A} (m : M A) : M A :=
  λ w, if redis_up w then m w else (w, Raise (Err ConnectionError)).

(** [SET key val EX ex NX]: [True] when set, [None] (falsy) otherwise. *)
Definition redis_set_nx (key val : string) (ex : option Z) : M bool :=
  connected (λ w,
    match ex with
    | Some t =>
        if t <=? 0 then (w, Raise (Err ResponseError))
        else match redis_lookup w key with
             | Some _ => (w, Ok false)
             | None => (set_redis (<[key := Entry val (Some (now w + t))]> (redis w)) w, Ok true)
             end
    | None =>
        match redis_lookup w key with
        | Some _ => (w, Ok false)
        | None => (set_redis (<[key := Entry val None]> (redis w)) w, Ok true)
        end
    end).

(** [DEL key]: number of keys removed. *)
Definition redis_delete (key : string) : M Z :=
  connected (λ w,
    match redis_lookup w key with
    | Some _ => (set_redis (delete key (redis w)) w, Ok 1)
    | None => (set_redis (delete key (redis w)) w, Ok 0)
    end).

(** [EXISTS key] *)
Definition redis_exists (key : string) : M Z :=
  connected (λ w,
    match redis_lookup w key with
    | Some _ => (w, Ok 1)
    | None => (w, Ok 0)
    end).

(** [EVAL _CAS_DEL_SCRIPT 1 key token]:
      if redis.call('get', KEYS[1]) == ARGV[1] then
        return redis.call('del', KEYS[1])
      else return 0 end *)
Definition redis_eval_cas_del (key token : string) : M Z :=
  connected (λ w,
    match redis_lookup w key with
    | Some v =>
        if String.eqb v token
        then (set_redis (delete key (redis w)) w, Ok 1)
        else (w, Ok 0)
    | None => (w, Ok 0)
    end).

(** ** app/services/seat_lock.py *)

Definition LOCK_KEY_TPL (trip_id : Z) (seat_id : option Z) : string :=
  "seat_lock:" +:+ pretty trip_id +:+ ":" +:+ format_int seat_id.

Record Lease := mkLease {
  token : string;
  lease_expires_at : Z;
}.

(** [datetime.max], the last second of the year 9999, in seconds since
    the epoch: [datetime.utcnow() + timedelta(seconds=ttl)] raises
    OverflowError past it. *)
Definition DATETIME_MAX : Z := 253402300799.

(** [uuid] is the value [str(uuid4())] takes in this call. *)
Definition lock_seat (uuid : string) (trip_id seat_id : Z) (ttl : option Z)
  : M (option Lease) :=
  let key := LOCK_KEY_TPL trip_id (Some seat_id) in
  let* ok := redis_set_nx key uuid ttl in
  if negb ok then ret None
  else
    (* expires_at = datetime.utcnow() + timedelta(seconds=ttl); the key
       is already set when this raises: TypeError for ttl=None (the key
       then has no expiry), OverflowError for a date past datetime.max *)
    match ttl with
    | None => raise (Err TypeError)
    | Some t =>
        λ w, if now w + t <=? DATETIME_MAX
             then (w, Ok (Some (mkLease uuid (now w + t))))
             else (w, Raise (Err OverflowError))
    end.

Definition validate_and_consume_lock (trip_id seat_id : Z) (token : string)
  : M bool :=
  let key := LOCK_KEY_TPL trip_id (Some seat_id) in
  try_except
    (let* res := redis_eval_cas_del key token in ret (negb (res =? 0)))
    (λ _, ret false).

Definition release_lock (trip_id : Z) (seat_id : option Z) (token : option string)
  : M bool :=
  let key := LOCK_KEY_TPL trip_id seat_id in
  match token with
  | None => let* _ := redis_delete key in ret true
  | Some tok =>
      try_except
        (let* res := redis_eval_cas_del key tok in ret (negb (res =? 0)))
        (λ _, ret false)
  end.

(** ** Ledger statements

    What SQLAlchemy sends for the statements of the two routers, against
    the constraints that app/models/models.py declares. *)

Definition with_trips (t : gmap Z Trip) (d : DB) : DB :=
  mkDB (users d) (seats d) t (bookings d) (payments d).
Definition with_bookings (b : gmap Z Booking) (d : DB) : DB :=
  mkDB (users d) (seats d) (trips d) b (payments d).
Definition with_payments (p : gmap Z Payment) (d : DB) : DB :=
  mkDB (users d) (seats d) (trips d) (bookings d) p.

(** [async with db.begin(): body]: commit when the body returns, roll the
    ledger back when it raises.  What the body did to Redis stays. *)
Definition db_begin {A} (body : M A) : M A :=
  λ w, if ledger_up w then
         match body w with
         | (w', Ok a) => (w', Ok a)
         | (w', Raise e) => (set_ledger (ledger w) w', Raise e)
         end
       else (w, Raise (Err OperationalError)).

(** An integer that fits an INTEGER column.  The driver refuses any other
    integer before the statement is sent (a DataError, which reaches the
    handler as DBAPIError).  The ids a table holds are int4 by the type
    of its column, so a parameter that names a row of the table is always
    sent. *)
Definition int4 (z : Z) : bool := (-2147483648 <=? z) && (z <=? 2147483647).

(** The largest key of a table. *)
Definition max_id {A} (m : gmap Z A) : Z :=
  foldr Z.max 0 ((map_to_list m).*1).

(** [nextval] of the sequence of a serial key whose last value was
    [seq].  Ids are only ever drawn from the sequence, which is therefore
    never behind the table. *)
Definition nextval {A} (seq : Z) (m : gmap Z A) : Z :=
  1 + Z.max seq (max_id m).

(** UPDATE trips SET seats_available = seats_available - 1
    WHERE id = :trip_id AND seats_available > 0; returns the rowcount. *)
Definition update_trip_decrement (tid : Z) : M Z :=
  λ w, let d := ledger w in
       match trips d !! tid with
       | Some t =>
           if 0 <? seats_available t
           then (set_ledger (with_trips (<[tid := mkTrip (seats_available t - 1)]> (trips d)) d) w, Ok 1)
           else (w, Ok 0)
       | None => if int4 tid then (w, Ok 0) else (w, Raise (Err DBAPIError))
       end.

(** Two rows clash on [uq_trip_seat]; a NULL seat never clashes. *)
Definition clashes (b b' : Booking) : Prop :=
  trip_id b' = trip_id b ∧ seat_id b' = seat_id b ∧ is_Some (seat_id b).

Global Instance clashes_dec b b' : Decision (clashes b b').
Proof. unfold clashes. apply _. Defined.

Definition uq_trip_seat_ok (b : Booking) (bs : gmap Z Booking) : bool :=
  bool_decide (map_Forall (λ _ b', ¬ clashes b b') bs).

Definition fk_nullable (x : option Z) (ids : gset Z) : bool :=
  match x with
  | None => true
  | Some i => bool_decide (i ∈ ids)
  end.

Definition booking_fks_ok (b : Booking) (d : DB) : bool :=
  fk_nullable (user_id b) (users d)
  && bool_decide (is_Some (trips d !! trip_id b))
  && fk_nullable (seat_id b) (seats d).

(** A nullable integer parameter the driver sends. *)
Definition sent_nullable (x : option Z) (ids : gset Z) : bool :=
  match x with
  | None => true
  | Some i => bool_decide (i ∈ ids) || int4 i
  end.

Definition booking_sent (b : Booking) (d : DB) : bool :=
  sent_nullable (user_id b) (users d)
  && (bool_decide (is_Some (trips d !! trip_id b)) || int4 (trip_id b))
  && sent_nullable (seat_id b) (seats d).

(** INSERT INTO bookings ..., the flush of [db.add(booking)].  Once the
    statement is sent the id is drawn from the sequence, whether the row
    is then accepted or refused. *)
Definition insert_booking (b : Booking) : M Z :=
  λ w, let d := ledger w in
       if negb (booking_sent b d) then (w, Raise (Err DBAPIError))
       else
         let i := nextval (bookings_id_seq w) (bookings d) in
         let w1 := set_bookings_id_seq i w in
         if booking_fks_ok b d && uq_trip_seat_ok b (bookings d)
         then (set_ledger (with_bookings (<[i := b]> (bookings d)) d) w1, Ok i)
         else (w1, Raise (Err IntegrityError)).

Definition provider_ref_free (r : option string) (ps : gmap Z Payment) : bool :=
  match r with
  | None => true
  | Some _ => bool_decide (map_Forall (λ _ p, provider_ref p ≠ r) ps)
  end.

(** The amount fits NUMERIC(10, 2): rounded to two places it is below
    10^8 in absolute value.  The column holds NaN and no infinity. *)
Definition numeric_10_2 (x : pyfloat) : bool :=
  match x with
  | Finite q =>
      negb (QArith_base.Qle_bool (QArith_base.Qmake 99999999995 1000) (Qabs.Qabs q))
  | Infinite => false
  | NaN => true
  end.

(** The texts of a payment as the columns provider VARCHAR(128),
    provider_ref VARCHAR(255) and status VARCHAR(50) store them. *)
Definition payment_row (bid : Z) (prov ref st : string) : option Payment :=
  match varchar 128 prov, varchar 255 ref, varchar 50 st with
  | Some prov', Some ref', Some st' => Some (mkPayment bid (Some prov') (Some ref') st')
  | _, _, _ => None
  end.

(** INSERT INTO payments ..., the flush of [db.add(payment)] in
    [initiate_payment].  A currency of [None] takes the column default
    "UGX".  The amount (NUMERIC(10, 2)) and the currency (VARCHAR(8)) are
    checked with the row; no handler of the two routers reads them back.
    Once the statement is sent the id is drawn from the sequence, whether
    the row is then accepted or refused. *)
Definition insert_payment (bid : Z) (amount : pyfloat) (currency : option string)
    (prov ref st : string) : M Z :=
  λ w, let d := ledger w in
       if negb (bool_decide (is_Some (bookings d !! bid)) || int4 bid)
       then (w, Raise (Err DBAPIError))
       else
         let i := nextval (payments_id_seq w) (payments d) in
         let w1 := set_payments_id_seq i w in
         match (if numeric_10_2 amount
                   && bool_decide (is_Some (varchar 8 (default "UGX" currency)))
                then payment_row bid prov ref st else None) with
         | None => (w1, Raise (Err DBAPIError))
         | Some row =>
             if bool_decide (is_Some (bookings d !! bid))
                && provider_ref_free (provider_ref row) (payments d)
             then (set_ledger (with_payments (<[i := row]> (payments d)) d) w1, Ok i)
             else (w1, Raise (Err IntegrityError))
         end.

(** The first row of [payments] whose [provider_ref] is [ref]; a [None]
    reference is compared with IS NULL. *)
Definition payment_by_ref (ref : option string) (d : DB) : option (Z * Payment) :=
  head (filter (λ ip, provider_ref ip.2 = ref) (map_to_list (payments d))).

(** select(Payment).where(Payment.provider_ref == ref) ... .first() *)
Definition select_payment_by_ref (ref : option string) : M (option (Z * Payment)) :=
  λ w, (w, Ok (payment_by_ref ref (ledger w))).

(** select(Booking).where(Booking.id == bid) ... .first() *)
Definition select_booking (bid : Z) : M (option Booking) :=
  λ w, (w, Ok (bookings (ledger w) !! bid)).

(** The UPDATE that flushes [booking.status = st]. *)
Definition set_booking_status (bid : Z) (st : string) : M unit :=
  λ w, let d := ledger w in
       (set_ledger (with_bookings
          (alter (λ b, mkBooking (user_id b) (trip_id b) (seat_id b) st) bid (bookings d)) d) w,
        Ok tt).

(** The UPDATE that flushes [pay.status = st]; the column is
    VARCHAR(50). *)
Definition set_payment_status (pid : Z) (st : string) : M unit :=
  λ w, let d := ledger w in
       match varchar 50 st with
       | Some st' =>
           (set_ledger (with_payments
              (alter (λ p, mkPayment (booking_id p) (provider p) (provider_ref p) st')
                 pid (payments d)) d) w,
            Ok tt)
       | None => (w, Raise (Err DBAPIError))
       end.

(** ** Request handlers as processes *)

Inductive response :=
  | LockSeatResponse (token : string) (expires_at : Z)
  | BookingResponse (booking_id trip_id : Z) (seat_id : option Z) (status : string)
  | Released
  | PaymentInitiateResponse (provider provider_ref : string)
  | WebhookAck (received : bool).

(** A handler between two round trips: finished, or about to perform one
    atomic step and continue with its outcome. *)
Inductive proc : Type :=
  | Done (r : result response)
  | Await {X : Type} (op : M X) (k : result X → proc).

(** [await]: an exception of the step ends the handler. *)
Notation "'await' x ':=' op 'in' k" :=
  (Await op (λ r, match r with Ok x => k | Raise e => Done (Raise e) end))
  (at level 10, x name, op at level 100, k at level 200).

(** The handler run alone, to its end. *)
Fixpoint exec (p : proc) (w : World) : World * result response :=
  match p with
  | Done r => (w, r)
  | Await op k => let (w', x) := op w in exec (k x) w'
  end.

(** ** app/modules/bookings/router.py *)

Record LockSeatRequest := mkLockReq {
  lk_trip_id : Z;
  lk_seat_id : Z;
  lk_ttl : option Z;
}.

Record ConfirmBookingRequest := mkConfirmReq {
  cf_trip_id : Z;
  cf_seat_id : Z;
  cf_token : string;
  cf_user_id : option Z;
}.

Record ReleaseLockRequest := mkReleaseReq {
  rl_trip_id : Z;
  rl_seat_id : Z;
  rl_token : option string;
}.

Definition create_lock (uuid : string) (req : LockSeatRequest) : proc :=
  await res := lock_seat uuid (lk_trip_id req) (lk_seat_id req) (lk_ttl req) in
  match res with
  | None => Done (Raise (HTTPException HTTP_409_CONFLICT (Text "Seat already locked")))
  | Some l => Done (Ok (LockSeatResponse (token l) (lease_expires_at l)))
  end.

(** The body of [async with db.begin()] in [confirm_booking], with the
    flush of the added booking that the commit performs. *)
Definition confirm_transaction (req : ConfirmBookingRequest) : M Z :=
  db_begin (
    let* rowcount := update_trip_decrement (cf_trip_id req) in
    if rowcount =? 0
    then raise (HTTPException HTTP_409_CONFLICT (Text "No seats available"))
    else insert_booking (mkBooking (cf_user_id req) (cf_trip_id req) (Some (cf_seat_id req)) "confirmed")).

(** [await db.refresh(booking)] *)
Definition refresh_booking (bid : Z) : M Booking :=
  λ w, if ledger_up w then
         match bookings (ledger w) !! bid with
         | Some b => (w, Ok b)
         | None => (w, Raise (Err OperationalError))
         end
       else (w, Raise (Err OperationalError)).

Definition confirm_respond (bid : Z) : proc :=
  await b := refresh_booking bid in
  Done (Ok (BookingResponse bid (trip_id b) (seat_id b) (status b))).

Definition confirm_commit (req : ConfirmBookingRequest) : proc :=
  Await (confirm_transaction req) (λ r,
    match r with
    | Ok bid => confirm_respond bid
    | Raise (Err IntegrityError) =>
        Done (Raise (HTTPException HTTP_409_CONFLICT (Text "Seat already booked")))
    | Raise e => Done (Raise e)
    end).

Definition confirm_booking (req : ConfirmBookingRequest) : proc :=
  await ok := validate_and_consume_lock (cf_trip_id req) (cf_seat_id req) (cf_token req) in
  if negb ok
  then Done (Raise (HTTPException HTTP_409_CONFLICT (Text "Invalid or expired lock token")))
  else confirm_commit req.

Definition release_lock_endpoint (req : ReleaseLockRequest) : proc :=
  await ok := release_lock (rl_trip_id req) (Some (rl_seat_id req)) (rl_token req) in
  if negb ok
  then Done (Raise (HTTPException HTTP_409_CONFLICT (Text "Token mismatch or lock not owned")))
  else Done (Ok Released).

(** ** app/services/payment_gateway.py and app/modules/payments/router.py *)

(** What a JSON object holds under ["data"]: an object, or any other
    value (null, a string, a number, an array), of which the handler only
    meets the truth value before it fails on [.get]. *)
Inductive jdata :=
  | DataObject (m : gmap string jval)
  | DataOther (truth : bool).

(** A JSON object as the webhook handler reads it: its members other than
    ["data"], and what it holds under ["data"], if anything. *)
Record Payload := mkPayload {
  members : gmap string jval;
  data : option jdata;
}.

(** The parsed body of a delivery: an object, or any other JSON value. *)
Inductive Body :=
  | JsonObject (p : Payload)
  | JsonOther.

Record Request := mkRequest {
  headers : list (string * string);
  body : string;
}.

Record PaymentInitiateRequest := mkInitiateReq {
  pi_booking_id : Z;
  pi_amount : pyfloat;
  pi_currency : option string;
  pi_provider : string;
}.

(** The amount of the request fits NUMERIC(10, 2) and its currency
    VARCHAR(8). *)
Definition payment_fits (req : PaymentInitiateRequest) : bool :=
  numeric_10_2 (pi_amount req)
  && bool_decide (is_Some (varchar 8 (default "UGX" (pi_currency req)))).

Inductive adapter := FlutterwaveAdapter | MTNAdapter | AirtelAdapter.

Definition provider_name (ad : adapter) : string :=
  match ad with
  | FlutterwaveAdapter => "flutterwave"
  | MTNAdapter => "mtn"
  | AirtelAdapter => "airtel"
  end.

(** ADAPTERS.get(name.lower()) *)
Definition get_adapter (name : string) : result adapter :=
  let n := lower name in
  if String.eqb n "flutterwave" then Ok FlutterwaveAdapter
  else if String.eqb n "mtn" then Ok MTNAdapter
  else if String.eqb n "airtel" then Ok AirtelAdapter
  else Raise (Err PaymentError).

(** The reference each adapter's [initiate] makes up from [uuid4().hex]. *)
Definition adapter_initiate (ad : adapter) (hex : string) : string :=
  match ad with
  | FlutterwaveAdapter => "flw_" +:+ hex
  | MTNAdapter => "mtn_" +:+ hex
  | AirtelAdapter => "airtel_" +:+ hex
  end.

Definition IDEMPOTENCY_KEY_TPL (provider event_id : string) : string :=
  "payment_webhook:" +:+ provider +:+ ":" +:+ event_id.

Definition mark_event_processed (provider event_id : string) : M bool :=
  redis_set_nx (IDEMPOTENCY_KEY_TPL provider event_id) "1" (Some (60 * 60 * 24)).

Definition is_event_processed (provider event_id : string) : M Z :=
  redis_exists (IDEMPOTENCY_KEY_TPL provider event_id).

(** [a or d] on header values *)
Definition or_str (a : option string) (d : string) : string :=
  match a with
  | Some s => if String.eqb s "" then d else s
  | None => d
  end.

(** The signature header [verify_signature] reads. *)
Definition sig_header (hs : gmap string string) : string :=
  or_str (hs !! "x-signature") (or_str (hs !! "x-flutterwave-signature") "").

(** [hmac.compare_digest(a, b)] on two str: both must be ASCII. *)
Definition compare_digest (a b : string) : result bool :=
  if is_ascii a && is_ascii b then Ok (String.eqb a b) else Raise (Err TypeError).

Definition dict_get (k : string) (d : gmap string jval) : option jval := d !! k.

(** [payload.get("data", {})], as the object [.get] is then called on. *)
Definition data_or_empty (p : Payload) : result (gmap string jval) :=
  match data p with
  | None => Ok ∅
  | Some (DataObject d) => Ok d
  | Some (DataOther _) => Raise (Err AttributeError)
  end.

(** [payload.get("data") or payload], as the object [.get] is then
    called on. *)
Definition data_or_payload (p : Payload) : result (gmap string jval) :=
  match data p with
  | None => Ok (members p)
  | Some (DataObject d) => Ok (if bool_decide (d = ∅) then members p else d)
  | Some (DataOther t) => if t then Raise (Err AttributeError) else Ok (members p)
  end.

(** Lines 63 to 66 of the handler. *)
Definition extract_event_id (b : Body) : result (option jval) :=
  match b with
  | JsonOther => Raise (Err AttributeError)
  | JsonObject p =>
      let event_id :=
        py_or (dict_get "id" (members p))
          (py_or (dict_get "event_id" (members p))
             (py_or (dict_get "tx_id" (members p)) (dict_get "transaction_id" (members p)))) in
      if negb (truthy event_id)
      then match data_or_empty p with
           | Ok d => Ok (py_or (dict_get "id" d) (dict_get "tx_ref" d))
           | Raise e => Raise e
           end
      else Ok event_id
  end.

(** The normalised event: [status_str] and [provider_ref]. *)
Definition normalize (provider : string) (b : Body)
  : result (option jval * option jval) :=
  match b with
  | JsonOther => Raise (Err AttributeError)
  | JsonObject p =>
      if String.eqb (lower provider) "flutterwave" then
        match data_or_empty p with
        | Ok d => Ok (dict_get "status" d, py_or (dict_get "tx_ref" d) (dict_get "flw_ref" d))
        | Raise e => Raise e
        end
      else
        match data_or_payload p with
        | Ok d =>
            Ok (py_or (dict_get "status" d) (dict_get "transaction_status" d),
                py_or (dict_get "transaction_id" d) (dict_get "tx_ref" d))
        | Raise e => Raise e
        end
  end.

(** [(status_str or '').lower()] *)
Definition lcstatus_of (status_str : option jval) : M string :=
  match py_or status_str (Some (JStr "")) with
  | Some (JStr s) => ret (lower s)
  | _ => raise (Err AttributeError)
  end.

(** [status_str or default], as the text that reaches the column. *)
Definition status_or (status_str : option jval) (default : string) : string :=
  match py_or status_str (Some (JStr default)) with
  | Some v => py_str v
  | None => default
  end.

Definition success_statuses : list string :=
  ["successful"; "success"; "paid"; "completed"].
Definition failed_statuses : list string :=
  ["failed"; "failed_attempt"; "error"; "declined"; "cancelled"].

(** The booking the handler reaches from [pay.booking_id]. *)
Definition locate_booking (bid : Z) : M (option Booking) :=
  if bid =? 0 then ret None else select_booking bid.

(** The UPDATE of [pay.status = status_str or pay.status], which the unit
    of work sends when the payment has changed. *)
Definition flush_payment_status (pid : Z) (status_str : option jval) : M unit :=
  if truthy status_str
  then set_payment_status pid (status_or status_str "")
  else ret tt.

(** The body of [async with db.begin()] in [payment_webhook], with the
    commit.  What the body assigns to [pay] and [booking] stays in the
    session until the unit of work flushes: before the next SELECT and at
    the commit.  So the new status of the payment reaches the ledger
    after [lcstatus] is computed, and before the booking is looked up.

    No payment found: the INSERT of the new payment is flushed at the
    commit, and its [currency] is the column attribute itself
    ([getattr(Payment, 'currency', 'UGX')]), an expression on the table
    that the ledger refuses when it parses the statement.

    A failed payment whose booking has a trip: the name [sa_update] on
    line 147 is not bound (line 9 imports [select as sa_select] only),
    so the body raises NameError once the booking is found. *)
Definition webhook_body (provider : string)
    (status_str provider_ref : option jval) : M unit :=
  let* pay := select_payment_by_ref (py_str <$> provider_ref) in
  match pay with
  | None =>
      (* pay = Payment(booking_id=None, ...); db.add(pay) *)
      let* lcstatus := lcstatus_of status_str in
      raise (Err ProgrammingError)
  | Some (pid, pay) =>
      let* lcstatus := lcstatus_of status_str in
      if bool_decide (lcstatus ∈ success_statuses) then
        let* _ := flush_payment_status pid status_str in
        let* booking := locate_booking (booking_id pay) in
        match booking with
        | Some _ => set_booking_status (booking_id pay) "paid"
        | None => ret tt
        end
      else if bool_decide (lcstatus ∈ failed_statuses) then
        let* _ := flush_payment_status pid status_str in
        let* booking := locate_booking (booking_id pay) in
        match booking with
        | Some b =>
            (* booking.status = "cancelled" *)
            if trip_id b =? 0 then
              let* _ := try_except
                          (let* _ := release_lock (trip_id b) (seat_id b) None in ret tt)
                          (λ _, ret tt) in
              set_booking_status (booking_id pay) "cancelled"
            else raise (Err NameError)
        | None => ret tt
        end
      else flush_payment_status pid status_str
  end.

Definition webhook_transaction (provider : string)
    (status_str provider_ref : option jval) : M unit :=
  db_begin (webhook_body provider status_str provider_ref).

Section Gateway.

(** [hmac.new(secret.encode(), body, hashlib.sha256).hexdigest()] *)
Variable hmac_sha256_hexdigest : string → string → string.
(** [await request.json()], [None] when it raises *)
Variable json_loads : string → option Body.
(** app/config.py, [settings] *)
Variables FLUTTERWAVE_SECRET MTN_SECRET AIRTEL_SECRET : string.

Definition get_secret (ad : adapter) : string :=
  match ad with
  | FlutterwaveAdapter => FLUTTERWAVE_SECRET
  | MTNAdapter => MTN_SECRET
  | AirtelAdapter => AIRTEL_SECRET
  end.

(** [{k.lower(): v for k, v in request.headers.items()}] *)
Definition lower_headers (hs : list (string * string)) : gmap string string :=
  foldl (λ m kv, <[lower kv.1 := kv.2]> m) ∅ hs.

Definition verify_signature (ad : adapter) (hs : gmap string string) (body : string)
  : result bool :=
  let secret := get_secret ad in
  if String.eqb secret "" then Ok false
  else compare_digest (hmac_sha256_hexdigest secret body) (sig_header hs).

Definition initiate_payment (hex : string) (req : PaymentInitiateRequest) : proc :=
  match get_adapter (pi_provider req) with
  | Raise e => Done (Raise e)
  | Ok ad =>
      let provider_ref := adapter_initiate ad hex in
      Await (db_begin (insert_payment (pi_booking_id req) (pi_amount req) (pi_currency req)
                         (pi_provider req) provider_ref "initiated"))
        (λ r, match r with
              | Ok _ => Done (Ok (PaymentInitiateResponse (pi_provider req) provider_ref))
              | Raise (Err IntegrityError) =>
                  Done (Raise (HTTPException 500 (Text "Unable to create payment record")))
              | Raise e => Done (Raise e)
              end)
  end.

(** [payment_webhook] from the transaction on. *)
Definition webhook_apply (provider : string) (status_str provider_ref : option jval) : proc :=
  Await (webhook_transaction provider status_str provider_ref)
    (λ r, match r with
          | Ok _ => Done (Ok (WebhookAck true))
          | Raise exc => Done (Raise (HTTPException 500 (StrOf exc)))
          end).

(** [payment_webhook] from [mark_event_processed] on. *)
Definition webhook_mark (provider event_id : string)
    (status_str provider_ref : option jval) : proc :=
  await added := mark_event_processed provider event_id in
  if negb added
  then Done (Ok (WebhookAck true))
  else webhook_apply provider status_str provider_ref.

(** [payment_webhook] from [is_event_processed] on; the event is
    normalised between the check and the marker. *)
Definition webhook_dedup (provider event_id : string) (payload : Body) : proc :=
  await processed := is_event_processed provider event_id in
  if negb (processed =? 0)
  then Done (Ok (WebhookAck true))
  else match normalize provider payload with
       | Raise e => Done (Raise e)
       | Ok (status_str, provider_ref) =>
           webhook_mark provider event_id status_str provider_ref
       end.

Definition payment_webhook (provider : string) (request : Request) : proc :=
  match get_adapter provider with
  | Raise e => Done (Raise e)
  | Ok ad =>
      match verify_signature ad (lower_headers (headers request)) (body request) with
      | Raise e => Done (Raise e)
      | Ok false =>
          Done (Raise (HTTPException HTTP_400_BAD_REQUEST (Text "Invalid signature")))
      | Ok true =>
          let payload :=
            default (JsonObject (mkPayload ∅ None)) (json_loads (body request)) in
          match extract_event_id payload with
          | Raise e => Done (Raise e)
          | Ok None =>
              Done (Raise (HTTPException HTTP_400_BAD_REQUEST
                             (Text "Missing event id for idempotency")))
          | Ok (Some event_id) =>
              if negb (truthy (Some event_id))
              then Done (Raise (HTTPException HTTP_400_BAD_REQUEST
                                  (Text "Missing event id for idempotency")))
              else webhook_dedup provider (py_str event_id) payload
          end
      end
  end.

(** The requests of the two routers, with the random values drawn while
    they are served. *)
Inductive request :=
  | LockSeat (uuid : string) (req : LockSeatRequest)
  | ConfirmBooking (req : ConfirmBookingRequest)
  | ReleaseLock (req : ReleaseLockRequest)
  | InitiatePayment (hex : string) (req : PaymentInitiateRequest)
  | PaymentWebhook (provider : string) (req : Request).

Definition handle (r : request) : proc :=
  match r with
  | LockSeat uuid req => create_lock uuid req
  | ConfirmBooking req => confirm_booking req
  | ReleaseLock req => release_lock_endpoint req
  | InitiatePayment hex req => initiate_payment hex req
  | PaymentWebhook provider req => payment_webhook provider req
  end.

End Gateway.

(** ** Concurrent requests

    The service handles every request as an independent task; tasks only
    meet at the stores.  A configuration is the world and the pool of
    handlers in flight; an event lets one of them perform its next round
    trip, lets time pass, or takes a store down or up.  A Redis command,
    the Lua script included, is one step; so is a ledger transaction,
    which the row lock of the trip and the unique index serialise. *)

Inductive event :=
  | Run (i : nat)
  | Tick (dt : N)
  | RedisDown | RedisUp
  | LedgerDown | LedgerUp.

Definition step (p : proc) (w : World) : World * proc :=
  match p with
  | Done r => (w, Done r)
  | Await op k => let (w', x) := op w in (w', k x)
  end.

Definition fire (c : World * list proc) (ev : event) : World * list proc :=
  let (w, ps) := c in
  match ev with
  | Run i =>
      match ps !! i with
      | Some p => let (w', p') := step p w in (w', <[i := p']> ps)
      | None => c
      end
  | Tick dt => (set_now (now w + Z.of_N dt) w, ps)
  | RedisDown => (set_redis_up false w, ps)
  | RedisUp => (set_redis_up true w, ps)
  | LedgerDown => (set_ledger_up false w, ps)
  | LedgerUp => (set_ledger_up true w, ps)
  end.

Definition run (evs : list event) (c : World * list proc) : World * list proc :=
  foldl fire c evs.

Definition outcome (p : proc) : option (result response) :=
  match p with
  | Done r => Some r
  | Await _ _ => None
  end.

(** ** Ledger invariants *)

(** No two rows of [bookings] clash on [uq_trip_seat]. *)
Definition uq_trip_seat (d : DB) : Prop :=
  ∀ i j bi bj,
    bookings d !! i = Some bi → bookings d !! j = Some bj →
    clashes bi bj → i = j.

Definition seats_nonneg (d : DB) : Prop :=
  map_Forall (λ _ t, 0 ≤ seats_available t) (trips d).

(** A step keeps a property of the ledger. *)
Definition keeps {A} (P : DB → Prop) (m : M A) : Prop :=
  ∀ w, P (ledger w) → P (ledger (m w).1).

(** A handler all of whose steps keep [P]. *)
Inductive safe (P : DB → Prop) : proc → Prop :=
  | safe_Done r : safe P (Done r)
  | safe_Await X (op : M X) k :
      keeps P op → (∀ r, safe P (k r)) → safe P (Await op k).

(** A property of the ledger that every statement of the routers keeps. *)
Class LedgerInv (P : DB → Prop) := {
  inv_update_trip_decrement tid : keeps P (update_trip_decrement tid);
  inv_insert_booking b : keeps P (insert_booking b);
  inv_insert_payment bid amount currency prov ref st :
    keeps P (insert_payment bid amount currency prov ref st);
  inv_set_payment_status pid st : keeps P (set_payment_status pid st);
  inv_set_booking_status bid st : keeps P (set_booking_status bid st);
}.

(** ** Abbreviations used in the statements *)

(** The row [confirm_booking] adds. *)
Definition confirmed_row (req : ConfirmBookingRequest) : Booking :=
  mkBooking (cf_user_id req) (cf_trip_id req) (Some (cf_seat_id req)) "confirmed".

(** The ledger after the conditioned decrement found trip [tid] as [t]. *)
Definition decremented (tid : Z) (t : Trip) (d : DB) : DB :=
  with_trips (<[tid := mkTrip (seats_available t - 1)]> (trips d)) d.

(** Schedules without outages, and the time that passes in a schedule. *)
Definition quiet (ev : event) : Prop :=
  match ev with
  | Run _ | Tick _ => True
  | _ => False
  end.

Definition elapsed (evs : list event) : Z :=
  foldr (λ ev acc, match ev with Tick dt => Z.of_N dt + acc | _ => acc end) 0 evs.

Definition finished (ps : list proc) : Prop :=
  Forall (λ p, is_Some (outcome p)) ps.

(** The callers of a race for the lease of one (trip, seat): each with
    the token drawn for it and the ttl it asks for. *)
Definition lock_proc (trip seat : Z) (c : string * Z) : proc :=
  create_lock c.1 (mkLockReq trip seat (Some c.2)).

Definition locked_out : proc :=
  Done (Raise (HTTPException HTTP_409_CONFLICT (Text "Seat already locked"))).

(** What the caller [c] is answered when its key is set at time [t]. *)
Definition lock_answer (c : string * Z) (t : Z) : result response :=
  if t + c.2 <=? DATETIME_MAX
  then Ok (LockSeatResponse c.1 (t + c.2))
  else Raise (Err OverflowError).

(** ** A small instance: one trip with one seat left *)

Definition demo_ledger : DB :=
  mkDB {[ 7; 8 ]} {[ 3; 4 ]} {[ 1 := mkTrip 1 ]} ∅ ∅.

Definition demo_world : World :=
  mkWorld ∅ true demo_ledger true 1000 0 0.

Definition demo_callers : list (string * Z) :=
  [("tokA", 60); ("tokB", 60); ("tokC", 30)].

Definition demo_schedule : list event :=
  [Run 1%nat; Tick 5; Run 0%nat; Run 2%nat].

(** The callers of a race to confirm one (trip, seat): each with the
    token it presents and the user it books for. *)
Definition confirm_req (trip seat : Z) (c : string * option Z) : ConfirmBookingRequest :=
  mkConfirmReq trip seat c.1 c.2.

Definition confirm_proc (trip seat : Z) (c : string * option Z) : proc :=
  confirm_booking (confirm_req trip seat c).

Definition expired_out : proc :=
  Done (Raise (HTTPException HTTP_409_CONFLICT (Text "Invalid or expired lock token"))).

(** The ledger after the request [req] has been committed on [d] as the
    booking [bid], where its trip was [t]. *)
Definition committed (bid : Z) (req : ConfirmBookingRequest) (t : Trip) (d : DB) : DB :=
  with_bookings (<[bid := confirmed_row req]> (bookings d))
    (decremented (cf_trip_id req) t d).

(** Where the caller that consumed the lease stands. *)
Inductive stage := Committing | Responding | Answered.

Definition winner_proc (req : ConfirmBookingRequest) (bid : Z) (s : stage) : proc :=
  match s with
  | Committing => confirm_commit req
  | Responding => confirm_respond bid
  | Answered =>
      Done (Ok (BookingResponse bid (cf_trip_id req) (Some (cf_seat_id req)) "confirmed"))
  end.

Definition winner_ledger (bid : Z) (req : ConfirmBookingRequest) (t : Trip) (d : DB)
    (s : stage) : DB :=
  match s with
  | Committing => d
  | Responding | Answered => committed bid req t d
  end.

Definition winner_seq (bid seq : Z) (s : stage) : Z :=
  match s with
  | Committing => seq
  | Responding | Answered => bid
  end.

(** The instance after a client has locked seat 3 of trip 1 for 60 s. *)
Definition demo_locked : World :=
  mkWorld {[ LOCK_KEY_TPL 1 (Some 3) := Entry "tokA" (Some 1060) ]} true demo_ledger true 1000
    0 0.

Definition demo_confirmers : list (string * option Z) :=
  [("tokA", Some 7); ("tokA", None); ("guess", Some 7)].

Definition demo_confirm_schedule : list event :=
  [Run 2%nat; Run 1%nat; Tick 3; Run 0%nat; Run 1%nat; Run 1%nat].

(** ** Stages of a webhook delivery *)

Definition ack : proc := Done (Ok (WebhookAck true)).

(** [payment_webhook] from [mark_event_processed] on, for an event that
    normalises to [status_str] and [provider_ref]. *)
Definition webhook_marking (provider event_id : string)
    (status_str provider_ref : option jval) : proc :=
  await added := mark_event_processed provider event_id in
  if negb added then ack else webhook_apply provider status_str provider_ref.

(** [payment_webhook] from [is_event_processed] on. *)
Definition webhook_check (provider event_id : string)
    (status_str provider_ref : option jval) : proc :=
  await processed := is_event_processed provider event_id in
  if negb (processed =? 0) then ack
  else webhook_marking provider event_id status_str provider_ref.

(** What the handler answers after its transaction. *)
Definition webhook_answer (r : result unit) : result response :=
  match r with
  | Ok _ => Ok (WebhookAck true)
  | Raise exc => Raise (HTTPException 500 (StrOf exc))
  end.

(** The world once the marker of the event is set. *)
Definition marked (provider eid : string) (w : World) : World :=
  set_redis (<[IDEMPOTENCY_KEY_TPL provider eid := Entry "1" (Some (now w + 86400))]> (redis w)) w.

Section Accepted.

Variable hmac_sha256_hexdigest : string → string → string.
Variable json_loads : string → option Body.
Variables FLUTTERWAVE_SECRET MTN_SECRET AIRTEL_SECRET : string.

(** The delivery passes the signature check and carries the event id
    [event_id]; its payload normalises to [status_str], [provider_ref]. *)
Definition accepted (provider : string) (request : Request)
    (event_id : string) (status_str provider_ref : option jval) : Prop :=
  ∃ ad ev,
    get_adapter provider = Ok ad
    ∧ verify_signature hmac_sha256_hexdigest FLUTTERWAVE_SECRET MTN_SECRET AIRTEL_SECRET
        ad (lower_headers (headers request)) (body request) = Ok true
    ∧ extract_event_id (default (JsonObject (mkPayload ∅ None)) (json_loads (body request)))
      = Ok (Some ev)
    ∧ truthy (Some ev) = true
    ∧ py_str ev = event_id
    ∧ normalize provider (default (JsonObject (mkPayload ∅ None)) (json_loads (body request)))
      = Ok (status_str, provider_ref).

End Accepted.

(** The instance once seat 3 is booked (booking 1). *)
Definition demo_booked : World :=
  (exec (confirm_booking (mkConfirmReq 1 3 "tokA" (Some 7))) demo_locked).1.

(** The same instance had trip 1 two seats left: seat 3 is booked
    (booking 1) and one seat is left. *)
Definition demo_roomy : World :=
  (exec (confirm_booking (mkConfirmReq 1 3 "tokA" (Some 7)))
     (set_ledger (with_trips {[ 1 := mkTrip 2 ]} demo_ledger) demo_locked)).1.

(** That instance after a second confirm for seat 3 has been refused. *)
Definition demo_refused : World :=
  (exec (confirm_commit (mkConfirmReq 1 3 "tokB" (Some 8))) demo_roomy).1.

Definition demo_hmac (secret body : string) : string := "sig".

(** A value of [uuid4().hex], and the reference the Airtel adapter makes
    from it. *)
Definition demo_hex : string := "0123456789abcdef0123456789abcdef".
Definition demo_ref : string := adapter_initiate AirtelAdapter demo_hex.

Definition failed_payload (event ref : string) : Body :=
  JsonObject (mkPayload {[ "id" := JStr event ]}
    (Some (DataObject {[ "transaction_id" := JStr ref; "status" := JStr "failed" ]}))).

(** Three bodies: two distinct failed events for [demo_ref], and one
    for a reference no payment carries. *)
Definition demo_json_loads (body : string) : option Body :=
  if String.eqb body "first" then Some (failed_payload "evt1" demo_ref)
  else if String.eqb body "second" then Some (failed_payload "evt2" demo_ref)
  else if String.eqb body "orphan" then Some (failed_payload "evt3" "airtel_zzz")
  else None.

Definition demo_request (body : string) : Request :=
  mkRequest [("X-Signature", "sig")] body.

Definition demo_webhook : string → Request → proc :=
  payment_webhook demo_hmac demo_json_loads "" "" "secret".

(** The instance once an Airtel payment with the reference [demo_ref] is
    initiated for booking 1. *)
Definition demo_paying : World :=
  (exec (initiate_payment demo_hex
           (mkInitiateReq 1 (Finite (QArith_base.Qmake 50000 1)) (Some "UGX") "airtel"))
     demo_booked).1.

Definition demo_delivery_schedule : list event :=
  [Run 0%nat; Run 1%nat; Run 1%nat; Tick 10; Run 0%nat; Run 2%nat; Run 1%nat; Run 0%nat].

(** One delivery served alone: the marker check, the marker, then the
    transaction, with Redis lost before the transaction or not. *)
Definition delivery_schedule (outage : bool) : list event :=
  [Run 0%nat; Run 0%nat] ++ (if outage then [RedisDown] else []) ++ [Run 0%nat].

(** The instance with a new lease on seat 3 while the payment is awaited. *)
Definition demo_relocked : World :=
  (exec (create_lock "tokB" (mkLockReq 1 3 (Some 60))) demo_paying).1.

(** The instance after the failed event "evt1" has been delivered, and
    after the second failed event "evt2" for the same payment. *)
Definition demo_failed : World :=
  (exec (demo_webhook "airtel" (demo_request "first")) demo_paying).1.



(** ** Invariants of the races *)

(** Either nobody holds the lease and nobody has been served, or one
    caller holds it, for longer than the schedule lasts, and every other
    caller is waiting or has been turned away. *)
Definition lock_race_inv (trip seat : Z) (callers : list (string * Z)) (t0 : Z)
    (rem : list event) (c : World * list proc) : Prop :=
  redis_up c.1 = true ∧ Forall quiet rem ∧ t0 ≤ now c.1
  ∧ length c.2 = length callers
  ∧ ((redis_lookup c.1 (LOCK_KEY_TPL trip (Some seat)) = None
      ∧ c.2 = lock_proc trip seat <$> callers
      ∧ Forall (λ cl, elapsed rem < cl.2
                      ∧ now c.1 + elapsed rem + cl.2 ≤ DATETIME_MAX) callers)
     ∨ (∃ i cl τ x,
          callers !! i = Some cl
          ∧ redis c.1 !! LOCK_KEY_TPL trip (Some seat) = Some (Entry cl.1 (Some x))
          ∧ now c.1 + elapsed rem < x
          ∧ t0 ≤ τ ≤ now c.1
          ∧ c.2 !! i = Some (Done (Ok (LockSeatResponse cl.1 (τ + cl.2))))
          ∧ ∀ j cj, j ≠ i → callers !! j = Some cj →
              c.2 !! j = Some (lock_proc trip seat cj) ∨ c.2 !! j = Some locked_out)).

(** Either the lease is still there, for longer than the schedule lasts,
    and only callers with another token have been answered; or one caller
    with the token has consumed it and is on its way through the
    transaction, and the others are waiting or have been turned away. *)
Definition confirm_race_inv (trip seat : Z) (tok : string)
    (callers : list (string * option Z)) (d0 : DB) (seq0 : Z) (t : Trip) (x : Z)
    (rem : list event) (c : World * list proc) : Prop :=
  redis_up c.1 = true ∧ ledger_up c.1 = true ∧ Forall quiet rem
  ∧ length c.2 = length callers
  ∧ ((redis c.1 !! LOCK_KEY_TPL trip (Some seat) = Some (Entry tok (Some x))
      ∧ now c.1 + elapsed rem < x
      ∧ ledger c.1 = d0 ∧ bookings_id_seq c.1 = seq0
      ∧ ∀ j cj, callers !! j = Some cj →
          c.2 !! j = Some (confirm_proc trip seat cj)
          ∨ (cj.1 ≠ tok ∧ c.2 !! j = Some expired_out))
     ∨ (∃ i ci s,
          callers !! i = Some ci ∧ ci.1 = tok
          ∧ redis c.1 !! LOCK_KEY_TPL trip (Some seat) = None
          ∧ ledger c.1
            = winner_ledger (nextval seq0 (bookings d0)) (confirm_req trip seat ci) t d0 s
          ∧ bookings_id_seq c.1 = winner_seq (nextval seq0 (bookings d0)) seq0 s
          ∧ c.2 !! i
            = Some (winner_proc (confirm_req trip seat ci) (nextval seq0 (bookings d0)) s)
          ∧ ∀ j cj, j ≠ i → callers !! j = Some cj →
              c.2 !! j = Some (confirm_proc trip seat cj) ∨ c.2 !! j = Some expired_out)).

(** Either the marker is not set and no delivery has reached the
    transaction; or one delivery has set it, for longer than the schedule
    lasts, that delivery alone is at or past the transaction, and every
    other one is on its way to an acknowledgement or has given it. *)
Definition webhook_race_inv (provider eid : string) (st ref : option jval)
    (d0 : DB) (n : nat) (rem : list event) (c : World * list proc) : Prop :=
  redis_up c.1 = true ∧ Forall quiet rem ∧ elapsed rem < 86400
  ∧ length c.2 = n
  ∧ ((redis_lookup c.1 (IDEMPOTENCY_KEY_TPL provider eid) = None
      ∧ ledger c.1 = d0
      ∧ ∀ j p, c.2 !! j = Some p →
          p = webhook_check provider eid st ref ∨ p = webhook_marking provider eid st ref)
     ∨ (∃ i x,
          redis c.1 !! IDEMPOTENCY_KEY_TPL provider eid = Some (Entry "1" (Some x))
          ∧ now c.1 + elapsed rem < x
          ∧ ((c.2 !! i = Some (webhook_apply provider st ref) ∧ ledger c.1 = d0)
             ∨ (∃ w1, ledger w1 = d0
                      ∧ ledger c.1 = ledger (webhook_transaction provider st ref w1).1
                      ∧ c.2 !! i
                        = Some (Done (webhook_answer
                                        (webhook_transaction provider st ref w1).2))))
          ∧ ∀ j p, j ≠ i → c.2 !! j = Some p →
              p = webhook_check provider eid st ref
              ∨ p = webhook_marking provider eid st ref
              ∨ p = ack)).

(** ** Abbreviations for the further properties *)

(** The world [dt] seconds later. *)
Definition tick (dt : N) (w : World) : World := (fire (w, []) (Tick dt)).1.

(** What the three lease endpoints answer when they refuse. *)
Definition already_locked : result response :=
  Raise (HTTPException HTTP_409_CONFLICT (Text "Seat already locked")).
Definition invalid_or_expired : result response :=
  Raise (HTTPException HTTP_409_CONFLICT (Text "Invalid or expired lock token")).
Definition mismatch_or_not_owned : result response :=
  Raise (HTTPException HTTP_409_CONFLICT (Text "Token mismatch or lock not owned")).
Definition already_booked : result response :=
  Raise (HTTPException HTTP_409_CONFLICT (Text "Seat already booked")).

(** What the payment endpoints answer when they refuse. *)
Definition invalid_signature : result response :=
  Raise (HTTPException HTTP_400_BAD_REQUEST (Text "Invalid signature")).
Definition missing_event_id : result response :=
  Raise (HTTPException HTTP_400_BAD_REQUEST (Text "Missing event id for idempotency")).
Definition unable_to_create_payment : result response :=
  Raise (HTTPException 500 (Text "Unable to create payment record")).

(** A loader that reads every body as an event for [demo_ref] with the
    status [st], the body being the event id. *)
Definition demo_status_loads (st : jval) (body : string) : option Body :=
  Some (JsonObject (mkPayload {[ "id" := JStr body ]}
          (Some (DataObject {[ "transaction_id" := JStr demo_ref; "status" := st ]})))).

Definition demo_status_webhook (st : jval) : string → Request → proc :=
  payment_webhook demo_hmac (demo_status_loads st) "" "" "secret".

(** A status of 51 letters. *)
Definition demo_long_status : string :=
  "pending_review_by_the_provider_until_further_notice".

(** A loader that reads every body as the JSON value [b]. *)
Definition demo_shape_webhook (b : Body) : string → Request → proc :=
  payment_webhook demo_hmac (λ _, Some b) "" "" "secret".

(** The row of [bookings] with another status. *)
Definition with_status (st : string) (b : Booking) : Booking :=
  mkBooking (user_id b) (trip_id b) (seat_id b) st.

(** Not the colon (58). *)
Definition not_colon (c : Ascii.ascii) : bool := negb (Ascii.N_of_ascii c =? 58)%N.

(** A character of a printed integer: a digit (48 to 57) or the minus
    sign (45). *)
Definition numeric (c : Ascii.ascii) : bool :=
  let n := Ascii.N_of_ascii c in
  ((48 <=? n) && (n <=? 57) || (n =? 45))%N.

(** ** Further invariants of the ledger *)

(** No two payments carry the same reference. *)
Definition provider_ref_unique (d : DB) : Prop :=
  ∀ i j p q r,
    payments d !! i = Some p → payments d !! j = Some q →
    provider_ref p = Some r → provider_ref q = Some r → i = j.

(** Every foreign key of [bookings] and [payments] leads to a row. *)
Definition references_hold (d : DB) : Prop :=
  map_Forall (λ _ b, booking_fks_ok b d = true) (bookings d)
  ∧ map_Forall (λ _ p, is_Some (bookings d !! booking_id p)) (payments d).

(** The bookings of [d0] are still in [d], for the same user, trip and
    seat. *)
Definition bookings_persist (d0 d : DB) : Prop :=
  ∀ i b, bookings d0 !! i = Some b →
    ∃ b', bookings d !! i = Some b'
          ∧ user_id b' = user_id b ∧ trip_id b' = trip_id b ∧ seat_id b' = seat_id b.

(** Every trip of [d] is a trip of [d0] and has no more seats left than
    it had in [d0]. *)
Definition capacity_bounded (d0 d : DB) : Prop :=
  ∀ tid t', trips d !! tid = Some t' →
    ∃ t, trips d0 !! tid = Some t ∧ seats_available t' ≤ seats_available t.

(** The number of booking rows of a trip. *)
Definition booked (d : DB) (tid : Z) : Z :=
  Z.of_nat (length (filter (λ ib, trip_id ib.2 = tid) (map_to_list (bookings d)))).

(** For every trip, the seats left plus the rows made are what they were
    in [d0]. *)
Definition seats_conserved (d0 d : DB) : Prop :=
  ∀ tid t t',
    trips d0 !! tid = Some t → trips d !! tid = Some t' →
    seats_available t' + booked d tid = seats_available t + booked d0 tid.

Definition is_webhook (r : request) : bool :=
  match r with
  | PaymentWebhook _ _ => true
  | _ => false
  end.

(** The small instance as a service, and three requests for it: the
    failed event for booking 1, then a second client for seat 3. *)
Definition demo_handle : request → proc :=
  handle demo_hmac demo_json_loads "" "" "secret".

Definition demo_requests : list request :=
  [PaymentWebhook "airtel" (demo_request "first");
   LockSeat "tokB" (mkLockReq 1 3 (Some 60));
   ConfirmBooking (mkConfirmReq 1 3 "tokB" (Some 7))].

Definition demo_service_schedule : list event :=
  [Run 0%nat; Run 0%nat; Run 0%nat; Tick 5; Run 1%nat; Run 2%nat; Run 2%nat].

(** Two confirms on one lease of seat 3, then the payment. *)
Definition demo_rush : list request :=
  [LockSeat "tokA" (mkLockReq 1 3 (Some 60));
   ConfirmBooking (mkConfirmReq 1 3 "tokA" (Some 7));
   ConfirmBooking (mkConfirmReq 1 3 "tokA" None);
   InitiatePayment demo_hex
     (mkInitiateReq 1 (Finite (QArith_base.Qmake 50000 1)) None "airtel")].

Definition demo_rush_schedule : list event :=
  [Run 0%nat; Run 1%nat; Run 2%nat; Run 1%nat; Run 1%nat; Run 3%nat].

(** The locked instance with Redis unreachable. *)
Definition demo_outage : World := (fire (demo_locked, []) RedisDown).1.

(** A signed success event "evt9" for the reference [ref]. *)
Definition demo_paid_loads (ref : string) (body : string) : option Body :=
  Some (JsonObject (mkPayload {[ "id" := JStr "evt9" ]}
          (Some (DataObject {[ "transaction_id" := JStr ref; "status" := JStr "success" ]})))).

(** * Properties *)

(** ** The stores *)

Ltac unfold_redis :=
  unfold redis_set_nx, redis_delete, redis_exists, redis_eval_cas_del, connected.
Ltac unfold_M :=
  unfold try_except, bind, ret, raise.

Lemma redis_lookup_set_redis_delete w key :
  redis_lookup (set_redis (delete key (redis w)) w) key = None.
Proof. unfold redis_lookup, set_redis; simpl. by rewrite lookup_delete_eq. Qed.

Lemma redis_lookup_set_redis_delete_ne w key key' :
  key ≠ key' →
  redis_lookup (set_redis (delete key (redis w)) w) key' = redis_lookup w key'.
Proof. intros. unfold redis_lookup, set_redis; simpl. by rewrite lookup_delete_ne. Qed.

Lemma redis_lookup_unique w key t1 t2 :
  redis_lookup w key = Some t1 → redis_lookup w key = Some t2 → t1 = t2.
Proof. congruence. Qed.

(** The compare-and-delete script in closed form. *)
Lemma redis_eval_cas_del_eq key tok w :
  redis_eval_cas_del key tok w =
    if redis_up w then
      if bool_decide (redis_lookup w key = Some tok)
      then (set_redis (delete key (redis w)) w, Ok 1)
      else (w, Ok 0)
    else (w, Raise (Err ConnectionError)).
Proof.
  unfold_redis. destruct (redis_up w); [|done].
  destruct (redis_lookup w key) as [v|] eqn:Hv.
  - destruct (String.eqb v tok) eqn:He.
    + apply String.eqb_eq in He as ->. by rewrite bool_decide_eq_true_2.
    + apply String.eqb_neq in He. rewrite bool_decide_eq_false_2; [done|congruence].
  - by rewrite bool_decide_eq_false_2.
Qed.

Lemma validate_and_consume_lock_eq trip seat tok w :
  validate_and_consume_lock trip seat tok w =
    if redis_up w && bool_decide (redis_lookup w (LOCK_KEY_TPL trip (Some seat)) = Some tok)
    then (set_redis (delete (LOCK_KEY_TPL trip (Some seat)) (redis w)) w, Ok true)
    else (w, Ok false).
Proof.
  unfold validate_and_consume_lock. unfold_M. rewrite redis_eval_cas_del_eq.
  destruct (redis_up w); [|done]. simpl. by case_bool_decide.
Qed.

(** C8. [consume] (validate_and_consume_lock) is a compare-and-delete:
    it answers [True] exactly when Redis is reachable and the live value
    stored for (trip, seat) equals the token, and then the key is gone;
    in every other case (key absent, expired, or holding another token)
    it answers [False] and leaves the world as it was, so a live lease
    with a different token is still there afterwards. *)
Theorem consume_is_compare_and_delete (trip seat : Z) (tok : string) (w : World) :
  ∃ w' ok,
    validate_and_consume_lock trip seat tok w = (w', Ok ok)
    ∧ (ok = true ↔
         redis_up w = true ∧ redis_lookup w (LOCK_KEY_TPL trip (Some seat)) = Some tok)
    ∧ (ok = true →
         redis w' = delete (LOCK_KEY_TPL trip (Some seat)) (redis w)
         ∧ redis_lookup w' (LOCK_KEY_TPL trip (Some seat)) = None
         ∧ ledger w' = ledger w)
    ∧ (ok = false → w' = w)
    ∧ (∀ tok', redis_lookup w (LOCK_KEY_TPL trip (Some seat)) = Some tok' →
               tok' ≠ tok →
               ok = false ∧ redis_lookup w' (LOCK_KEY_TPL trip (Some seat)) = Some tok').
Proof.
  rewrite validate_and_consume_lock_eq.
  destruct (redis_up w) eqn:Hup; simpl.
  - case_bool_decide as Hk.
    + eexists _, true. split_and!; try done.
      * intros _. split_and!; [done|apply redis_lookup_set_redis_delete|done].
      * intros tok' Hk' Hne. congruence.
    + eexists _, false. split_and!; try done.
      * split; [done|]. intros [_ ?]. done.
  - eexists _, false. split_and!; try done.
    split; [done|]. intros [? _]. done.
Qed.

(** ** Ledger invariants *)

Create HintDb keeps.

Lemma foldr_max_ge (l : list Z) k : k ∈ l → k ≤ foldr Z.max 0 l.
Proof.
  induction l as [|x l IH]; intros Hk.
  - by apply elem_of_nil in Hk.
  - apply elem_of_cons in Hk as [->|Hk]; simpl; [lia|].
    specialize (IH Hk). lia.
Qed.

Lemma max_id_ge {A} (m : gmap Z A) i x : m !! i = Some x → i ≤ max_id m.
Proof.
  intros Hx. apply elem_of_map_to_list in Hx.
  apply foldr_max_ge, list_elem_of_fmap. by exists (i, x).
Qed.

Lemma max_id_nonneg {A} (m : gmap Z A) : 0 ≤ max_id m.
Proof. unfold max_id. induction ((map_to_list m).*1); simpl; lia. Qed.

(** A value drawn from the sequence is the id of no row, is positive and
    is past the last value drawn. *)
Lemma nextval_fresh {A} seq (m : gmap Z A) : m !! nextval seq m = None.
Proof.
  destruct (m !! nextval seq m) as [x|] eqn:Hx; [|done].
  apply max_id_ge in Hx. unfold nextval in Hx. lia.
Qed.

Lemma nextval_pos {A} seq (m : gmap Z A) : 0 < nextval seq m.
Proof. pose proof (max_id_nonneg m). unfold nextval. lia. Qed.

Lemma nextval_gt {A} seq (m : gmap Z A) : seq < nextval seq m.
Proof. unfold nextval. lia. Qed.

Section keeps.
Context {P : DB → Prop}.

Lemma keeps_ret {A} (a : A) : keeps P (ret a).
Proof. by intros w. Qed.
Lemma keeps_raise {A} e : keeps P (@raise A e).
Proof. by intros w. Qed.
Lemma keeps_bind {A B} (m : M A) (k : A → M B) :
  keeps P m → (∀ a, keeps P (k a)) → keeps P (bind m k).
Proof.
  intros Hm Hk w HP. unfold bind. specialize (Hm w HP).
  destruct (m w) as [w' [a|e]]; simpl in *; [by apply Hk|done].
Qed.
Lemma keeps_try_except {A} (m : M A) h :
  keeps P m → (∀ e, keeps P (h e)) → keeps P (try_except m h).
Proof.
  intros Hm Hh w HP. unfold try_except. specialize (Hm w HP).
  destruct (m w) as [w' [a|e]]; simpl in *; [done|by apply Hh].
Qed.
Lemma keeps_db_begin {A} (m : M A) : keeps P m → keeps P (db_begin m).
Proof.
  intros Hm w HP. unfold db_begin. destruct (ledger_up w); [|done].
  specialize (Hm w HP). destruct (m w) as [w' [a|e]]; simpl in *; done.
Qed.
Lemma keeps_connected {A} (m : M A) : keeps P m → keeps P (connected m).
Proof. intros Hm w HP. unfold connected. destruct (redis_up w); [by apply Hm|done]. Qed.

(** Redis commands and the lease services leave the ledger alone. *)
Lemma keeps_redis_set_nx key v ex : keeps P (redis_set_nx key v ex).
Proof.
  apply keeps_connected. intros w HP.
  destruct ex as [t|]; [destruct (t <=? 0); [done|]|];
    destruct (redis_lookup w key); done.
Qed.
Lemma keeps_redis_delete key : keeps P (redis_delete key).
Proof. apply keeps_connected. intros w HP. destruct (redis_lookup w key); done. Qed.
Lemma keeps_redis_exists key : keeps P (redis_exists key).
Proof. apply keeps_connected. intros w HP. destruct (redis_lookup w key); done. Qed.
Lemma keeps_redis_eval_cas_del key tok : keeps P (redis_eval_cas_del key tok).
Proof.
  apply keeps_connected. intros w HP.
  destruct (redis_lookup w key); [destruct (String.eqb _ _)|]; done.
Qed.

Lemma keeps_lock_seat uuid t s ttl : keeps P (lock_seat uuid t s ttl).
Proof.
  apply keeps_bind; [apply keeps_redis_set_nx|].
  intros [] w HP; simpl; [destruct ttl as [x|]; [destruct (_ <=? _)|]|]; done.
Qed.
Lemma keeps_validate_and_consume_lock t s tok : keeps P (validate_and_consume_lock t s tok).
Proof.
  apply keeps_try_except; [|intros; apply keeps_ret].
  apply keeps_bind; [apply keeps_redis_eval_cas_del|intros; apply keeps_ret].
Qed.
Lemma keeps_release_lock t s tok : keeps P (release_lock t s tok).
Proof.
  destruct tok; simpl.
  - apply keeps_try_except; [|intros; apply keeps_ret].
    apply keeps_bind; [apply keeps_redis_eval_cas_del|intros; apply keeps_ret].
  - apply keeps_bind; [apply keeps_redis_delete|intros; apply keeps_ret].
Qed.
Lemma keeps_select_payment_by_ref r : keeps P (select_payment_by_ref r).
Proof. by intros w. Qed.
Lemma keeps_select_booking b : keeps P (select_booking b).
Proof. by intros w. Qed.
Lemma keeps_locate_booking b : keeps P (locate_booking b).
Proof. unfold locate_booking. destruct (b =? 0); by intros w. Qed.
Lemma keeps_refresh_booking b : keeps P (refresh_booking b).
Proof.
  intros w HP. unfold refresh_booking.
  destruct (ledger_up w); [destruct (_ !! _)|]; done.
Qed.
Lemma keeps_lcstatus_of s : keeps P (lcstatus_of s).
Proof. intros w HP. unfold lcstatus_of. destruct (py_or _ _) as [[]|]; done. Qed.

End keeps.

Global Hint Resolve keeps_ret keeps_raise keeps_bind keeps_try_except keeps_db_begin
  keeps_redis_set_nx keeps_redis_delete keeps_redis_exists keeps_redis_eval_cas_del
  keeps_lock_seat keeps_validate_and_consume_lock keeps_release_lock
  keeps_select_payment_by_ref keeps_select_booking keeps_locate_booking
  keeps_refresh_booking keeps_lcstatus_of : keeps.

Lemma clashes_sym b b' : clashes b b' → clashes b' b.
Proof. intros (Ht & Hs & Hsome). unfold clashes. rewrite Ht, Hs. done. Qed.

Lemma lookup_alter_status bid st (bs : gmap Z Booking) i b' :
  alter (λ b, mkBooking (user_id b) (trip_id b) (seat_id b) st) bid bs !! i = Some b' →
  ∃ b, bs !! i = Some b ∧ trip_id b = trip_id b' ∧ seat_id b = seat_id b'
       ∧ user_id b = user_id b' ∧ (i ≠ bid → b = b') ∧ (i = bid → status b' = st).
Proof.
  destruct (decide (bid = i)) as [->|Hne].
  - rewrite lookup_alter_eq. destruct (bs !! i) as [b|]; simpl; [|done].
    intros [= <-]. exists b. by split_and!.
  - rewrite lookup_alter_ne by done. intros Hb. exists b'. by split_and!.
Qed.

Lemma uq_trip_seat_insert b i (d : DB) :
  uq_trip_seat d → uq_trip_seat_ok b (bookings d) = true →
  uq_trip_seat (with_bookings (<[i := b]> (bookings d)) d).
Proof.
  intros Huq Hok. apply bool_decide_eq_true_1 in Hok.
  intros i1 i2 b1 b2; simpl.
  destruct (decide (i = i1)) as [<-|H1], (decide (i = i2)) as [<-|H2]; try done.
  - rewrite lookup_insert_eq, lookup_insert_ne by done.
    intros [= <-] H2' Hcl. by destruct (Hok _ _ H2').
  - rewrite lookup_insert_eq, lookup_insert_ne by done.
    intros H1' [= <-] Hcl. apply clashes_sym in Hcl. by destruct (Hok _ _ H1').
  - rewrite !lookup_insert_ne by done. apply Huq.
Qed.

Global Instance seats_nonneg_inv : LedgerInv seats_nonneg.
Proof.
  split.
  - intros tid w Hnn. unfold update_trip_decrement.
    destruct (trips (ledger w) !! tid) as [t|] eqn:Ht; [|by destruct (int4 tid)].
    destruct (0 <? seats_available t) eqn:Hpos; [|done].
    apply map_Forall_insert_2; [simpl; lia|exact Hnn].
  - intros b w Hnn. unfold insert_booking.
    destruct (negb _); [done|]. by destruct (_ && _).
  - intros bid amount currency prov ref st w Hnn. unfold insert_payment.
    destruct (negb _); [done|]. destruct (if numeric_10_2 _ && _ then _ else _); [|done].
    by destruct (_ && _).
  - intros pid st w Hnn. unfold set_payment_status. by destruct (varchar _ _).
  - by intros bid st w Hnn.
Qed.

Global Instance uq_trip_seat_inv : LedgerInv uq_trip_seat.
Proof.
  split.
  - intros tid w Huq. unfold update_trip_decrement.
    destruct (trips (ledger w) !! tid) as [t|]; [|by destruct (int4 tid)].
    by destruct (0 <? seats_available t).
  - intros b w Huq. unfold insert_booking. destruct (negb _); [done|].
    destruct (booking_fks_ok _ _ && uq_trip_seat_ok _ _) eqn:Hok; [|done].
    apply andb_true_iff in Hok as [_ Hok]. by apply uq_trip_seat_insert.
  - intros bid amount currency prov ref st w Huq. unfold insert_payment.
    destruct (negb _); [done|]. destruct (if numeric_10_2 _ && _ then _ else _); [|done].
    by destruct (_ && _).
  - intros pid st w Huq. unfold set_payment_status. by destruct (varchar _ _).
  - intros bid st w Huq i j bi bj Hi Hj (Ht & Hs & Hsome). simpl in Hi, Hj.
    apply lookup_alter_status in Hi as (bi0 & Hi & Hti & Hsi & _).
    apply lookup_alter_status in Hj as (bj0 & Hj & Htj & Hsj & _).
    apply (Huq i j bi0 bj0 Hi Hj). unfold clashes. rewrite Hti, Hsi, Htj, Hsj. done.
Qed.

Global Hint Resolve inv_update_trip_decrement
  inv_insert_booking inv_insert_payment inv_set_payment_status
  inv_set_booking_status : keeps.

(** The webhook handler keeps what its transaction keeps. *)
Lemma safe_payment_webhook_of (P : DB → Prop) hm jl s1 s2 s3 prov request :
  (∀ st ref, keeps P (webhook_transaction prov st ref)) →
  safe P (payment_webhook hm jl s1 s2 s3 prov request).
Proof.
  intros Htx.
  unfold payment_webhook. destruct (get_adapter _); [|constructor].
  destruct (verify_signature _ _ _ _ _ _ _) as [[]|]; [|constructor..].
  destruct (extract_event_id _) as [[eid|]|]; [|constructor..].
  destruct (negb _); [constructor|].
  constructor; [unfold is_event_processed; auto with keeps|].
  intros [z|e]; [|constructor]. destruct (negb _); [constructor|].
  destruct (normalize _ _) as [[st ref]|]; [|constructor].
  constructor; [unfold mark_event_processed; auto with keeps|].
  intros [[]|e]; simpl; try constructor; [apply Htx|].
  intros [|]; constructor.
Qed.

Section safe_handlers.
Context {P : DB → Prop} `{!LedgerInv P}.

Lemma keeps_confirm_transaction req : keeps P (confirm_transaction req).
Proof.
  unfold confirm_transaction. apply keeps_db_begin, keeps_bind; [auto with keeps|].
  intros rc. destruct (rc =? 0); auto with keeps.
Qed.

Lemma keeps_flush_payment_status pid st : keeps P (flush_payment_status pid st).
Proof. unfold flush_payment_status. destruct (truthy st); auto with keeps. Qed.

Lemma keeps_webhook_transaction prov st ref : keeps P (webhook_transaction prov st ref).
Proof.
  unfold webhook_transaction, webhook_body.
  apply keeps_db_begin, keeps_bind; [auto with keeps|].
  pose proof keeps_flush_payment_status.
  intros [[pid pay]|].
  - apply keeps_bind; [auto with keeps|]. intros lc.
    repeat case_bool_decide.
    + apply keeps_bind; [auto with keeps|]. intros _.
      apply keeps_bind; [auto with keeps|]. intros [b|]; auto with keeps.
    + apply keeps_bind; [auto with keeps|]. intros _.
      apply keeps_bind; [auto with keeps|]. intros [b|]; [|auto with keeps].
      destruct (trip_id b =? 0); [|auto with keeps].
      apply keeps_bind; [|auto with keeps].
      apply keeps_try_except; [|auto with keeps].
      apply keeps_bind; auto with keeps.
    + auto with keeps.
  - apply keeps_bind; auto with keeps.
Qed.

Local Hint Resolve keeps_confirm_transaction keeps_webhook_transaction : keeps.

(** Every handler of the two routers is safe for such a property. *)
Lemma safe_create_lock uuid req : safe P (create_lock uuid req).
Proof.
  constructor; [auto with keeps|]. intros [[l|]|e]; constructor.
Qed.

Lemma safe_confirm_booking req : safe P (confirm_booking req).
Proof.
  constructor; [auto with keeps|]. intros [[]|e]; simpl; try constructor.
  - auto with keeps.
  - intros [bid|[[]|]]; try constructor; [auto with keeps|].
    intros [b|e]; constructor.
Qed.

Lemma safe_release_lock_endpoint req : safe P (release_lock_endpoint req).
Proof.
  constructor; [auto with keeps|]. intros [[]|e]; constructor.
Qed.

Lemma safe_initiate_payment hex req : safe P (initiate_payment hex req).
Proof.
  unfold initiate_payment. destruct (get_adapter _); [|constructor].
  constructor; [auto with keeps|]. intros [?|[[]|]]; constructor.
Qed.

Lemma safe_payment_webhook hm jl prov request s1 s2 s3 :
  safe P (payment_webhook hm jl s1 s2 s3 prov request).
Proof. apply safe_payment_webhook_of. auto with keeps. Qed.

End safe_handlers.

(** Steps and events keep what safe handlers keep. *)
Lemma safe_step P p w :
  safe P p → P (ledger w) → P (ledger (step p w).1) ∧ safe P (step p w).2.
Proof.
  intros Hs HP. destruct Hs as [r|X op k Hop Hk]; simpl.
  - split; [done|constructor].
  - specialize (Hop w HP). destruct (op w) as [w' x]; simpl in *. split; [done|apply Hk].
Qed.


Lemma safe_fire P c ev :
  P (ledger c.1) → Forall (safe P) c.2 →
  P (ledger (fire c ev).1) ∧ Forall (safe P) (fire c ev).2.
Proof.
  destruct c as [w ps]; simpl. intros HP Hps.
  destruct ev as [i|dt| | | |]; simpl; try done.
  destruct (ps !! i) as [p|] eqn:Hp; [|done].
  assert (safe P p) as Hsp by (eapply Forall_lookup_1; eauto).
  destruct (safe_step P p w Hsp HP) as [HP' Hs'].
  destruct (step p w) as [w' p']; simpl in *. split; [done|].
  apply Forall_insert; done.
Qed.

Lemma safe_run P evs c :
  P (ledger c.1) → Forall (safe P) c.2 →
  P (ledger (run evs c).1) ∧ Forall (safe P) (run evs c).2.
Proof.
  revert c. induction evs as [|ev evs IH]; intros c HP Hps; [done|].
  simpl. destruct (safe_fire P c ev HP Hps). by apply IH.
Qed.

(** ** confirm: one transaction *)

Lemma set_ledger_id w : set_ledger (ledger w) w = w.
Proof. by destruct w. Qed.

Lemma set_seq_set_ledger i d w :
  set_ledger (ledger w) (set_bookings_id_seq i (set_ledger d w)) = set_bookings_id_seq i w.
Proof. by destruct w. Qed.

(** The parameters of the INSERT are sent or not whatever the decrement
    did. *)
Lemma booking_sent_decremented b tid t d :
  is_Some (trips d !! tid) →
  booking_sent b (decremented tid t d) = booking_sent b d.
Proof.
  intros Htid. unfold booking_sent; simpl. do 3 f_equal.
  apply bool_decide_ext. destruct (decide (tid = trip_id b)) as [->|Hne].
  - by rewrite lookup_insert_eq.
  - by rewrite lookup_insert_ne.
Qed.

Lemma booking_fks_ok_sent b d : booking_fks_ok b d = true → booking_sent b d = true.
Proof.
  unfold booking_fks_ok, booking_sent, fk_nullable, sent_nullable.
  intros [[Hu Ht]%andb_true_iff Hs]%andb_true_iff.
  rewrite Ht. destruct (user_id b), (seat_id b); simpl in *; by rewrite ?Hu, ?Hs.
Qed.

(** The transaction of [confirm_booking] in closed form. *)
Lemma confirm_transaction_eq req w :
  confirm_transaction req w =
    if ledger_up w then
      match trips (ledger w) !! cf_trip_id req with
      | Some t =>
          if 0 <? seats_available t then
            let d1 := decremented (cf_trip_id req) t (ledger w) in
            let i := nextval (bookings_id_seq w) (bookings (ledger w)) in
            if negb (booking_sent (confirmed_row req) (ledger w))
            then (w, Raise (Err DBAPIError))
            else if booking_fks_ok (confirmed_row req) d1
                    && uq_trip_seat_ok (confirmed_row req) (bookings (ledger w))
            then (set_ledger (committed i req t (ledger w)) (set_bookings_id_seq i w), Ok i)
            else (set_bookings_id_seq i w, Raise (Err IntegrityError))
          else (w, Raise (HTTPException HTTP_409_CONFLICT (Text "No seats available")))
      | None =>
          if int4 (cf_trip_id req)
          then (w, Raise (HTTPException HTTP_409_CONFLICT (Text "No seats available")))
          else (w, Raise (Err DBAPIError))
      end
    else (w, Raise (Err OperationalError)).
Proof.
  unfold confirm_transaction, db_begin, bind, update_trip_decrement, insert_booking, raise.
  destruct (ledger_up w) eqn:Hup; [|done].
  destruct (trips (ledger w) !! cf_trip_id req) as [t|] eqn:Ht; simpl;
    [|destruct (int4 _); simpl; by rewrite ?set_ledger_id].
  destruct (0 <? seats_available t); simpl; [|by rewrite set_ledger_id].
  fold (confirmed_row req). fold (decremented (cf_trip_id req) t (ledger w)).
  rewrite booking_sent_decremented by done.
  destruct (booking_sent _ _); simpl; [|by destruct w].
  destruct (booking_fks_ok _ _ && uq_trip_seat_ok _ _); simpl.
  - by destruct w.
  - by destruct w.
Qed.

(** What the handler answers once the lease is consumed. *)
Lemma exec_confirm_commit req w :
  exec (confirm_commit req) w =
    match confirm_transaction req w with
    | (w', Ok bid) => exec (confirm_respond bid) w'
    | (w', Raise (Err IntegrityError)) =>
        (w', Raise (HTTPException HTTP_409_CONFLICT (Text "Seat already booked")))
    | (w', Raise e) => (w', Raise e)
    end.
Proof.
  simpl. destruct (confirm_transaction req w) as [w' [bid|[[]|]]]; done.
Qed.

Lemma exec_confirm_commit_cases req w :
  (∃ t,
      ledger_up w = true
      ∧ trips (ledger w) !! cf_trip_id req = Some t ∧ 0 < seats_available t
      ∧ booking_fks_ok (confirmed_row req) (decremented (cf_trip_id req) t (ledger w)) = true
      ∧ uq_trip_seat_ok (confirmed_row req) (bookings (ledger w)) = true
      ∧ exec (confirm_commit req) w =
          (set_ledger
             (committed (nextval (bookings_id_seq w) (bookings (ledger w))) req t (ledger w))
             (set_bookings_id_seq (nextval (bookings_id_seq w) (bookings (ledger w))) w),
           Ok (BookingResponse (nextval (bookings_id_seq w) (bookings (ledger w)))
                 (cf_trip_id req) (Some (cf_seat_id req)) "confirmed")))
  ∨ (∃ w' e, exec (confirm_commit req) w = (w', Raise e) ∧ e ≠ Err IntegrityError
             ∧ (w' = w
                ∨ w' = set_bookings_id_seq
                         (nextval (bookings_id_seq w) (bookings (ledger w))) w)).
Proof.
  rewrite exec_confirm_commit, confirm_transaction_eq.
  destruct (ledger_up w) eqn:Hup; [|right; eexists _, _; by eauto].
  destruct (trips (ledger w) !! cf_trip_id req) as [t|] eqn:Ht;
    [|right; destruct (int4 _); eexists _, _; by eauto].
  destruct (0 <? seats_available t) eqn:Hpos; [|right; eexists _, _; by eauto].
  cbn zeta. destruct (booking_sent _ _); simpl; [|right; eexists _, _; by eauto].
  destruct (booking_fks_ok _ _ && uq_trip_seat_ok _ _) eqn:Hok;
    [|right; eexists _, _; by eauto].
  left. exists t. apply andb_true_iff in Hok as [Hfk Huq].
  split_and!; try done; [lia|].
  simpl. unfold refresh_booking. simpl. rewrite Hup, lookup_insert_eq. done.
Qed.

Lemma uq_trip_seat_ok_clash req (bs : gmap Z Booking) i b' :
  bs !! i = Some b' → trip_id b' = cf_trip_id req → seat_id b' = Some (cf_seat_id req) →
  uq_trip_seat_ok (confirmed_row req) bs = false.
Proof.
  intros Hi Ht Hs. apply bool_decide_eq_false_2. intros Hall.
  apply (Hall _ _ Hi). unfold clashes; simpl. by split_and!.
Qed.

Lemma exec_confirm_booking req w :
  exec (confirm_booking req) w =
    if redis_up w
       && bool_decide (redis_lookup w (LOCK_KEY_TPL (cf_trip_id req) (Some (cf_seat_id req)))
                       = Some (cf_token req))
    then exec (confirm_commit req)
           (set_redis (delete (LOCK_KEY_TPL (cf_trip_id req) (Some (cf_seat_id req))) (redis w)) w)
    else (w, Raise (HTTPException HTTP_409_CONFLICT (Text "Invalid or expired lock token"))).
Proof.
  unfold confirm_booking. cbn [exec]. rewrite validate_and_consume_lock_eq.
  by destruct (_ && _).
Qed.

(** C6. The capacity decrement and the booking insert of [confirm] are
    one transaction.  Once the lease is consumed: when the handler
    answers a booking, the trip had a seat left, the counter is one lower
    and the confirmed row is in the ledger under a new id; when it raises,
    the ledger and Redis are exactly what they were and the exception is
    never the raw IntegrityError; when a row for (trip, seat) is already
    there while seats are left, it raises 409 "Seat already booked" with
    the decrement undone (only the sequence of booking ids has moved);
    and when the user or the seat is an integer that the driver does not
    send, it raises DBAPIError, again with the decrement undone. *)
Theorem confirm_decrement_and_insert_atomic (req : ConfirmBookingRequest) (w : World) :
  (∀ w' resp, exec (confirm_commit req) w = (w', Ok resp) →
     ∃ t bid,
       resp = BookingResponse bid (cf_trip_id req) (Some (cf_seat_id req)) "confirmed"
       ∧ trips (ledger w) !! cf_trip_id req = Some t
       ∧ 0 < seats_available t
       ∧ trips (ledger w') !! cf_trip_id req = Some (mkTrip (seats_available t - 1))
       ∧ bookings (ledger w) !! bid = None
       ∧ bookings (ledger w') !! bid = Some (confirmed_row req))
  ∧ (∀ w' e, exec (confirm_commit req) w = (w', Raise e) →
       ledger w' = ledger w ∧ redis w' = redis w ∧ e ≠ Err IntegrityError)
  ∧ (∀ t i b',
       ledger_up w = true →
       trips (ledger w) !! cf_trip_id req = Some t → 0 < seats_available t →
       bookings (ledger w) !! i = Some b' →
       trip_id b' = cf_trip_id req → seat_id b' = Some (cf_seat_id req) →
       booking_sent (confirmed_row req) (ledger w) = true →
       exec (confirm_commit req) w
       = (set_bookings_id_seq (nextval (bookings_id_seq w) (bookings (ledger w))) w,
          Raise (HTTPException HTTP_409_CONFLICT (Text "Seat already booked"))))
  ∧ (∀ t,
       ledger_up w = true →
       trips (ledger w) !! cf_trip_id req = Some t → 0 < seats_available t →
       booking_sent (confirmed_row req) (ledger w) = false →
       exec (confirm_commit req) w = (w, Raise (Err DBAPIError))).
Proof.
  split_and!.
  - intros w' resp Hex.
    destruct (exec_confirm_commit_cases req w)
      as [(t & Hup & Ht & Hpos & Hfk & Huq & Heq)|(w1 & e & Heq & _)];
      rewrite Heq in Hex; [|done].
    injection Hex as <- <-.
    exists t, (nextval (bookings_id_seq w) (bookings (ledger w))).
    split_and!; try done; simpl.
    + by rewrite lookup_insert_eq.
    + apply nextval_fresh.
    + by rewrite lookup_insert_eq.
  - intros w' e Hex.
    destruct (exec_confirm_commit_cases req w)
      as [(t & Hup & Ht & Hpos & Hfk & Huq & Heq)|(w1 & e' & Heq & Hne & Hw1)];
      rewrite Heq in Hex; [done|].
    injection Hex as <- <-. by destruct Hw1 as [-> | ->].
  - intros t i b' Hup Ht Hpos Hi Htrip Hseat Hsent.
    rewrite exec_confirm_commit, confirm_transaction_eq, Hup, Ht.
    apply Z.ltb_lt in Hpos. rewrite Hpos. cbn zeta. rewrite Hsent. cbn [negb].
    rewrite (uq_trip_seat_ok_clash req _ i b') by done.
    by rewrite andb_false_r.
  - intros t Hup Ht Hpos Hsent.
    rewrite exec_confirm_commit, confirm_transaction_eq, Hup, Ht.
    apply Z.ltb_lt in Hpos. by rewrite Hpos, Hsent.
Qed.

(** ** The service as a whole *)

Section Service.

Variable hmac_sha256_hexdigest : string → string → string.
Variable json_loads : string → option Body.
Variables FLUTTERWAVE_SECRET MTN_SECRET AIRTEL_SECRET : string.

Local Abbreviation handle :=
  (handle hmac_sha256_hexdigest json_loads FLUTTERWAVE_SECRET MTN_SECRET AIRTEL_SECRET).
Local Abbreviation payment_webhook :=
  (payment_webhook hmac_sha256_hexdigest json_loads FLUTTERWAVE_SECRET MTN_SECRET AIRTEL_SECRET).

Lemma safe_handle P `{!LedgerInv P} r : safe P (handle r).
Proof.
  destruct r; simpl.
  - apply safe_create_lock.
  - apply safe_confirm_booking.
  - apply safe_release_lock_endpoint.
  - apply safe_initiate_payment.
  - apply safe_payment_webhook.
Qed.

(** Whatever requests are served, in whatever interleaving, with time
    passing and stores failing, an invariant of the statements is an
    invariant of the service. *)
Lemma run_invariant P `{!LedgerInv P} reqs evs w :
  P (ledger w) → P (ledger (run evs (w, handle <$> reqs)).1).
Proof.
  intros HP. apply (safe_run P evs (w, handle <$> reqs)); [done|].
  simpl. apply Forall_fmap, Forall_forall. intros r _. by apply safe_handle.
Qed.

(** C7. [seats_available] never goes negative: it stays non-negative in
    every execution of the service; a confirm transaction that commits
    found the counter positive and lowered it by one; and while the
    trip has no seat left, or is an id of the range of the column that no
    trip has, the transaction leaves the world as it was and the handler
    answers 409 "No seats available". *)
Theorem seats_available_never_negative :
  (∀ reqs evs w,
     seats_nonneg (ledger w) → seats_nonneg (ledger (run evs (w, handle <$> reqs)).1))
  ∧ (∀ req w w' bid,
       confirm_transaction req w = (w', Ok bid) →
       ∃ t, trips (ledger w) !! cf_trip_id req = Some t
            ∧ 0 < seats_available t
            ∧ trips (ledger w') !! cf_trip_id req = Some (mkTrip (seats_available t - 1)))
  ∧ (∀ req w,
       ledger_up w = true →
       match trips (ledger w) !! cf_trip_id req with
       | Some t => seats_available t ≤ 0
       | None => int4 (cf_trip_id req) = true
       end →
       confirm_transaction req w
       = (w, Raise (HTTPException HTTP_409_CONFLICT (Text "No seats available")))
       ∧ exec (confirm_commit req) w
         = (w, Raise (HTTPException HTTP_409_CONFLICT (Text "No seats available")))).
Proof.
  split_and!.
  - intros reqs evs w. apply run_invariant. apply _.
  - intros req w w' bid. rewrite confirm_transaction_eq.
    destruct (ledger_up w); [|done].
    destruct (trips (ledger w) !! cf_trip_id req) as [t|]; [|by destruct (int4 _)].
    destruct (0 <? seats_available t) eqn:Hpos; [|done]. cbn zeta.
    destruct (negb _); [done|].
    destruct (_ && _); [|done]. intros [= <- <-].
    exists t. split_and!; [done|lia|]. simpl. by rewrite lookup_insert_eq.
  - intros req w Hup Hnone.
    assert (confirm_transaction req w
            = (w, Raise (HTTPException HTTP_409_CONFLICT (Text "No seats available")))) as Heq.
    { rewrite confirm_transaction_eq, Hup.
      destruct (trips (ledger w) !! cf_trip_id req) as [t|]; [|by rewrite Hnone].
      destruct (0 <? seats_available t) eqn:Hpos; [lia|done]. }
    split; [done|]. by rewrite exec_confirm_commit, Heq.
Qed.

End Service.

(** ** Races *)

Lemma run_cons ev evs c : run (ev :: evs) c = run evs (fire c ev).
Proof. done. Qed.

Lemma run_induction (I : list event → World * list proc → Prop) :
  (∀ ev evs c, I (ev :: evs) c → I evs (fire c ev)) →
  ∀ evs c, I evs c → I [] (run evs c).
Proof.
  intros Hstep evs. induction evs as [|ev evs IH]; intros c HI; [done|].
  rewrite run_cons. by apply IH, Hstep.
Qed.

Lemma elapsed_nonneg evs : 0 ≤ elapsed evs.
Proof. induction evs as [|[] evs IH]; simpl; lia. Qed.

Lemma redis_lookup_tick w dt key :
  redis_lookup w key = None →
  redis_lookup (set_now (now w + Z.of_N dt) w) key = None.
Proof.
  unfold redis_lookup, live; simpl.
  destruct (redis w !! key) as [[v [x|]]|]; simpl; try done.
  repeat case_bool_decide; try done. lia.
Qed.

Lemma redis_lookup_live w key v x :
  redis w !! key = Some (Entry v (Some x)) → now w < x → redis_lookup w key = Some v.
Proof.
  intros Hk Hlt. unfold redis_lookup, live. rewrite Hk; simpl.
  by rewrite bool_decide_eq_true_2.
Qed.

(** *** Acquiring the lease of one seat *)

Lemma step_lock_proc trip seat c w :
  redis_up w = true → 0 < c.2 →
  step (lock_proc trip seat c) w =
    match redis_lookup w (LOCK_KEY_TPL trip (Some seat)) with
    | Some _ => (w, locked_out)
    | None =>
        (set_redis (<[LOCK_KEY_TPL trip (Some seat) := Entry c.1 (Some (now w + c.2))]> (redis w)) w,
         Done (lock_answer c (now w)))
    end.
Proof.
  intros Hup Hpos.
  unfold lock_proc, create_lock, lock_seat, step, bind, redis_set_nx, connected, lock_answer.
  simpl. rewrite Hup.
  destruct (c.2 <=? 0) eqn:Hle; [lia|].
  destruct (redis_lookup w _); [done|]. simpl.
  by destruct (_ <=? DATETIME_MAX).
Qed.

Section lock_race.

Variables trip seat : Z.
Variable callers : list (string * Z).
Variable t0 : Z.
Hypothesis ttl_pos : Forall (λ c, 0 < c.2) callers.

Local Abbreviation key := (LOCK_KEY_TPL trip (Some seat)).

Lemma lock_race_inv_fire ev evs c :
  lock_race_inv trip seat callers t0 (ev :: evs) c →
  lock_race_inv trip seat callers t0 evs (fire c ev).
Proof.
  destruct c as [w ps]. intros (Hup & Hq & Ht0 & Hlen & Hphase). simpl in *.
  apply Forall_cons in Hq as [Hqev Hq].
  pose proof (elapsed_nonneg evs) as Hel.
  destruct ev as [j|dt| | | |]; simpl in Hqev; try done.
  - (* Run j *)
    unfold lock_race_inv. simpl.
    destruct (ps !! j) as [p|] eqn:Hp; [|by split_and!].
    assert (∃ cj, callers !! j = Some cj) as [cj Hcj].
    { apply lookup_lt_is_Some. rewrite <- Hlen. by eapply lookup_lt_Some. }
    assert (0 < cj.2) by (eapply (Forall_lookup_1 _ _ _ _ ttl_pos); eauto).
    destruct Hphase as [(Hnone & Hps & Hrem)|(i & cl & τ & x & Hi & Hx & Hlt & Hτ & Hpi & Hothers)].
    + (* the first caller to reach Redis takes the lease *)
      subst ps. rewrite list_lookup_fmap, Hcj in Hp. injection Hp as <-.
      rewrite step_lock_proc, Hnone by done. simpl.
      split_and!; try done; [by rewrite length_insert|].
      right. exists j, cj, (now w), (now w + cj.2).
      pose proof (Forall_lookup_1 _ _ _ _ Hrem Hcj) as [Hlt Hmax]. simpl in Hlt, Hmax.
      split_and!; try done; try lia.
      * by rewrite lookup_insert_eq.
      * unfold lock_answer. rewrite (proj2 (Z.leb_le _ _)) by lia.
        apply list_lookup_insert_eq. rewrite length_fmap. by eapply lookup_lt_Some.
      * intros k ck Hne Hck. left.
        rewrite list_lookup_insert_ne by done. by rewrite list_lookup_fmap, Hck.
    + (* the lease is held *)
      assert (redis_lookup w key = Some cl.1) as Hlive
        by (eapply redis_lookup_live; [done|lia]).
      destruct (decide (j = i)) as [->|Hne].
      * rewrite Hpi in Hp. injection Hp as <-. simpl.
        split_and!; try done; [by rewrite length_insert|].
        right. exists i, cl, τ, x.
        split_and!; try done; try lia.
        -- apply list_lookup_insert_eq. by eapply lookup_lt_Some.
        -- intros k ck Hk Hck. rewrite list_lookup_insert_ne by done. by apply Hothers.
      * assert (step p w = (w, locked_out)) as ->.
        { destruct (Hothers j cj Hne Hcj) as [Hj|Hj]; rewrite Hj in Hp; injection Hp as <-.
          - by rewrite step_lock_proc, Hlive.
          - done. }
        simpl. split_and!; try done; [by rewrite length_insert|].
        right. exists i, cl, τ, x.
        split_and!; try done; try lia.
        -- by rewrite list_lookup_insert_ne.
        -- intros k ck Hk Hck. destruct (decide (k = j)) as [->|Hkj].
           ++ right. apply list_lookup_insert_eq. by eapply lookup_lt_Some.
           ++ rewrite list_lookup_insert_ne by done. by apply Hothers.
  - (* Tick dt *)
    unfold lock_race_inv. simpl in *. split_and!; try done; [lia|].
    destruct Hphase as [(Hnone & Hps & Hrem)|(i & cl & τ & x & Hi & Hx & Hlt & Hτ & Hpi & Hothers)].
    + left. split_and!; try done; try lia.
      * by apply redis_lookup_tick.
      * eapply Forall_impl; [exact Hrem|]. simpl. intros; lia.
    + right. exists i, cl, τ, x. split_and!; try done; lia.
Qed.

End lock_race.

(** From a state without a live lease, whatever the schedule. *)
Lemma lock_race_inv_run trip seat callers evs w :
  Forall (λ c, 0 < c.2 ∧ elapsed evs < c.2
               ∧ now w + elapsed evs + c.2 ≤ DATETIME_MAX) callers →
  Forall quiet evs →
  redis_up w = true →
  redis_lookup w (LOCK_KEY_TPL trip (Some seat)) = None →
  lock_race_inv trip seat callers (now w) [] (run evs (w, lock_proc trip seat <$> callers)).
Proof.
  intros Httl Hq Hup Hfree.
  assert (Forall (λ c, 0 < c.2) callers) as Hpos
    by (eapply Forall_impl; [exact Httl|]; simpl; tauto).
  apply (run_induction (lock_race_inv trip seat callers (now w))).
  - intros ev evs' c. by apply lock_race_inv_fire.
  - unfold lock_race_inv; simpl. split_and!; try done; [by rewrite length_fmap|].
    left. split_and!; try done.
    eapply Forall_impl; [exact Httl|]; simpl; tauto.
Qed.

Lemma exec_create_lock_held trip seat uuid t tok w :
  redis_up w = true → 0 < t →
  redis_lookup w (LOCK_KEY_TPL trip (Some seat)) = Some tok →
  exec (create_lock uuid (mkLockReq trip seat (Some t))) w
  = (w, Raise (HTTPException HTTP_409_CONFLICT (Text "Seat already locked"))).
Proof.
  intros Hup Hpos Hheld.
  pose proof (step_lock_proc trip seat (uuid, t) w Hup Hpos) as Hstep.
  rewrite Hheld in Hstep. unfold lock_proc, create_lock, step in Hstep. simpl in Hstep.
  unfold create_lock. simpl.
  destruct (lock_seat uuid trip seat (Some t) w) as [w1 r].
  apply pair_equal_spec in Hstep as [-> Hr].
  unfold locked_out in Hr. destruct r as [[l|]|e]; simpl in *; congruence.
Qed.

Lemma exec_step p w : exec p w = exec (step p w).2 (step p w).1.
Proof. destruct p as [r|X op k]; simpl; [done|]. by destruct (op w). Qed.

(** A free seat is locked; the caller is answered the lease when its
    expiry is a date, and OverflowError, with the key set all the same,
    when it is not. *)
Lemma exec_create_lock_free trip seat uuid t w :
  redis_up w = true → 0 < t →
  redis_lookup w (LOCK_KEY_TPL trip (Some seat)) = None →
  exec (create_lock uuid (mkLockReq trip seat (Some t))) w
  = (set_redis (<[LOCK_KEY_TPL trip (Some seat) := Entry uuid (Some (now w + t))]> (redis w)) w,
     lock_answer (uuid, t) (now w)).
Proof.
  intros Hup Hpos Hfree.
  change (create_lock uuid (mkLockReq trip seat (Some t))) with (lock_proc trip seat (uuid, t)).
  by rewrite exec_step, step_lock_proc, Hfree.
Qed.

(** C9. Lease acquisition is mutually exclusive.  Any number of [acquire]
    calls (create_lock) for one (trip, seat) race from a state without a
    live lease, with Redis reachable and with positive ttls that outlast
    the race and whose expiry is a date ([datetime.max] at most).  At
    every instant of the race at most one caller has been answered a
    lease, and that caller's token is the live value of the key.  Once
    all have answered, exactly one has the lease, its own fresh token
    with the expiry [grant time + ttl], and every other caller has 409
    "Seat already locked".  A call that meets a live lease answers that
    conflict and changes nothing.  A ttl whose expiry is past
    [datetime.max] takes the key of a free seat and is answered
    OverflowError, so that nobody is given that lease. *)
Theorem lease_acquisition_mutually_exclusive
    (trip seat : Z) (callers : list (string * Z)) (evs : list event) (w : World) :
  callers ≠ [] →
  Forall (λ c, 0 < c.2 ∧ elapsed evs < c.2
               ∧ now w + elapsed evs + c.2 ≤ DATETIME_MAX) callers →
  Forall quiet evs →
  redis_up w = true →
  redis_lookup w (LOCK_KEY_TPL trip (Some seat)) = None →
  let c := run evs (w, lock_proc trip seat <$> callers) in
  (∀ i j tok tok' x x',
     c.2 !! i = Some (Done (Ok (LockSeatResponse tok x))) →
     c.2 !! j = Some (Done (Ok (LockSeatResponse tok' x'))) →
     i = j ∧ redis_lookup c.1 (LOCK_KEY_TPL trip (Some seat)) = Some tok)
  ∧ (finished c.2 →
     ∃ i cl τ,
       callers !! i = Some cl
       ∧ now w ≤ τ ≤ now c.1
       ∧ c.2 !! i = Some (Done (Ok (LockSeatResponse cl.1 (τ + cl.2))))
       ∧ (∀ j, j ≠ i → (j < length callers)%nat → c.2 !! j = Some locked_out)
       ∧ redis_lookup c.1 (LOCK_KEY_TPL trip (Some seat)) = Some cl.1)
  ∧ (∀ w1 uuid t tok,
       redis_up w1 = true → 0 < t →
       redis_lookup w1 (LOCK_KEY_TPL trip (Some seat)) = Some tok →
       exec (create_lock uuid (mkLockReq trip seat (Some t))) w1
       = (w1, Raise (HTTPException HTTP_409_CONFLICT (Text "Seat already locked"))))
  ∧ (∀ w1 uuid t,
       redis_up w1 = true → 0 < t → DATETIME_MAX < now w1 + t →
       redis_lookup w1 (LOCK_KEY_TPL trip (Some seat)) = None →
       (exec (create_lock uuid (mkLockReq trip seat (Some t))) w1).2
       = Raise (Err OverflowError)
       ∧ redis_lookup (exec (create_lock uuid (mkLockReq trip seat (Some t))) w1).1
           (LOCK_KEY_TPL trip (Some seat)) = Some uuid).
Proof.
  intros Hne Httl Hq Hup Hfree c.
  assert (lock_race_inv trip seat callers (now w) [] c) as Hinv
    by by apply lock_race_inv_run.
  split_and!.
  - destruct c as [w' ps'].
    destruct Hinv as (Hup' & _ & Ht0 & Hlen & Hphase). simpl in *.
    intros i j tok tok' x x' Hi Hj.
    destruct Hphase as [(_ & Hps & _)|(k & cl & τ & y & Hk & Hy & Hlt & Hτ & Hpk & Hothers)].
    + exfalso. subst ps'. rewrite list_lookup_fmap in Hi.
      destruct (callers !! i); simpl in Hi; done.
    + assert (∀ n tk z, ps' !! n = Some (Done (Ok (LockSeatResponse tk z))) →
                n = k ∧ tk = cl.1) as Hone.
      { intros n tk z Hn. destruct (decide (n = k)) as [->|Hnk].
        - rewrite Hpk in Hn. by injection Hn as <- _.
        - exfalso.
          assert (∃ cn, callers !! n = Some cn) as [cn Hcn].
          { apply lookup_lt_is_Some. rewrite <- Hlen. by eapply lookup_lt_Some. }
          destruct (Hothers n cn Hnk Hcn) as [Hw|Hw]; rewrite Hw in Hn; done. }
      destruct (Hone _ _ _ Hi) as [-> ->]. destruct (Hone _ _ _ Hj) as [-> _].
      split; [done|]. eapply redis_lookup_live; [done|]. simpl in Hlt. lia.
  - destruct c as [w' ps'].
    destruct Hinv as (Hup' & _ & Ht0 & Hlen & Hphase). simpl in *.
    intros Hfin.
    destruct Hphase as [(_ & Hps & _)|(i & cl & τ & x & Hi & Hx & Hlt & Hτ & Hpi & Hothers)].
    + (* nobody served: then nobody has answered *)
      exfalso. destruct callers as [|c cs]; [done|]. subst ps'.
      apply Forall_cons in Hfin as [[r Hr] _]. done.
    + exists i, cl, τ. split_and!; try done; try lia.
      * intros j Hji Hj.
        destruct (lookup_lt_is_Some_2 callers j Hj) as [cj Hcj].
        destruct (Hothers j cj Hji Hcj) as [Hwait|Hout]; [|done].
        exfalso. pose proof (Forall_lookup_1 _ _ _ _ Hfin Hwait) as [r Hr]. done.
      * eapply redis_lookup_live; [done|]. simpl in Hlt. lia.
  - intros; by eapply exec_create_lock_held.
  - intros w1 uuid t Hup1 Hpos1 Hover Hfree1.
    rewrite exec_create_lock_free by done. unfold lock_answer. cbn [fst snd].
    rewrite (proj2 (Z.leb_gt _ _)) by lia. split; [done|].
    eapply redis_lookup_live; simpl; [by rewrite lookup_insert_eq|lia].
Qed.

Lemma lease_acquisition_witness :
  let c := run demo_schedule (demo_world, lock_proc 1 3 <$> demo_callers) in
  finished c.2
  ∧ ∃ i cl τ,
      demo_callers !! i = Some cl
      ∧ now demo_world ≤ τ ≤ now c.1
      ∧ c.2 !! i = Some (Done (Ok (LockSeatResponse cl.1 (τ + cl.2))))
      ∧ (∀ j, j ≠ i → (j < length demo_callers)%nat → c.2 !! j = Some locked_out)
      ∧ redis_lookup c.1 (LOCK_KEY_TPL 1 (Some 3)) = Some cl.1.
Proof.
  assert (finished (run demo_schedule (demo_world, lock_proc 1 3 <$> demo_callers)).2) as Hfin
    by (vm_compute; repeat constructor; by eexists).
  split; [exact Hfin|].
  apply (lease_acquisition_mutually_exclusive 1 3 demo_callers demo_schedule demo_world);
    [done|repeat constructor; vm_compute; done|repeat constructor|reflexivity|reflexivity|].
  exact Hfin.
Defined.

(** *** Confirming one seat *)

Lemma step_confirm_booking req w :
  step (confirm_booking req) w =
    if redis_up w
       && bool_decide (redis_lookup w (LOCK_KEY_TPL (cf_trip_id req) (Some (cf_seat_id req)))
                       = Some (cf_token req))
    then (set_redis (delete (LOCK_KEY_TPL (cf_trip_id req) (Some (cf_seat_id req))) (redis w)) w,
          confirm_commit req)
    else (w, expired_out).
Proof.
  unfold confirm_booking, step. rewrite validate_and_consume_lock_eq.
  by destruct (_ && _).
Qed.

Lemma step_confirm_commit req w :
  step (confirm_commit req) w =
    match confirm_transaction req w with
    | (w', Ok bid) => (w', confirm_respond bid)
    | (w', Raise (Err IntegrityError)) =>
        (w', Done (Raise (HTTPException HTTP_409_CONFLICT (Text "Seat already booked"))))
    | (w', Raise e) => (w', Done (Raise e))
    end.
Proof.
  unfold confirm_commit, step.
  destruct (confirm_transaction req w) as [w' [bid|[[]|]]]; done.
Qed.

Lemma confirm_transaction_commits req t w :
  ledger_up w = true →
  trips (ledger w) !! cf_trip_id req = Some t → 0 < seats_available t →
  fk_nullable (cf_user_id req) (users (ledger w)) = true →
  cf_seat_id req ∈ seats (ledger w) →
  (∀ i b, bookings (ledger w) !! i = Some b →
          ¬ (trip_id b = cf_trip_id req ∧ seat_id b = Some (cf_seat_id req))) →
  confirm_transaction req w
  = (set_ledger
       (committed (nextval (bookings_id_seq w) (bookings (ledger w))) req t (ledger w))
       (set_bookings_id_seq (nextval (bookings_id_seq w) (bookings (ledger w))) w),
     Ok (nextval (bookings_id_seq w) (bookings (ledger w)))).
Proof.
  intros Hup Ht Hpos Huser Hseat Hfree.
  rewrite confirm_transaction_eq, Hup, Ht.
  apply Z.ltb_lt in Hpos. rewrite Hpos. cbn zeta.
  assert (booking_fks_ok (confirmed_row req) (decremented (cf_trip_id req) t (ledger w)) = true)
    as Hfk.
  { unfold booking_fks_ok; simpl. rewrite Huser, lookup_insert_eq. simpl.
    by apply bool_decide_eq_true_2. }
  rewrite <- (booking_sent_decremented _ (cf_trip_id req) t) by done.
  rewrite (booking_fks_ok_sent _ _ Hfk), Hfk. cbn [negb andb].
  assert (uq_trip_seat_ok (confirmed_row req) (bookings (ledger w)) = true) as ->.
  { apply bool_decide_eq_true_2. intros i b Hb (Htr & Hs & _). by apply (Hfree i b Hb). }
  done.
Qed.

Lemma redis_lookup_absent w key : redis w !! key = None → redis_lookup w key = None.
Proof. intros H. unfold redis_lookup. by rewrite H. Qed.

Lemma step_confirm_respond bid req t d w :
  ledger_up w = true → ledger w = committed bid req t d →
  step (confirm_respond bid) w = (w, winner_proc req bid Answered).
Proof.
  intros Hup Hd. unfold confirm_respond, step, refresh_booking.
  rewrite Hup, Hd. simpl. by rewrite lookup_insert_eq.
Qed.

Section confirm_race.

Variables trip seat : Z.
Variable tok : string.
Variable callers : list (string * option Z).
Variable d0 : DB.
Variable seq0 : Z.
Variable t : Trip.
Variable x : Z.
Hypothesis Htrip : trips d0 !! trip = Some t.
Hypothesis Hpos : 0 < seats_available t.
Hypothesis Hseat : seat ∈ seats d0.
Hypothesis Husers : Forall (λ c, fk_nullable c.2 (users d0) = true) callers.
Hypothesis Hfree :
  ∀ i b, bookings d0 !! i = Some b → ¬ (trip_id b = trip ∧ seat_id b = Some seat).

Local Abbreviation key := (LOCK_KEY_TPL trip (Some seat)).
Local Abbreviation bid := (nextval seq0 (bookings d0)).

Lemma set_ledger_seq_id w :
  set_ledger (ledger w) (set_bookings_id_seq (bookings_id_seq w) w) = w.
Proof. by destruct w. Qed.

Lemma step_winner ci s w :
  In ci callers →
  ledger_up w = true →
  ledger w = winner_ledger bid (confirm_req trip seat ci) t d0 s →
  bookings_id_seq w = winner_seq bid seq0 s →
  ∃ s', step (winner_proc (confirm_req trip seat ci) bid s) w
        = (set_ledger (winner_ledger bid (confirm_req trip seat ci) t d0 s')
             (set_bookings_id_seq (winner_seq bid seq0 s') w),
           winner_proc (confirm_req trip seat ci) bid s').
Proof.
  intros Hin Hup Hd Hseq. destruct s; simpl in Hd, Hseq.
  - exists Responding. cbn [winner_proc]. rewrite step_confirm_commit.
    rewrite (confirm_transaction_commits _ t); rewrite ?Hd, ?Hseq; try done.
    apply list_elem_of_In in Hin.
    by apply (proj1 (Forall_forall _ _) Husers ci).
  - exists Answered. cbn [winner_proc winner_ledger winner_seq].
    rewrite (step_confirm_respond bid (confirm_req trip seat ci) t d0) by done.
    by rewrite <- Hd, <- Hseq, set_ledger_seq_id.
  - exists Answered. cbn [winner_proc winner_ledger winner_seq step].
    by rewrite <- Hd, <- Hseq, set_ledger_seq_id.
Qed.

Lemma confirm_race_inv_fire ev evs c :
  confirm_race_inv trip seat tok callers d0 seq0 t x (ev :: evs) c →
  confirm_race_inv trip seat tok callers d0 seq0 t x evs (fire c ev).
Proof.
  destruct c as [w ps]. intros (Hup & Hlup & Hq & Hlen & Hphase). simpl in *.
  apply Forall_cons in Hq as [Hqev Hq].
  pose proof (elapsed_nonneg evs) as Hel.
  destruct ev as [j|dt| | | |]; simpl in Hqev; try done.
  - (* Run j *)
    unfold confirm_race_inv. simpl.
    destruct (ps !! j) as [p|] eqn:Hp; [|by split_and!].
    assert (∃ cj, callers !! j = Some cj) as [cj Hcj].
    { apply lookup_lt_is_Some. rewrite <- Hlen. by eapply lookup_lt_Some. }
    assert (j < length ps)%nat as Hj by (by eapply lookup_lt_Some).
    destruct Hphase as [(Hx & Hlt & Hd & Hseq & Hall)
                       |(i & ci & s & Hi & Htok & Hx & Hd & Hseq & Hpi & Hothers)].
    + (* the lease is there *)
      assert (redis_lookup w key = Some tok) as Hlive
        by (eapply redis_lookup_live; [done|lia]).
      destruct (Hall j cj Hcj) as [Hwait|[Hne Hout]].
      * rewrite Hwait in Hp. injection Hp as <-.
        unfold confirm_proc. rewrite step_confirm_booking. simpl. rewrite Hup, Hlive. simpl.
        case_bool_decide as Hcmp; simpl.
        -- (* this caller consumes it *)
           split_and!; try done; [by rewrite length_insert|].
           right. exists j, cj, Committing. split_and!; try done.
           ++ congruence.
           ++ by rewrite lookup_delete_eq.
           ++ by apply list_lookup_insert_eq.
           ++ intros k ck Hk Hck. rewrite list_lookup_insert_ne by done.
              destruct (Hall k ck Hck) as [?|[_ ?]]; auto.
        -- split_and!; try done; [by rewrite length_insert|].
           left. split_and!; try done.
           intros k ck Hck. destruct (decide (k = j)) as [->|Hk].
           ++ right. rewrite Hcj in Hck. injection Hck as <-.
              split; [congruence|by apply list_lookup_insert_eq].
           ++ rewrite list_lookup_insert_ne by done. by apply Hall.
      * rewrite Hout in Hp. injection Hp as <-. simpl.
        split_and!; try done; [by rewrite length_insert|].
        left. split_and!; try done.
        intros k ck Hck. destruct (decide (k = j)) as [->|Hk].
        -- right. rewrite Hcj in Hck. injection Hck as <-.
           split; [done|by apply list_lookup_insert_eq].
        -- rewrite list_lookup_insert_ne by done. by apply Hall.
    + (* the lease is consumed *)
      destruct (decide (j = i)) as [->|Hne].
      * rewrite Hpi in Hp. injection Hp as <-.
        destruct (step_winner ci s w) as [s' ->]; try done.
        { apply list_elem_of_In. by eapply list_elem_of_lookup_2. }
        simpl. split_and!; try done; [by rewrite length_insert|].
        right. exists i, ci, s'. split_and!; try done.
        -- by apply list_lookup_insert_eq.
        -- intros k ck Hk Hck. rewrite list_lookup_insert_ne by done. by apply Hothers.
      * assert (step p w = (w, expired_out)) as ->.
        { destruct (Hothers j cj Hne Hcj) as [Hw|Hw]; rewrite Hw in Hp; injection Hp as <-.
          - unfold confirm_proc. rewrite step_confirm_booking. simpl.
            by rewrite (redis_lookup_absent w key Hx), Hup.
          - done. }
        simpl. split_and!; try done; [by rewrite length_insert|].
        right. exists i, ci, s. split_and!; try done.
        -- by rewrite list_lookup_insert_ne.
        -- intros k ck Hk Hck. destruct (decide (k = j)) as [->|Hkj].
           ++ right. by apply list_lookup_insert_eq.
           ++ rewrite list_lookup_insert_ne by done. by apply Hothers.
  - (* Tick dt *)
    unfold confirm_race_inv. simpl in *. split_and!; try done.
    destruct Hphase as [(Hx & Hlt & Hd & Hseq & Hall)
                       |(i & ci & s & Hi & Htok & Hx & Hd & Hseq & Hpi & Hothers)].
    + left. split_and!; try done; lia.
    + right. exists i, ci, s. by split_and!.
Qed.

End confirm_race.

(** C1. At most one booking per (trip, seat), and one winner per race.
    When any number of [confirm] calls for one (trip, seat) race, at
    least one of them presenting the token of the live lease, from a
    state where the trip has a seat left and no booking row for the seat
    exists, with both stores reachable and the lease outlasting the race,
    then once all have answered exactly one caller, one with the lease
    token, has a booking with status confirmed and every other caller has
    409 "Invalid or expired lock token"; the ledger then holds that one
    row for the seat and one seat less.  In every execution of the
    service the uniqueness of (trip, seat) among booking rows is kept, so
    two rows with status confirmed or paid never share a seat. *)
Theorem at_most_one_confirmed_booking_per_seat
    (hmac_sha256_hexdigest : string → string → string)
    (json_loads : string → option Body)
    (FLUTTERWAVE_SECRET MTN_SECRET AIRTEL_SECRET : string)
    (trip seat : Z) (tok : string) (callers : list (string * option Z))
    (evs : list event) (w : World) (t : Trip) (x : Z) :
  (∃ i c, callers !! i = Some c ∧ c.1 = tok) →
  Forall quiet evs →
  redis_up w = true → ledger_up w = true →
  redis w !! LOCK_KEY_TPL trip (Some seat) = Some (Entry tok (Some x)) →
  now w + elapsed evs < x →
  trips (ledger w) !! trip = Some t → 0 < seats_available t →
  seat ∈ seats (ledger w) →
  Forall (λ c, fk_nullable c.2 (users (ledger w)) = true) callers →
  (∀ i b, bookings (ledger w) !! i = Some b →
          ¬ (trip_id b = trip ∧ seat_id b = Some seat)) →
  finished (run evs (w, confirm_proc trip seat <$> callers)).2 →
  (∃ i ci bid,
     callers !! i = Some ci ∧ ci.1 = tok
     ∧ (run evs (w, confirm_proc trip seat <$> callers)).2 !! i
       = Some (Done (Ok (BookingResponse bid trip (Some seat) "confirmed")))
     ∧ (∀ j, j ≠ i → (j < length callers)%nat →
          (run evs (w, confirm_proc trip seat <$> callers)).2 !! j = Some expired_out)
     ∧ bookings (ledger (run evs (w, confirm_proc trip seat <$> callers)).1) !! bid
       = Some (mkBooking ci.2 trip (Some seat) "confirmed")
     ∧ trips (ledger (run evs (w, confirm_proc trip seat <$> callers)).1) !! trip
       = Some (mkTrip (seats_available t - 1))
     ∧ (∀ k b,
          bookings (ledger (run evs (w, confirm_proc trip seat <$> callers)).1) !! k = Some b →
          trip_id b = trip → seat_id b = Some seat → k = bid))
  ∧ (∀ reqs evs1 w1,
       uq_trip_seat (ledger w1) →
       uq_trip_seat
         (ledger (run evs1
            (w1, handle hmac_sha256_hexdigest json_loads
                   FLUTTERWAVE_SECRET MTN_SECRET AIRTEL_SECRET <$> reqs)).1))
  ∧ (∀ d i j bi bj,
       uq_trip_seat d →
       bookings d !! i = Some bi → bookings d !! j = Some bj →
       trip_id bi = trip_id bj → seat_id bi = seat_id bj → is_Some (seat_id bi) →
       status bi ∈ ["confirmed"; "paid"] → status bj ∈ ["confirmed"; "paid"] →
       i = j).
Proof.
  intros (i0 & c0 & Hi0 & Hc0) Hq Hup Hlup Hlease Hlt Htrip Hpos Hseat Husers Hfree Hfin.
  split_and!.
  2:{ intros reqs evs1 w1. apply run_invariant. apply _. }
  2:{ intros d i j bi bj Huq Hi Hj Ht Hs Hsome _ _. apply (Huq i j bi bj Hi Hj).
      unfold clashes. by split_and!. }
  assert (confirm_race_inv trip seat tok callers (ledger w) (bookings_id_seq w) t x []
            (run evs (w, confirm_proc trip seat <$> callers))) as Hinv.
  { apply (run_induction
             (confirm_race_inv trip seat tok callers (ledger w) (bookings_id_seq w) t x)).
    - intros ev evs' c. by apply confirm_race_inv_fire.
    - unfold confirm_race_inv; simpl. split_and!; try done; [by rewrite length_fmap|].
      left. split_and!; try done.
      intros j cj Hcj. left. by rewrite list_lookup_fmap, Hcj. }
  destruct (run evs (w, confirm_proc trip seat <$> callers)) as [w' ps'].
  destruct Hinv as (Hup' & Hlup' & _ & Hlen & Hphase). simpl in *.
  destruct Hphase as [(_ & _ & _ & _ & Hall)
                     |(i & ci & s & Hi & Htok & Hx & Hd & Hseq & Hpi & Hothers)].
  - (* the lease still there: the caller holding its token has not answered *)
    exfalso. destruct (Hall i0 c0 Hi0) as [Hwait|[Hne _]]; [|done].
    pose proof (Forall_lookup_1 _ _ _ _ Hfin Hwait) as [r Hr]. done.
  - destruct s.
    + exfalso. pose proof (Forall_lookup_1 _ _ _ _ Hfin Hpi) as [r Hr]. done.
    + exfalso. pose proof (Forall_lookup_1 _ _ _ _ Hfin Hpi) as [r Hr]. done.
    + exists i, ci, (nextval (bookings_id_seq w) (bookings (ledger w))). simpl in Hd, Hpi.
      split_and!; try done.
      * intros j Hji Hj.
        destruct (lookup_lt_is_Some_2 callers j Hj) as [cj Hcj].
        destruct (Hothers j cj Hji Hcj) as [Hwait|Hout]; [|done].
        exfalso. pose proof (Forall_lookup_1 _ _ _ _ Hfin Hwait) as [r Hr]. done.
      * rewrite Hd. simpl. by rewrite lookup_insert_eq.
      * rewrite Hd. simpl. by rewrite lookup_insert_eq.
      * intros k b. rewrite Hd. simpl.
        destruct (decide (k = nextval (bookings_id_seq w) (bookings (ledger w))))
          as [->|Hk]; [done|].
        rewrite lookup_insert_ne by done. intros Hb Ht Hs.
        by destruct (Hfree k b Hb).
Qed.

Lemma confirm_race_witness :
  ∃ i ci bid,
    demo_confirmers !! i = Some ci ∧ ci.1 = "tokA"
    ∧ (run demo_confirm_schedule (demo_locked, confirm_proc 1 3 <$> demo_confirmers)).2 !! i
      = Some (Done (Ok (BookingResponse bid 1 (Some 3) "confirmed")))
    ∧ (∀ j, j ≠ i → (j < length demo_confirmers)%nat →
         (run demo_confirm_schedule (demo_locked, confirm_proc 1 3 <$> demo_confirmers)).2 !! j
         = Some expired_out)
    ∧ bookings (ledger (run demo_confirm_schedule
                          (demo_locked, confirm_proc 1 3 <$> demo_confirmers)).1) !! bid
      = Some (mkBooking ci.2 1 (Some 3) "confirmed")
    ∧ trips (ledger (run demo_confirm_schedule
                       (demo_locked, confirm_proc 1 3 <$> demo_confirmers)).1) !! 1
      = Some (mkTrip (seats_available (mkTrip 1) - 1))
    ∧ (∀ k b,
         bookings (ledger (run demo_confirm_schedule
                             (demo_locked, confirm_proc 1 3 <$> demo_confirmers)).1) !! k
         = Some b →
         trip_id b = 1 → seat_id b = Some 3 → k = bid).
Proof.
  apply (at_most_one_confirmed_booking_per_seat (λ _ _, "") (λ _, None) "" "" ""
           1 3 "tokA" demo_confirmers demo_confirm_schedule demo_locked (mkTrip 1) 1060).
  - exists 0%nat, ("tokA", Some 7). done.
  - repeat constructor.
  - reflexivity.
  - reflexivity.
  - reflexivity.
  - vm_compute. reflexivity.
  - reflexivity.
  - simpl. lia.
  - simpl. set_solver.
  - repeat constructor.
  - simpl. intros i b Hb. by rewrite lookup_empty in Hb.
  - vm_compute. repeat constructor; by eexists.
Defined.

(** ** Webhook deliveries *)

Lemma payment_webhook_accepted hm jl s1 s2 s3 provider request eid st ref :
  accepted hm jl s1 s2 s3 provider request eid st ref →
  payment_webhook hm jl s1 s2 s3 provider request = webhook_check provider eid st ref.
Proof.
  intros (ad & ev & Had & Hsig & Hev & Htr & Hstr & Hnorm).
  unfold payment_webhook, webhook_dedup, webhook_check, webhook_marking, webhook_mark.
  rewrite Had, Hsig, Hev, Htr, Hstr, Hnorm. done.
Qed.

Lemma lock_key_ne_idempotency_key tid sid provider eid :
  LOCK_KEY_TPL tid sid ≠ IDEMPOTENCY_KEY_TPL provider eid.
Proof.
  unfold LOCK_KEY_TPL, IDEMPOTENCY_KEY_TPL. intros H.
  cbn [String.append] in H. discriminate H.
Qed.

Lemma step_webhook_check provider eid st ref w :
  step (webhook_check provider eid st ref) w =
    if redis_up w then
      match redis_lookup w (IDEMPOTENCY_KEY_TPL provider eid) with
      | Some _ => (w, ack)
      | None => (w, webhook_marking provider eid st ref)
      end
    else (w, Done (Raise (Err ConnectionError))).
Proof.
  unfold webhook_check, step, is_event_processed, redis_exists, connected.
  destruct (redis_up w); [|done]. by destruct (redis_lookup w _).
Qed.

Lemma step_webhook_marking provider eid st ref w :
  step (webhook_marking provider eid st ref) w =
    if redis_up w then
      match redis_lookup w (IDEMPOTENCY_KEY_TPL provider eid) with
      | Some _ => (w, ack)
      | None =>
          (set_redis (<[IDEMPOTENCY_KEY_TPL provider eid := Entry "1" (Some (now w + 86400))]>
                        (redis w)) w,
           webhook_apply provider st ref)
      end
    else (w, Done (Raise (Err ConnectionError))).
Proof.
  unfold webhook_marking, step, mark_event_processed, redis_set_nx, connected.
  destruct (redis_up w); [|done]. simpl. by destruct (redis_lookup w _).
Qed.

Lemma step_webhook_apply provider st ref w :
  step (webhook_apply provider st ref) w =
    ((webhook_transaction provider st ref w).1,
     Done (webhook_answer (webhook_transaction provider st ref w).2)).
Proof.
  unfold webhook_apply, step.
  by destruct (webhook_transaction provider st ref w) as [w' [[]|e]].
Qed.

Ltac unfold_webhook_transaction :=
  unfold webhook_transaction, webhook_body, db_begin, select_payment_by_ref, lcstatus_of,
    flush_payment_status, set_payment_status, locate_booking, select_booking,
    set_booking_status, release_lock,
    redis_delete, connected, try_except, bind, ret, raise.


(** Apart from the ledger, the transaction can only remove a lease. *)
Lemma webhook_transaction_frame provider st ref w :
  redis_up (webhook_transaction provider st ref w).1 = redis_up w
  ∧ ledger_up (webhook_transaction provider st ref w).1 = ledger_up w
  ∧ now (webhook_transaction provider st ref w).1 = now w
  ∧ ∀ k, (∀ tid sid, k ≠ LOCK_KEY_TPL tid sid) →
         redis (webhook_transaction provider st ref w).1 !! k = redis w !! k.
Proof.
  destruct (webhook_transaction provider st ref w) as [w' res] eqn:H.
  revert H. unfold_webhook_transaction.
  destruct w as [r ru d du t sb sp]; simpl. intros H.
  repeat (case_match; simplify_eq/=); split_and!; try done;
    try (intros k Hk; by rewrite lookup_delete_ne).
Qed.

Lemma exec_webhook_apply provider st ref w :
  exec (webhook_apply provider st ref) w =
    ((webhook_transaction provider st ref w).1,
     webhook_answer (webhook_transaction provider st ref w).2).
Proof. by rewrite exec_step, step_webhook_apply. Qed.

(** A delivery run alone, in closed form. *)
Lemma exec_webhook_check provider eid st ref w :
  exec (webhook_check provider eid st ref) w =
    if redis_up w then
      match redis_lookup w (IDEMPOTENCY_KEY_TPL provider eid) with
      | Some _ => (w, Ok (WebhookAck true))
      | None => exec (webhook_apply provider st ref) (marked provider eid w)
      end
    else (w, Raise (Err ConnectionError)).
Proof.
  rewrite exec_step, step_webhook_check.
  destruct (redis_up w) eqn:Hup; [|done].
  destruct (redis_lookup w _) eqn:Hk; [done|]. cbn [fst snd].
  rewrite exec_step, step_webhook_marking, Hup, Hk. done.
Qed.

Section webhook_race.

Variables provider eid : string.
Variables st ref : option jval.
Variable d0 : DB.
Variable n : nat.

Local Abbreviation key := (IDEMPOTENCY_KEY_TPL provider eid).
Local Abbreviation checking := (webhook_check provider eid st ref).
Local Abbreviation marking := (webhook_marking provider eid st ref).
Local Abbreviation applying := (webhook_apply provider st ref).
Local Abbreviation txn := (webhook_transaction provider st ref).

Lemma webhook_race_inv_fire ev evs c :
  webhook_race_inv provider eid st ref d0 n (ev :: evs) c →
  webhook_race_inv provider eid st ref d0 n evs (fire c ev).
Proof.
  destruct c as [w ps]. intros (Hup & Hq & Hel & Hlen & Hphase). simpl in *.
  apply Forall_cons in Hq as [Hqev Hq].
  pose proof (elapsed_nonneg evs) as Hel0.
  destruct ev as [j|dt| | | |]; simpl in Hqev, Hel; try done.
  - (* Run j *)
    unfold webhook_race_inv. simpl.
    destruct (ps !! j) as [p|] eqn:Hp; [|by split_and!].
    assert (j < length ps)%nat as Hj by (by eapply lookup_lt_Some).
    destruct Hphase as [(Hnone & Hd & Hall)|(i & x & Hx & Hlt & Hi & Hothers)].
    + (* the marker is not set *)
      destruct (Hall j p Hp) as [->| ->].
      * rewrite step_webhook_check, Hup, Hnone. simpl.
        split_and!; try done; [by rewrite length_insert|].
        left. split_and!; try done.
        intros k q Hk. destruct (decide (k = j)) as [->|Hkj].
        -- rewrite list_lookup_insert_eq in Hk by done. injection Hk as <-. by right.
        -- rewrite list_lookup_insert_ne in Hk by done. by apply (Hall k).
      * rewrite step_webhook_marking, Hup, Hnone. simpl.
        split_and!; try done; [by rewrite length_insert|].
        right. exists j, (now w + 86400). split_and!; try done.
        -- by rewrite lookup_insert_eq.
        -- lia.
        -- left. split; [by apply list_lookup_insert_eq|done].
        -- intros k q Hkj Hk. rewrite list_lookup_insert_ne in Hk by done.
           destruct (Hall k q Hk) as [->| ->]; auto.
    + (* the marker is set *)
      assert (redis_lookup w key = Some "1") as Hlive
        by (eapply redis_lookup_live; [done|lia]).
      destruct (decide (j = i)) as [->|Hne].
      * destruct Hi as [[Hpi Hd]|(w1 & Hw1 & Hd & Hpi)]; rewrite Hpi in Hp; injection Hp as <-.
        -- rewrite step_webhook_apply. simpl.
           destruct (webhook_transaction_frame provider st ref w) as (Hru & _ & Hnow & Hkeys).
           split_and!; try done; [congruence|by rewrite length_insert|].
           right. exists i, x. split_and!; try done.
           ++ rewrite Hkeys; [done|]. intros tid sid Heq.
              by apply (lock_key_ne_idempotency_key tid sid provider eid).
           ++ lia.
           ++ right. exists w. split_and!; try done. by apply list_lookup_insert_eq.
           ++ intros k q Hk Hq'. rewrite list_lookup_insert_ne in Hq' by done.
              by apply (Hothers k).
        -- simpl. split_and!; try done; [by rewrite length_insert|].
           right. exists i, x. split_and!; try done.
           ++ right. exists w1. split_and!; try done. by apply list_lookup_insert_eq.
           ++ intros k q Hk Hq'. rewrite list_lookup_insert_ne in Hq' by done.
              by apply (Hothers k).
      * assert (step p w = (w, ack)) as ->.
        { destruct (Hothers j p Hne Hp) as [->|[->| ->]].
          - by rewrite step_webhook_check, Hup, Hlive.
          - by rewrite step_webhook_marking, Hup, Hlive.
          - done. }
        simpl. split_and!; try done; [by rewrite length_insert|].
        right. exists i, x. split_and!; try done.
        -- destruct Hi as [[Hpi Hd]|(w1 & Hw1 & Hd & Hpi)].
           ++ left. by rewrite list_lookup_insert_ne.
           ++ right. exists w1. by rewrite list_lookup_insert_ne.
        -- intros k q Hk Hq'. destruct (decide (k = j)) as [->|Hkj].
           ++ rewrite list_lookup_insert_eq in Hq' by done. injection Hq' as <-. auto.
           ++ rewrite list_lookup_insert_ne in Hq' by done. by apply (Hothers k).
  - (* Tick dt *)
    unfold webhook_race_inv. simpl in *. split_and!; try done; [lia|].
    destruct Hphase as [(Hnone & Hd & Hall)|(i & x & Hx & Hlt & Hi & Hothers)].
    + left. split_and!; try done. by apply redis_lookup_tick.
    + right. exists i, x. split_and!; try done. lia.
Qed.

End webhook_race.

(** C4. [handleWebhook] (payment_webhook) is idempotent per (provider,
    event id).  Take any number of deliveries of one accepted event,
    racing from a state where its marker is not set, with Redis reachable
    and within the marker's retention of 86400 s.  At every point of
    every schedule all deliveries but at most one that have answered have
    answered Ack(received=true), and the ledger is either what it was or
    what one single run of the transaction made of it, the remaining
    delivery being the one that ran it.  A delivery that finds the marker
    set answers Ack and changes nothing at all; and a delivery run alone
    on an unmarked event leaves the marker set until 86400 s later. *)
Theorem webhook_idempotent_per_event
    (hmac_sha256_hexdigest : string → string → string)
    (json_loads : string → option Body)
    (FLUTTERWAVE_SECRET MTN_SECRET AIRTEL_SECRET : string)
    (provider : string) (request : Request) (eid : string) (st ref : option jval)
    (n : nat) (evs : list event) (w : World) :
  accepted hmac_sha256_hexdigest json_loads FLUTTERWAVE_SECRET MTN_SECRET AIRTEL_SECRET
    provider request eid st ref →
  Forall quiet evs → elapsed evs < 86400 →
  redis_up w = true →
  redis_lookup w (IDEMPOTENCY_KEY_TPL provider eid) = None →
  let deliver :=
    payment_webhook hmac_sha256_hexdigest json_loads
      FLUTTERWAVE_SECRET MTN_SECRET AIRTEL_SECRET provider request in
  let c' := run evs (w, replicate n deliver) in
  (∃ i,
     (∀ j r, j ≠ i → c'.2 !! j = Some (Done r) → r = Ok (WebhookAck true))
     ∧ (ledger c'.1 = ledger w
        ∨ ∃ w1,
            ledger w1 = ledger w
            ∧ ledger c'.1 = ledger (webhook_transaction provider st ref w1).1
            ∧ c'.2 !! i = Some (Done (webhook_answer (webhook_transaction provider st ref w1).2))))
  ∧ (∀ w1,
       redis_up w1 = true →
       is_Some (redis_lookup w1 (IDEMPOTENCY_KEY_TPL provider eid)) →
       exec deliver w1 = (w1, Ok (WebhookAck true)))
  ∧ (redis (exec deliver w).1 !! IDEMPOTENCY_KEY_TPL provider eid
       = Some (Entry "1" (Some (now w + 86400)))
     ∧ now (exec deliver w).1 = now w
     ∧ redis_up (exec deliver w).1 = true).
Proof.
  intros Hacc Hq Hel Hup Hnone deliver c'. subst deliver c'.
  rewrite (payment_webhook_accepted _ _ _ _ _ _ _ _ _ _ Hacc).
  split_and!.
  - assert (webhook_race_inv provider eid st ref (ledger w) n []
              (run evs (w, replicate n (webhook_check provider eid st ref)))) as Hinv.
    { apply (run_induction (webhook_race_inv provider eid st ref (ledger w) n)).
      - intros ev evs' c. by apply webhook_race_inv_fire.
      - unfold webhook_race_inv; simpl. split_and!; try done; [by rewrite length_replicate|].
        left. split_and!; try done.
        intros j p Hp. apply lookup_replicate in Hp as [-> _]. by left. }
    destruct (run evs (w, replicate n (webhook_check provider eid st ref))) as [w' ps'].
    destruct Hinv as (_ & _ & _ & _ & Hphase). simpl in *.
    destruct Hphase as [(_ & Hd & Hall)|(i & x & _ & _ & Hi & Hothers)].
    + exists 0%nat. split; [|by left].
      intros j r _ Hj. by destruct (Hall j _ Hj).
    + exists i. split.
      * intros j r Hji Hj. destruct (Hothers j _ Hji Hj) as [?|[?|Hack]]; try done.
        by injection Hack as ->.
      * destruct Hi as [[_ Hd]|(w1 & Hw1 & Hd & Hpi)]; [by left|].
        right. by exists w1.
  - intros w1 Hup1 [v Hv]. by rewrite exec_webhook_check, Hup1, Hv.
  - rewrite exec_webhook_check, Hup, Hnone, exec_webhook_apply. cbn [fst].
    destruct (webhook_transaction_frame provider st ref (marked provider eid w))
      as (_ & _ & _ & Hkeys).
    rewrite Hkeys.
    + unfold marked; simpl. by rewrite lookup_insert_eq.
    + intros tid sid Heq. by apply (lock_key_ne_idempotency_key tid sid provider eid).
  - rewrite exec_webhook_check, Hup, Hnone, exec_webhook_apply. cbn [fst].
    by destruct (webhook_transaction_frame provider st ref (marked provider eid w))
      as (_ & _ & -> & _).
  - rewrite exec_webhook_check, Hup, Hnone, exec_webhook_apply. cbn [fst].
    by destruct (webhook_transaction_frame provider st ref (marked provider eid w))
      as (-> & _).
Qed.

Lemma demo_first_accepted :
  accepted demo_hmac demo_json_loads "" "" "secret" "airtel" (demo_request "first")
    "evt1" (Some (JStr "failed")) (Some (JStr demo_ref)).
Proof. exists AirtelAdapter, (JStr "evt1"). by vm_compute. Qed.

Lemma webhook_idempotence_witness :
  ∃ i,
    (∀ j r, j ≠ i →
       (run demo_delivery_schedule
          (demo_paying, replicate 3 (demo_webhook "airtel" (demo_request "first")))).2 !! j
       = Some (Done r) →
       r = Ok (WebhookAck true))
    ∧ (ledger (run demo_delivery_schedule
                 (demo_paying, replicate 3 (demo_webhook "airtel" (demo_request "first")))).1
       = ledger demo_paying
       ∨ ∃ w1,
           ledger w1 = ledger demo_paying
           ∧ ledger (run demo_delivery_schedule
                       (demo_paying, replicate 3 (demo_webhook "airtel" (demo_request "first")))).1
             = ledger (webhook_transaction "airtel" (Some (JStr "failed"))
                         (Some (JStr demo_ref)) w1).1
           ∧ (run demo_delivery_schedule
                (demo_paying, replicate 3 (demo_webhook "airtel" (demo_request "first")))).2 !! i
             = Some (Done (webhook_answer
                             (webhook_transaction "airtel" (Some (JStr "failed"))
                                (Some (JStr demo_ref)) w1).2))).
Proof.
  apply (webhook_idempotent_per_event demo_hmac demo_json_loads "" "" "secret"
           "airtel" (demo_request "first") "evt1" (Some (JStr "failed"))
           (Some (JStr demo_ref)) 3 demo_delivery_schedule demo_paying).
  - exists AirtelAdapter, (JStr "evt1"). by vm_compute.
  - repeat constructor.
  - vm_compute. reflexivity.
  - reflexivity.
  - by vm_compute.
Defined.

(** ** What the columns store *)

Lemma lower_length s : String.length (lower s) = String.length s.
Proof. induction s as [|c s IH]; simpl; [done|]. by rewrite IH. Qed.

Lemma not_nul_lower_ascii c : not_nul (lower_ascii c) = not_nul c.
Proof. destruct c as [[] [] [] [] [] [] [] []]; by vm_compute. Qed.

Lemma all_chars_not_nul_lower s : all_chars not_nul (lower s) = all_chars not_nul s.
Proof. induction s as [|c s IH]; simpl; [done|]. by rewrite IH, not_nul_lower_ascii. Qed.

(** A text without NUL that fits the column is stored as it is. *)
Lemma varchar_fits n s :
  all_chars not_nul s = true → (String.length s ≤ n)%nat → varchar n s = Some s.
Proof.
  intros Hnul Hlen. unfold varchar. rewrite Hnul. simpl.
  by rewrite (proj2 (Nat.leb_le _ _)).
Qed.

Lemma varchar_of_lower n s l :
  lower s = l → all_chars not_nul l = true → (String.length l ≤ n)%nat →
  varchar n s = Some s.
Proof.
  intros <- Hnul Hlen. apply varchar_fits.
  - by rewrite <- all_chars_not_nul_lower.
  - by rewrite <- lower_length.
Qed.

(** A text longer than the column, or with a NUL, is refused, unless only
    spaces are cut off. *)
Lemma varchar_refused n s :
  (n < String.length s)%nat →
  all_chars is_space (String.substring n (String.length s - n) s) = false →
  varchar n s = None.
Proof.
  intros Hlen Hsp. unfold varchar. destruct (negb _); [done|].
  rewrite (proj2 (Nat.leb_gt _ _)) by done. by rewrite Hsp.
Qed.

Ltac enum_elem_of H :=
  repeat (apply elem_of_cons in H as [H|H]; [|]);
  [..|by apply elem_of_nil in H].

Lemma failed_not_success lc : lc ∈ failed_statuses → lc ∉ success_statuses.
Proof.
  unfold failed_statuses, success_statuses. intros Hf Hs.
  enum_elem_of Hf; subst lc; enum_elem_of Hs; discriminate Hs.
Qed.

Lemma failed_nonempty s : lower s ∈ failed_statuses → s ≠ "".
Proof.
  intros Hf ->. simpl in Hf. unfold failed_statuses in Hf.
  enum_elem_of Hf; discriminate Hf.
Qed.

Lemma success_nonempty s : lower s ∈ success_statuses → s ≠ "".
Proof.
  intros Hf ->. simpl in Hf. unfold success_statuses in Hf.
  enum_elem_of Hf; discriminate Hf.
Qed.

(** The statuses the handler acts on fit VARCHAR(50). *)
Lemma varchar_success s : lower s ∈ success_statuses → varchar 50 s = Some s.
Proof.
  unfold success_statuses. intros Hs.
  enum_elem_of Hs; (eapply varchar_of_lower; [exact Hs|reflexivity|simpl; lia]).
Qed.

Lemma varchar_failed s : lower s ∈ failed_statuses → varchar 50 s = Some s.
Proof.
  unfold failed_statuses. intros Hs.
  enum_elem_of Hs; (eapply varchar_of_lower; [exact Hs|reflexivity|simpl; lia]).
Qed.

Lemma lcstatus_of_text s : lcstatus_of (Some (JStr s)) = ret (lower s).
Proof.
  unfold lcstatus_of, py_or, truthy. by destruct (String.eqb s "") eqn:He;
    [apply String.eqb_eq in He as ->|].
Qed.

Lemma flush_payment_status_text pid s w :
  s ≠ "" →
  flush_payment_status pid (Some (JStr s)) w = set_payment_status pid s w.
Proof.
  intros Hs. apply String.eqb_neq in Hs.
  unfold flush_payment_status, status_or, py_or, truthy. by rewrite Hs.
Qed.

(** ** Reconciling a failed payment *)

(** The ledger once the payment [pid] has taken the status [s]. *)
Lemma set_payment_status_fits pid s w :
  varchar 50 s = Some s →
  set_payment_status pid s w
  = (set_ledger (with_payments
       (alter (λ p, mkPayment (booking_id p) (provider p) (provider_ref p) s)
          pid (payments (ledger w))) (ledger w)) w, Ok tt).
Proof. intros Hs. unfold set_payment_status. by rewrite Hs. Qed.

(** The body of the transaction on a failed event that reaches a booking
    of a trip: the new status of the payment is written, the booking is
    found, and the unbound name [sa_update] ends the body. *)
Lemma webhook_body_failed prov s ref w pid pay b :
  payment_by_ref (py_str <$> ref) (ledger w) = Some (pid, pay) →
  lower s ∈ failed_statuses →
  booking_id pay ≠ 0 → bookings (ledger w) !! booking_id pay = Some b →
  trip_id b ≠ 0 →
  webhook_body prov (Some (JStr s)) ref w
  = (set_ledger (with_payments
       (alter (λ p, mkPayment (booking_id p) (provider p) (provider_ref p) s)
          pid (payments (ledger w))) (ledger w)) w,
     Raise (Err NameError)).
Proof.
  intros Hpay Hf Hbid Hb Htid.
  pose proof (failed_nonempty s Hf) as Hs.
  pose proof (failed_not_success _ Hf) as Hns.
  unfold webhook_body, bind, select_payment_by_ref. rewrite Hpay.
  rewrite lcstatus_of_text. unfold ret at 1.
  rewrite (bool_decide_eq_false_2 _ Hns), (bool_decide_eq_true_2 _ Hf).
  rewrite flush_payment_status_text, set_payment_status_fits by (done || by apply varchar_failed).
  unfold locate_booking, select_booking. apply Z.eqb_neq in Hbid, Htid. rewrite Hbid.
  cbn [ledger set_ledger bookings with_payments]. rewrite Hb, Htid. done.
Qed.

(** The transaction on such an event: NameError, and the world as it
    was. *)
Lemma webhook_transaction_failed prov s ref w pid pay b :
  ledger_up w = true →
  payment_by_ref (py_str <$> ref) (ledger w) = Some (pid, pay) →
  lower s ∈ failed_statuses →
  booking_id pay ≠ 0 → bookings (ledger w) !! booking_id pay = Some b →
  trip_id b ≠ 0 →
  webhook_transaction prov (Some (JStr s)) ref w = (w, Raise (Err NameError)).
Proof.
  intros Hup Hpay Hf Hbid Hb Htid. unfold webhook_transaction, db_begin.
  rewrite Hup, (webhook_body_failed prov s ref w pid pay b) by done.
  by destruct w.
Qed.

Lemma fire_single p w :
  fire (w, [p]) (Run 0) = ((step p w).1, [(step p w).2]).
Proof. simpl. by destruct (step p w). Qed.

Lemma exec_webhook_marked provider eid st ref w :
  redis_up w = true →
  exec (webhook_check provider eid st ref) (marked provider eid w)
  = (marked provider eid w, Ok (WebhookAck true)).
Proof.
  intros Hup. rewrite exec_webhook_check. cbn [redis_up marked set_redis]. rewrite Hup.
  rewrite (redis_lookup_live _ _ "1" (now w + 86400)); [done| |simpl; lia].
  simpl. by rewrite lookup_insert_eq.
Qed.

Lemma payment_by_ref_Some ref d pid pay :
  payment_by_ref ref d = Some (pid, pay) →
  payments d !! pid = Some pay ∧ provider_ref pay = ref.
Proof.
  intros H. apply head_Some_elem_of, list_elem_of_filter in H as [Href Hin].
  by apply elem_of_map_to_list in Hin.
Qed.



(** C2, on the code.  A first delivery whose status is a failed one and
    whose payment record leads to a booking of a trip is not reconciled.
    The handler reaches line 147, where the name [sa_update] is not bound
    (the module imports [select as sa_select] only): the body of the
    transaction raises NameError after the payment has taken the status,
    the transaction is rolled back, and the delivery is answered HTTP 500
    with "name 'sa_update' is not defined".  The booking is not
    cancelled, the trip's [seats_available] is not raised, no lease is
    released, and the marker of the event is set, so that a redelivery is
    acknowledged and changes nothing. *)
Theorem failed_payment_is_not_reconciled
    (hmac_sha256_hexdigest : string → string → string)
    (json_loads : string → option Body)
    (FLUTTERWAVE_SECRET MTN_SECRET AIRTEL_SECRET : string)
    (prov : string) (request : Request) (eid s : string) (ref : option jval)
    (w : World) (pid : Z) (pay : Payment) (b : Booking) :
  accepted hmac_sha256_hexdigest json_loads FLUTTERWAVE_SECRET MTN_SECRET AIRTEL_SECRET
    prov request eid (Some (JStr s)) ref →
  lower s ∈ failed_statuses →
  redis_up w = true → ledger_up w = true →
  redis_lookup w (IDEMPOTENCY_KEY_TPL prov eid) = None →
  payment_by_ref (py_str <$> ref) (ledger w) = Some (pid, pay) →
  booking_id pay ≠ 0 → bookings (ledger w) !! booking_id pay = Some b →
  trip_id b ≠ 0 →
  let deliver :=
    payment_webhook hmac_sha256_hexdigest json_loads
      FLUTTERWAVE_SECRET MTN_SECRET AIRTEL_SECRET prov request in
  exec deliver w
  = (marked prov eid w, Raise (HTTPException 500 (StrOf (Err NameError))))
  ∧ (webhook_body prov (Some (JStr s)) ref (marked prov eid w)).2 = Raise (Err NameError)
  ∧ pay_status <$> payments (ledger
      (webhook_body prov (Some (JStr s)) ref (marked prov eid w)).1) !! pid = Some s
  ∧ ledger (exec deliver w).1 = ledger w
  ∧ bookings (ledger (exec deliver w).1) !! booking_id pay = Some b
  ∧ trips (ledger (exec deliver w).1) = trips (ledger w)
  ∧ redis_lookup (exec deliver w).1 (LOCK_KEY_TPL (trip_id b) (seat_id b))
    = redis_lookup w (LOCK_KEY_TPL (trip_id b) (seat_id b))
  ∧ exec deliver (exec deliver w).1 = ((exec deliver w).1, Ok (WebhookAck true)).
Proof.
  intros Hacc Hf Hup Hlup Hnone Hpay Hbid Hb Htid deliver. subst deliver.
  rewrite (payment_webhook_accepted _ _ _ _ _ _ _ _ _ _ Hacc).
  assert (exec (webhook_check prov eid (Some (JStr s)) ref) w
          = (marked prov eid w, Raise (HTTPException 500 (StrOf (Err NameError))))) as Hex.
  { rewrite exec_webhook_check, Hup, Hnone, exec_webhook_apply.
    by rewrite (webhook_transaction_failed prov s ref _ pid pay b). }
  rewrite Hex, (webhook_body_failed prov s ref _ pid pay b) by done.
  destruct (payment_by_ref_Some _ _ _ _ Hpay) as [Hpid _].
  cbn [fst snd]. split_and!; try done.
  - simpl. by rewrite lookup_alter_eq, Hpid.
  - unfold redis_lookup, marked; simpl.
    by rewrite lookup_insert_ne by (apply not_eq_sym, lock_key_ne_idempotency_key).
  - by apply exec_webhook_marked.
Qed.

(** The failed event "evt1" for the payment of booking 1, while a second
    client holds a new lease "tokB" on seat 3. *)
Lemma failed_payment_witness :
  let deliver := demo_webhook "airtel" (demo_request "first") in
  exec deliver demo_relocked
  = (marked "airtel" "evt1" demo_relocked,
     Raise (HTTPException 500 (StrOf (Err NameError))))
  ∧ (webhook_body "airtel" (Some (JStr "failed")) (Some (JStr demo_ref))
       (marked "airtel" "evt1" demo_relocked)).2 = Raise (Err NameError)
  ∧ pay_status <$> payments (ledger
      (webhook_body "airtel" (Some (JStr "failed")) (Some (JStr demo_ref))
         (marked "airtel" "evt1" demo_relocked)).1) !! 1 = Some "failed"
  ∧ ledger (exec deliver demo_relocked).1 = ledger demo_relocked
  ∧ bookings (ledger (exec deliver demo_relocked).1) !! 1
    = Some (mkBooking (Some 7) 1 (Some 3) "confirmed")
  ∧ trips (ledger (exec deliver demo_relocked).1) = trips (ledger demo_relocked)
  ∧ redis_lookup (exec deliver demo_relocked).1 (LOCK_KEY_TPL 1 (Some 3))
    = redis_lookup demo_relocked (LOCK_KEY_TPL 1 (Some 3))
  ∧ exec deliver (exec deliver demo_relocked).1
    = ((exec deliver demo_relocked).1, Ok (WebhookAck true)).
Proof.
  apply (failed_payment_is_not_reconciled demo_hmac demo_json_loads "" "" "secret"
           "airtel" (demo_request "first") "evt1" "failed" (Some (JStr demo_ref))
           demo_relocked 1 (mkPayment 1 (Some "airtel") (Some demo_ref) "initiated")
           (mkBooking (Some 7) 1 (Some 3) "confirmed")).
  - exact demo_first_accepted.
  - vm_compute. repeat constructor.
  - reflexivity.
  - reflexivity.
  - by vm_compute.
  - by vm_compute.
  - done.
  - by vm_compute.
  - done.
Defined.

(** ** The seats of a trip are never given back *)



Global Instance capacity_bounded_inv d0 : LedgerInv (capacity_bounded d0).
Proof.
  split.
  - intros tid w Hc. unfold update_trip_decrement.
    destruct (trips (ledger w) !! tid) as [t|] eqn:Ht; [|by destruct (int4 tid)].
    destruct (0 <? seats_available t) eqn:Hpos; [|done].
    intros tid' t'. simpl. destruct (decide (tid = tid')) as [<-|Hne].
    + rewrite lookup_insert_eq. intros [= <-].
      destruct (Hc _ _ Ht) as (t0 & Ht0 & Hle). exists t0. split; [done|]. simpl. lia.
    + rewrite lookup_insert_ne by done. apply Hc.
  - intros b w Hc. unfold insert_booking.
    destruct (negb _); [done|]. by destruct (_ && _).
  - intros bid amount currency prov ref st w Hc. unfold insert_payment.
    destruct (negb _); [done|]. destruct (if numeric_10_2 _ && _ then _ else _); [|done].
    by destruct (_ && _).
  - intros pid st w Hc. unfold set_payment_status. by destruct (varchar _ _).
  - by intros bid st w Hc.
Qed.



(** ** Booking a seat again after a failed payment *)

(** C3: the scenario of the specification on the code.  Trip 1 has one
    seat; client A locks seat 3, confirms (booking 1, no seat left) and
    initiates a payment; the provider reports it failed.  The delivery is
    answered 500 (NameError at [sa_update]): booking 1 stays confirmed
    and the counter stays at 0.  A second client locks seat 3, which is
    granted since the confirm of A used up the lease, and confirms with
    its token: the confirm is answered 409 "No seats available" and no
    booking is made. *)
Theorem rebooking_after_failed_payment_is_refused :
  (exec (create_lock "tokA" (mkLockReq 1 3 (Some 60))) demo_world).1 = demo_locked
  ∧ (exec (confirm_booking (mkConfirmReq 1 3 "tokA" (Some 7))) demo_locked).2
    = Ok (BookingResponse 1 1 (Some 3) "confirmed")
  ∧ seats_available <$> trips (ledger demo_booked) !! 1 = Some 0
  ∧ (exec (initiate_payment demo_hex
             (mkInitiateReq 1 (Finite (QArith_base.Qmake 50000 1)) (Some "UGX") "airtel"))
       demo_booked).2
    = Ok (PaymentInitiateResponse "airtel" demo_ref)
  ∧ (exec (demo_webhook "airtel" (demo_request "first")) demo_paying).2
    = Raise (HTTPException 500 (StrOf (Err NameError)))
  ∧ status <$> bookings (ledger demo_failed) !! 1 = Some "confirmed"
  ∧ seats_available <$> trips (ledger demo_failed) !! 1 = Some 0
  ∧ (exec (create_lock "tokB" (mkLockReq 1 3 (Some 60))) demo_failed).2
    = Ok (LockSeatResponse "tokB" 1060)
  ∧ (exec (confirm_booking (mkConfirmReq 1 3 "tokB" (Some 8)))
       (exec (create_lock "tokB" (mkLockReq 1 3 (Some 60))) demo_failed).1).2
    = Raise (HTTPException HTTP_409_CONFLICT (Text "No seats available"))
  ∧ ledger (exec (confirm_booking (mkConfirmReq 1 3 "tokB" (Some 8)))
              (exec (create_lock "tokB" (mkLockReq 1 3 (Some 60))) demo_failed).1).1
    = ledger demo_failed.
Proof. split_and!; vm_compute; reflexivity. Qed.

(** ** The statements on the small instance *)

(** A guessed token against the live lease "tokA" of seat 3. *)
Lemma consume_stale_token_witness :
  ∃ w',
    validate_and_consume_lock 1 3 "guess" demo_locked = (w', Ok false)
    ∧ redis_lookup w' (LOCK_KEY_TPL 1 (Some 3)) = Some "tokA".
Proof.
  destruct (consume_is_compare_and_delete 1 3 "guess" demo_locked)
    as (w' & ok & Heq & _ & _ & _ & Hstale).
  destruct (Hstale "tokA") as [Hok Hl].
  - vm_compute; reflexivity.
  - discriminate.
  - exists w'. rewrite Heq, Hok. split; [reflexivity|exact Hl].
Defined.

(** A second confirm for seat 3 of a trip with a seat left: the row of
    booking 1 refuses it, the decrement is undone, and the id 2 is
    drawn from the sequence and lost. *)
Lemma confirm_conflict_witness :
  exec (confirm_commit (mkConfirmReq 1 3 "tokB" (Some 8))) demo_roomy
  = (set_bookings_id_seq 2 demo_roomy,
     Raise (HTTPException HTTP_409_CONFLICT (Text "Seat already booked"))).
Proof.
  apply (proj1 (proj2 (proj2 (confirm_decrement_and_insert_atomic
                                (mkConfirmReq 1 3 "tokB" (Some 8)) demo_roomy)))
           (mkTrip 1) 1 (mkBooking (Some 7) 1 (Some 3) "confirmed")).
  - reflexivity.
  - vm_compute; reflexivity.
  - simpl; lia.
  - vm_compute; reflexivity.
  - reflexivity.
  - reflexivity.
  - vm_compute; reflexivity.
Defined.

(** A confirm for trip 1 once its only seat is booked. *)
Lemma no_seats_witness :
  confirm_transaction (mkConfirmReq 1 4 "tokC" (Some 7)) demo_booked
  = (demo_booked, Raise (HTTPException HTTP_409_CONFLICT (Text "No seats available")))
  ∧ exec (confirm_commit (mkConfirmReq 1 4 "tokC" (Some 7))) demo_booked
    = (demo_booked, Raise (HTTPException HTTP_409_CONFLICT (Text "No seats available"))).
Proof.
  apply (proj2 (proj2 (seats_available_never_negative demo_hmac demo_json_loads "" "" "secret"))
           (mkConfirmReq 1 4 "tokC" (Some 7)) demo_booked).
  - reflexivity.
  - assert (trips (ledger demo_booked) !! 1 = Some (mkTrip 0)) as H0
      by (vm_compute; reflexivity).
    simpl. rewrite H0. simpl. lia.
Defined.

(** * Further properties of the handlers *)

(** ** Leases: release, expiry, single use *)

Lemma exec_release_with_token trip seat tok w :
  exec (release_lock_endpoint (mkReleaseReq trip seat (Some tok))) w =
    if redis_up w && bool_decide (redis_lookup w (LOCK_KEY_TPL trip (Some seat)) = Some tok)
    then (set_redis (delete (LOCK_KEY_TPL trip (Some seat)) (redis w)) w, Ok Released)
    else (w, mismatch_or_not_owned).
Proof.
  unfold release_lock_endpoint. cbn [exec rl_trip_id rl_seat_id rl_token].
  change (release_lock trip (Some seat) (Some tok))
    with (validate_and_consume_lock trip seat tok).
  rewrite validate_and_consume_lock_eq. by destruct (_ && _).
Qed.

Lemma exec_release_without_token trip seat w :
  exec (release_lock_endpoint (mkReleaseReq trip seat None)) w =
    if redis_up w
    then (set_redis (delete (LOCK_KEY_TPL trip (Some seat)) (redis w)) w, Ok Released)
    else (w, Raise (Err ConnectionError)).
Proof.
  unfold release_lock_endpoint, release_lock, redis_delete, connected, bind, ret.
  cbn [exec rl_trip_id rl_seat_id rl_token].
  destruct (redis_up w); [|done]. by destruct (redis_lookup w _).
Qed.

(** A free seat is granted to a ttl whose expiry is a date. *)
Lemma exec_create_lock_granted trip seat uuid t w :
  redis_up w = true → 0 < t → now w + t ≤ DATETIME_MAX →
  redis_lookup w (LOCK_KEY_TPL trip (Some seat)) = None →
  exec (create_lock uuid (mkLockReq trip seat (Some t))) w
  = (set_redis (<[LOCK_KEY_TPL trip (Some seat) := Entry uuid (Some (now w + t))]> (redis w)) w,
     Ok (LockSeatResponse uuid (now w + t))).
Proof.
  intros Hup Hpos Hmax Hfree. rewrite exec_create_lock_free by done.
  unfold lock_answer. cbn [fst snd]. by rewrite (proj2 (Z.leb_le _ _)).
Qed.

Lemma exec_confirm_without_lease req w :
  redis_lookup w (LOCK_KEY_TPL (cf_trip_id req) (Some (cf_seat_id req))) ≠ Some (cf_token req) →
  exec (confirm_booking req) w = (w, invalid_or_expired).
Proof.
  intros Hk. rewrite exec_confirm_booking, bool_decide_eq_false_2 by done.
  by rewrite andb_false_r.
Qed.

(** X1. Release with a token is a compare-and-delete behind the 409: the
    endpoint answers released exactly when Redis is reachable and the
    live lease of the seat holds that token; a wrong token, a lease that
    is absent or expired, and an unreachable Redis all give 409 "Token
    mismatch or lock not owned" with nothing changed.  After the owner's
    release the ledger is as before, a second release with the same token
    is refused, and any caller can lock the seat at once, with any
    positive ttl whose expiry is a date ([datetime.max] at most). *)
Theorem release_by_owner_frees_seat (trip seat : Z) (tok : string) (w : World) :
  let key := LOCK_KEY_TPL trip (Some seat) in
  let release := release_lock_endpoint (mkReleaseReq trip seat (Some tok)) in
  exec release w =
    (if redis_up w && bool_decide (redis_lookup w key = Some tok)
     then (set_redis (delete key (redis w)) w, Ok Released)
     else (w, mismatch_or_not_owned))
  ∧ (redis_up w = true → redis_lookup w key = Some tok →
     (exec release w).2 = Ok Released
     ∧ ledger (exec release w).1 = ledger w
     ∧ (exec release (exec release w).1).2 = mismatch_or_not_owned
     ∧ ∀ uuid ttl, 0 < ttl → now w + ttl ≤ DATETIME_MAX →
         (exec (create_lock uuid (mkLockReq trip seat (Some ttl))) (exec release w).1).2
         = Ok (LockSeatResponse uuid (now w + ttl))).
Proof.
  intros key release. subst release.
  split; [apply exec_release_with_token|].
  intros Hup Hk. rewrite !exec_release_with_token.
  rewrite Hup, bool_decide_eq_true_2 by done. cbn [andb fst snd].
  split_and!; try done.
  - cbn [redis_up set_redis].
    rewrite Hup. rewrite bool_decide_eq_false_2; [done|].
    by rewrite redis_lookup_set_redis_delete.
  - intros uuid ttl Hpos Hmax. rewrite exec_create_lock_granted; try done.
    apply redis_lookup_set_redis_delete.
Qed.

Lemma release_by_owner_witness :
  (exec (release_lock_endpoint (mkReleaseReq 1 3 (Some "tokA"))) demo_locked).2 = Ok Released
  ∧ ledger (exec (release_lock_endpoint (mkReleaseReq 1 3 (Some "tokA"))) demo_locked).1
    = ledger demo_locked
  ∧ (exec (release_lock_endpoint (mkReleaseReq 1 3 (Some "tokA")))
       (exec (release_lock_endpoint (mkReleaseReq 1 3 (Some "tokA"))) demo_locked).1).2
    = mismatch_or_not_owned
  ∧ ∀ uuid ttl, 0 < ttl → now demo_locked + ttl ≤ DATETIME_MAX →
      (exec (create_lock uuid (mkLockReq 1 3 (Some ttl)))
         (exec (release_lock_endpoint (mkReleaseReq 1 3 (Some "tokA"))) demo_locked).1).2
      = Ok (LockSeatResponse uuid (now demo_locked + ttl)).
Proof.
  apply (proj2 (release_by_owner_frees_seat 1 3 "tokA" demo_locked)).
  - reflexivity.
  - vm_compute; reflexivity.
Defined.

(** X2. Release without a token is unconditional: with Redis reachable
    the endpoint answers released and the lease of the seat is gone
    whoever held it, so that a confirm with any token, the holder's
    included, is then refused with 409 "Invalid or expired lock token";
    with Redis unreachable the ConnectionError is not caught. *)
Theorem release_without_token_is_unconditional (trip seat : Z) (w : World) :
  let key := LOCK_KEY_TPL trip (Some seat) in
  let release := release_lock_endpoint (mkReleaseReq trip seat None) in
  exec release w =
    (if redis_up w then (set_redis (delete key (redis w)) w, Ok Released)
     else (w, Raise (Err ConnectionError)))
  ∧ (redis_up w = true →
     redis_lookup (exec release w).1 key = None
     ∧ ledger (exec release w).1 = ledger w
     ∧ ∀ tok user,
         exec (confirm_booking (mkConfirmReq trip seat tok user)) (exec release w).1
         = ((exec release w).1, invalid_or_expired)).
Proof.
  intros key release. subst release key.
  split; [apply exec_release_without_token|].
  intros Hup. rewrite exec_release_without_token, Hup. cbn [fst].
  split_and!; [apply redis_lookup_set_redis_delete|done|].
  intros tok user. apply exec_confirm_without_lease. simpl.
  by rewrite redis_lookup_set_redis_delete.
Qed.

Lemma release_without_token_witness :
  redis_lookup (exec (release_lock_endpoint (mkReleaseReq 1 3 None)) demo_locked).1
    (LOCK_KEY_TPL 1 (Some 3)) = None
  ∧ ledger (exec (release_lock_endpoint (mkReleaseReq 1 3 None)) demo_locked).1
    = ledger demo_locked
  ∧ ∀ tok user,
      exec (confirm_booking (mkConfirmReq 1 3 tok user))
        (exec (release_lock_endpoint (mkReleaseReq 1 3 None)) demo_locked).1
      = ((exec (release_lock_endpoint (mkReleaseReq 1 3 None)) demo_locked).1,
         invalid_or_expired).
Proof.
  apply (proj2 (release_without_token_is_unconditional 1 3 demo_locked)).
  reflexivity.
Defined.

Lemma redis_lookup_tick_eq dt w key :
  redis_lookup (tick dt w) key =
    match redis w !! key with
    | Some e =>
        match expires_at e with
        | Some x => if bool_decide (now w + Z.of_N dt < x) then Some (value e) else None
        | None => Some (value e)
        end
    | None => None
    end.
Proof.
  unfold tick, redis_lookup, live. simpl.
  destruct (redis w !! key) as [[v [x|]]|]; done.
Qed.

(** X3. A lease lives exactly [ttl] seconds.  After a lock granted at
    time [now] with a positive ttl whose expiry [now + ttl] is a date
    ([datetime.max] at most): as long as less than [ttl] seconds have
    passed the seat is held and every other lock attempt gets 409 "Seat
    already locked"; once [ttl] seconds have passed the key is absent, a
    confirm with the token is refused with 409 "Invalid or expired lock
    token" and changes nothing, and the next lock attempt whose own
    expiry is a date is granted. *)
Theorem lease_lives_for_ttl (trip seat ttl : Z) (uuid : string) (w : World) :
  redis_up w = true → 0 < ttl → now w + ttl ≤ DATETIME_MAX →
  redis_lookup w (LOCK_KEY_TPL trip (Some seat)) = None →
  let key := LOCK_KEY_TPL trip (Some seat) in
  let w1 := (exec (create_lock uuid (mkLockReq trip seat (Some ttl))) w).1 in
  (exec (create_lock uuid (mkLockReq trip seat (Some ttl))) w).2
  = Ok (LockSeatResponse uuid (now w + ttl))
  ∧ ∀ dt,
      (Z.of_N dt < ttl →
         redis_lookup (tick dt w1) key = Some uuid
         ∧ ∀ uuid' ttl', 0 < ttl' →
             exec (create_lock uuid' (mkLockReq trip seat (Some ttl'))) (tick dt w1)
             = (tick dt w1, already_locked))
      ∧ (ttl ≤ Z.of_N dt →
         redis_lookup (tick dt w1) key = None
         ∧ (∀ user,
              exec (confirm_booking (mkConfirmReq trip seat uuid user)) (tick dt w1)
              = (tick dt w1, invalid_or_expired))
         ∧ ∀ uuid' ttl', 0 < ttl' → now w + Z.of_N dt + ttl' ≤ DATETIME_MAX →
             (exec (create_lock uuid' (mkLockReq trip seat (Some ttl'))) (tick dt w1)).2
             = Ok (LockSeatResponse uuid' (now w + Z.of_N dt + ttl'))).
Proof.
  intros Hup Hpos Hmax Hfree key w1. subst w1 key.
  rewrite exec_create_lock_granted by done. cbn [fst snd]. split; [done|].
  intros dt.
  assert (redis_lookup
            (tick dt (set_redis (<[LOCK_KEY_TPL trip (Some seat)
                                   := Entry uuid (Some (now w + ttl))]> (redis w)) w))
            (LOCK_KEY_TPL trip (Some seat))
          = if bool_decide (now w + Z.of_N dt < now w + ttl) then Some uuid else None) as Hl.
  { rewrite redis_lookup_tick_eq. simpl. by rewrite lookup_insert_eq. }
  split; intros Hdt.
  - rewrite bool_decide_eq_true_2 in Hl by lia. split; [done|].
    intros uuid' ttl' Hpos'. by apply (exec_create_lock_held _ _ _ _ uuid).
  - rewrite bool_decide_eq_false_2 in Hl by lia. split_and!; [done| |].
    + intros user. apply exec_confirm_without_lease. simpl. by rewrite Hl.
    + intros uuid' ttl' Hpos' Hmax'. by rewrite exec_create_lock_granted.
Qed.

Lemma lease_lives_for_ttl_witness :
  (exec (create_lock "tokA" (mkLockReq 1 3 (Some 60))) demo_world).2
  = Ok (LockSeatResponse "tokA" (now demo_world + 60))
  ∧ ∀ dt,
      (Z.of_N dt < 60 →
         redis_lookup (tick dt (exec (create_lock "tokA" (mkLockReq 1 3 (Some 60))) demo_world).1)
           (LOCK_KEY_TPL 1 (Some 3)) = Some "tokA"
         ∧ ∀ uuid' ttl', 0 < ttl' →
             exec (create_lock uuid' (mkLockReq 1 3 (Some ttl')))
               (tick dt (exec (create_lock "tokA" (mkLockReq 1 3 (Some 60))) demo_world).1)
             = (tick dt (exec (create_lock "tokA" (mkLockReq 1 3 (Some 60))) demo_world).1,
                already_locked))
      ∧ (60 ≤ Z.of_N dt →
         redis_lookup (tick dt (exec (create_lock "tokA" (mkLockReq 1 3 (Some 60))) demo_world).1)
           (LOCK_KEY_TPL 1 (Some 3)) = None
         ∧ (∀ user,
              exec (confirm_booking (mkConfirmReq 1 3 "tokA" user))
                (tick dt (exec (create_lock "tokA" (mkLockReq 1 3 (Some 60))) demo_world).1)
              = (tick dt (exec (create_lock "tokA" (mkLockReq 1 3 (Some 60))) demo_world).1,
                 invalid_or_expired))
         ∧ ∀ uuid' ttl', 0 < ttl' → now demo_world + Z.of_N dt + ttl' ≤ DATETIME_MAX →
             (exec (create_lock uuid' (mkLockReq 1 3 (Some ttl')))
                (tick dt (exec (create_lock "tokA" (mkLockReq 1 3 (Some 60))) demo_world).1)).2
             = Ok (LockSeatResponse uuid' (now demo_world + Z.of_N dt + ttl'))).
Proof.
  apply (lease_lives_for_ttl 1 3 60 "tokA" demo_world).
  - reflexivity.
  - lia.
  - vm_compute. discriminate.
  - vm_compute; reflexivity.
Defined.

(** X4. A lock request with [ttl: null]: the key is set without expiry
    before [timedelta(seconds=None)] raises, so the caller gets a
    TypeError instead of the token, and the seat stays locked however
    much time passes: every later lock attempt gets 409 "Seat already
    locked". *)
Theorem lock_without_ttl_never_expires (trip seat : Z) (uuid : string) (w : World) :
  redis_up w = true →
  redis_lookup w (LOCK_KEY_TPL trip (Some seat)) = None →
  let key := LOCK_KEY_TPL trip (Some seat) in
  let w1 := (exec (create_lock uuid (mkLockReq trip seat None)) w).1 in
  (exec (create_lock uuid (mkLockReq trip seat None)) w).2 = Raise (Err TypeError)
  ∧ redis w1 !! key = Some (Entry uuid None)
  ∧ ∀ dt,
      redis_lookup (tick dt w1) key = Some uuid
      ∧ ∀ uuid' ttl', 0 < ttl' →
          exec (create_lock uuid' (mkLockReq trip seat (Some ttl'))) (tick dt w1)
          = (tick dt w1, already_locked).
Proof.
  intros Hup Hfree key w1. subst w1 key.
  assert (exec (create_lock uuid (mkLockReq trip seat None)) w
          = (set_redis (<[LOCK_KEY_TPL trip (Some seat) := Entry uuid None]> (redis w)) w,
             Raise (Err TypeError))) as ->.
  { unfold create_lock, lock_seat, bind, redis_set_nx, connected, raise.
    cbn [exec lk_trip_id lk_seat_id lk_ttl]. by rewrite Hup, Hfree. }
  cbn [fst snd]. split_and!; [done|simpl; by rewrite lookup_insert_eq|].
  intros dt.
  assert (redis_lookup
            (tick dt (set_redis (<[LOCK_KEY_TPL trip (Some seat) := Entry uuid None]> (redis w)) w))
            (LOCK_KEY_TPL trip (Some seat)) = Some uuid) as Hl.
  { rewrite redis_lookup_tick_eq. simpl. by rewrite lookup_insert_eq. }
  split; [done|]. intros uuid' ttl' Hpos'.
  by apply (exec_create_lock_held _ _ _ _ uuid).
Qed.

Lemma lock_without_ttl_witness :
  (exec (create_lock "tokA" (mkLockReq 1 3 None)) demo_world).2 = Raise (Err TypeError)
  ∧ redis (exec (create_lock "tokA" (mkLockReq 1 3 None)) demo_world).1
      !! LOCK_KEY_TPL 1 (Some 3) = Some (Entry "tokA" None)
  ∧ ∀ dt,
      redis_lookup (tick dt (exec (create_lock "tokA" (mkLockReq 1 3 None)) demo_world).1)
        (LOCK_KEY_TPL 1 (Some 3)) = Some "tokA"
      ∧ ∀ uuid' ttl', 0 < ttl' →
          exec (create_lock uuid' (mkLockReq 1 3 (Some ttl')))
            (tick dt (exec (create_lock "tokA" (mkLockReq 1 3 None)) demo_world).1)
          = (tick dt (exec (create_lock "tokA" (mkLockReq 1 3 None)) demo_world).1,
             already_locked).
Proof.
  apply (lock_without_ttl_never_expires 1 3 "tokA" demo_world).
  - reflexivity.
  - vm_compute; reflexivity.
Defined.

(** ** Confirming *)

Lemma uq_trip_seat_ok_free req (bs : gmap Z Booking) :
  (∀ i b, bs !! i = Some b →
          ¬ (trip_id b = cf_trip_id req ∧ seat_id b = Some (cf_seat_id req))) →
  uq_trip_seat_ok (confirmed_row req) bs = true.
Proof.
  intros Hfree. apply bool_decide_eq_true_2. intros i b Hb (Ht & Hs & _).
  by apply (Hfree i b Hb).
Qed.

Lemma exec_confirm_booking_commits req w t :
  redis_up w = true → ledger_up w = true →
  redis_lookup w (LOCK_KEY_TPL (cf_trip_id req) (Some (cf_seat_id req))) = Some (cf_token req) →
  trips (ledger w) !! cf_trip_id req = Some t → 0 < seats_available t →
  fk_nullable (cf_user_id req) (users (ledger w)) = true →
  cf_seat_id req ∈ seats (ledger w) →
  (∀ i b, bookings (ledger w) !! i = Some b →
          ¬ (trip_id b = cf_trip_id req ∧ seat_id b = Some (cf_seat_id req))) →
  let bid := nextval (bookings_id_seq w) (bookings (ledger w)) in
  exec (confirm_booking req) w
  = (set_ledger (committed bid req t (ledger w))
       (set_bookings_id_seq bid
          (set_redis (delete (LOCK_KEY_TPL (cf_trip_id req) (Some (cf_seat_id req))) (redis w))
             w)),
     Ok (BookingResponse bid (cf_trip_id req) (Some (cf_seat_id req)) "confirmed")).
Proof.
  intros Hup Hlup Hheld Ht Hseats Huser Hseat Hrow bid. subst bid.
  rewrite exec_confirm_booking, Hup, bool_decide_eq_true_2 by done. simpl andb. cbv iota.
  rewrite exec_confirm_commit.
  rewrite (confirm_transaction_commits req t) by done.
  unfold confirm_respond, refresh_booking. simpl. rewrite Hlup, lookup_insert_eq. done.
Qed.

(** X5. Lock, then confirm.  From a state where the seat has no live
    lease and no booking row, the trip has a seat left and the user and
    the seat exist: the lock, for a positive ttl whose expiry is a date,
    is granted; the confirm with the granted token answers the new
    booking as confirmed, under the id drawn from the sequence of
    [bookings.id], which no row had and which is past every id drawn
    before; the trip's counter is one lower, the lease is gone, and the
    token cannot be used again. *)
Theorem lock_then_confirm_books_the_seat
    (trip seat ttl : Z) (uuid : string) (user : option Z) (w : World) (t : Trip) :
  redis_up w = true → ledger_up w = true →
  0 < ttl → now w + ttl ≤ DATETIME_MAX →
  redis_lookup w (LOCK_KEY_TPL trip (Some seat)) = None →
  trips (ledger w) !! trip = Some t → 0 < seats_available t →
  fk_nullable user (users (ledger w)) = true → seat ∈ seats (ledger w) →
  (∀ i b, bookings (ledger w) !! i = Some b → ¬ (trip_id b = trip ∧ seat_id b = Some seat)) →
  let req := mkConfirmReq trip seat uuid user in
  let w1 := (exec (create_lock uuid (mkLockReq trip seat (Some ttl))) w).1 in
  let w2 := (exec (confirm_booking req) w1).1 in
  let bid := nextval (bookings_id_seq w) (bookings (ledger w)) in
  (exec (create_lock uuid (mkLockReq trip seat (Some ttl))) w).2
  = Ok (LockSeatResponse uuid (now w + ttl))
  ∧ (exec (confirm_booking req) w1).2
    = Ok (BookingResponse bid trip (Some seat) "confirmed")
  ∧ bookings_id_seq w < bid ∧ bookings (ledger w) !! bid = None
  ∧ bookings_id_seq w2 = bid
  ∧ ledger w2 = committed bid req t (ledger w)
  ∧ trips (ledger w2) !! trip = Some (mkTrip (seats_available t - 1))
  ∧ bookings (ledger w2) !! bid = Some (mkBooking user trip (Some seat) "confirmed")
  ∧ redis_lookup w2 (LOCK_KEY_TPL trip (Some seat)) = None
  ∧ exec (confirm_booking req) w2 = (w2, invalid_or_expired).
Proof.
  intros Hup Hlup Hpos Hmax Hfree Ht Hseats Huser Hseat Hrow req w1 w2 bid.
  subst w2 w1 bid. rewrite exec_create_lock_granted by done. cbn [fst snd].
  split; [done|].
  set (w1 := set_redis _ w).
  rewrite (exec_confirm_booking_commits req w1 t); try done;
    [|apply (redis_lookup_live _ _ _ (now w + ttl)); simpl; [by rewrite lookup_insert_eq|lia]].
  cbn [fst snd]. split_and!; try done.
  - apply nextval_gt.
  - apply nextval_fresh.
  - simpl. by rewrite lookup_insert_eq.
  - simpl. by rewrite lookup_insert_eq.
  - unfold redis_lookup. simpl. by rewrite lookup_delete_eq.
  - apply exec_confirm_without_lease. unfold redis_lookup. simpl.
    by rewrite lookup_delete_eq.
Qed.

(** On the instance where a second confirm for seat 3 has been refused:
    the id 2 was drawn for the refused row, and the booking of seat 4 is
    answered as booking 3. *)
Lemma lock_then_confirm_witness :
  let w := demo_refused in
  let req := mkConfirmReq 1 4 "tokC" (Some 8) in
  let w1 := (exec (create_lock "tokC" (mkLockReq 1 4 (Some 60))) w).1 in
  let w2 := (exec (confirm_booking req) w1).1 in
  (exec (create_lock "tokC" (mkLockReq 1 4 (Some 60))) w).2
  = Ok (LockSeatResponse "tokC" 1060)
  ∧ (exec (confirm_booking req) w1).2 = Ok (BookingResponse 3 1 (Some 4) "confirmed")
  ∧ bookings_id_seq w < 3 ∧ bookings (ledger w) !! 3 = None
  ∧ bookings_id_seq w2 = 3
  ∧ ledger w2 = committed 3 req (mkTrip 1) (ledger w)
  ∧ trips (ledger w2) !! 1 = Some (mkTrip (seats_available (mkTrip 1) - 1))
  ∧ bookings (ledger w2) !! 3 = Some (mkBooking (Some 8) 1 (Some 4) "confirmed")
  ∧ redis_lookup w2 (LOCK_KEY_TPL 1 (Some 4)) = None
  ∧ exec (confirm_booking req) w2 = (w2, invalid_or_expired).
Proof.
  apply (lock_then_confirm_books_the_seat 1 4 60 "tokC" (Some 8) demo_refused (mkTrip 1)).
  - reflexivity.
  - reflexivity.
  - lia.
  - vm_compute. discriminate.
  - vm_compute; reflexivity.
  - vm_compute; reflexivity.
  - simpl; lia.
  - vm_compute; reflexivity.
  - simpl. set_solver.
  - intros i b Hb [_ Hs].
    assert (bookings (ledger demo_refused)
            = {[ 1 := mkBooking (Some 7) 1 (Some 3) "confirmed" ]}) as Hbs
      by (vm_compute; reflexivity).
    rewrite Hbs in Hb. apply lookup_singleton_Some in Hb as [_ <-]. discriminate Hs.
Defined.

(** X6. A confirm that presents the live token uses the lease up whatever
    the transaction does.  The key is deleted before the transaction;
    when the handler then raises (no seat left, a row for the seat, the
    ledger unreachable) the ledger is as before but the lease is not
    given back, and a retry with the same token is refused with 409
    "Invalid or expired lock token". *)
Theorem confirm_uses_up_lease (req : ConfirmBookingRequest) (w : World) :
  redis_up w = true →
  redis_lookup w (LOCK_KEY_TPL (cf_trip_id req) (Some (cf_seat_id req))) = Some (cf_token req) →
  let key := LOCK_KEY_TPL (cf_trip_id req) (Some (cf_seat_id req)) in
  let w' := (exec (confirm_booking req) w).1 in
  redis w' = delete key (redis w)
  ∧ redis_lookup w' key = None
  ∧ (∀ e, (exec (confirm_booking req) w).2 = Raise e →
          ledger w' = ledger w ∧ e ≠ Err IntegrityError)
  ∧ exec (confirm_booking req) w' = (w', invalid_or_expired).
Proof.
  intros Hup Hheld key w'. subst w' key.
  rewrite exec_confirm_booking, Hup, bool_decide_eq_true_2 by done. simpl andb. cbv iota.
  set (w0 := set_redis _ w).
  assert (redis (exec (confirm_commit req) w0).1 = redis w0
          ∧ ∀ e, (exec (confirm_commit req) w0).2 = Raise e →
                 ledger (exec (confirm_commit req) w0).1 = ledger w
                 ∧ e ≠ Err IntegrityError) as [Hr Hl].
  { destruct (exec_confirm_commit_cases req w0)
      as [(t' & _ & _ & _ & _ & _ & Heq)|(w1 & e & Heq & Hne & Hw1)];
      rewrite Heq; simpl.
    - split; [done|]. intros e [=].
    - split; [by destruct Hw1 as [-> | ->]|].
      intros e' [= <-]. by destruct Hw1 as [-> | ->]. }
  assert (redis_lookup (exec (confirm_commit req) w0).1
            (LOCK_KEY_TPL (cf_trip_id req) (Some (cf_seat_id req))) = None) as Hnone.
  { unfold redis_lookup. rewrite Hr. simpl. by rewrite lookup_delete_eq. }
  split_and!; try done.
  apply exec_confirm_without_lease. by rewrite Hnone.
Qed.

Lemma confirm_uses_up_lease_witness :
  redis (exec (confirm_booking (mkConfirmReq 1 3 "tokA" (Some 99))) demo_locked).1
  = delete (LOCK_KEY_TPL 1 (Some 3)) (redis demo_locked)
  ∧ redis_lookup (exec (confirm_booking (mkConfirmReq 1 3 "tokA" (Some 99))) demo_locked).1
      (LOCK_KEY_TPL 1 (Some 3)) = None
  ∧ (∀ e, (exec (confirm_booking (mkConfirmReq 1 3 "tokA" (Some 99))) demo_locked).2 = Raise e →
          ledger (exec (confirm_booking (mkConfirmReq 1 3 "tokA" (Some 99))) demo_locked).1
          = ledger demo_locked ∧ e ≠ Err IntegrityError)
  ∧ exec (confirm_booking (mkConfirmReq 1 3 "tokA" (Some 99)))
      (exec (confirm_booking (mkConfirmReq 1 3 "tokA" (Some 99))) demo_locked).1
    = ((exec (confirm_booking (mkConfirmReq 1 3 "tokA" (Some 99))) demo_locked).1,
       invalid_or_expired).
Proof.
  apply (confirm_uses_up_lease (mkConfirmReq 1 3 "tokA" (Some 99)) demo_locked).
  - reflexivity.
  - vm_compute; reflexivity.
Defined.

Lemma booking_sent_int4 req d :
  is_Some (trips d !! cf_trip_id req) →
  (∀ u, cf_user_id req = Some u → int4 u = true) → int4 (cf_seat_id req) = true →
  booking_sent (confirmed_row req) d = true.
Proof.
  intros Ht Hu Hs. unfold booking_sent, sent_nullable; simpl.
  rewrite (bool_decide_eq_true_2 _ Ht), Hs, orb_true_r. simpl.
  destruct (cf_user_id req) as [u|]; [|done]. by rewrite (Hu u), orb_true_r.
Qed.

Lemma booking_sent_out_of_range req d :
  (∃ u, cf_user_id req = Some u ∧ (u ∉ users d) ∧ int4 u = false)
  ∨ ((cf_seat_id req ∉ seats d) ∧ int4 (cf_seat_id req) = false) →
  booking_sent (confirmed_row req) d = false.
Proof.
  unfold booking_sent, sent_nullable; simpl.
  intros [(u & -> & Hu & Hr)|[Hs Hr]].
  - by rewrite (bool_decide_eq_false_2 _ Hu), Hr.
  - by rewrite (bool_decide_eq_false_2 _ Hs), Hr, andb_false_r.
Qed.

(** X7. Every IntegrityError of the confirm transaction is reported as a
    double booking.  With a live lease and a seat left, a request whose
    user or seat does not exist violates a foreign key of [bookings].
    When the user and the seat are integers of the range of their
    columns, the handler answers 409 "Seat already booked" although no
    booking holds the seat, rolls the decrement back and has used up the
    lease and an id of the sequence.  When the missing user or seat is
    past that range the INSERT is not sent: the handler raises
    DBAPIError, which it does not catch, again with the decrement rolled
    back and the lease used up. *)
Theorem unknown_user_or_seat_reported_as_booked
    (req : ConfirmBookingRequest) (w : World) (t : Trip) :
  redis_up w = true → ledger_up w = true →
  redis_lookup w (LOCK_KEY_TPL (cf_trip_id req) (Some (cf_seat_id req))) = Some (cf_token req) →
  trips (ledger w) !! cf_trip_id req = Some t → 0 < seats_available t →
  fk_nullable (cf_user_id req) (users (ledger w)) = false
  ∨ cf_seat_id req ∉ seats (ledger w) →
  let w0 :=
    set_redis (delete (LOCK_KEY_TPL (cf_trip_id req) (Some (cf_seat_id req))) (redis w)) w in
  ((∀ u, cf_user_id req = Some u → int4 u = true) → int4 (cf_seat_id req) = true →
   exec (confirm_booking req) w
   = (set_bookings_id_seq (nextval (bookings_id_seq w) (bookings (ledger w))) w0,
      already_booked))
  ∧ ((∃ u, cf_user_id req = Some u ∧ (u ∉ users (ledger w)) ∧ int4 u = false)
     ∨ ((cf_seat_id req ∉ seats (ledger w)) ∧ int4 (cf_seat_id req) = false) →
     exec (confirm_booking req) w = (w0, Raise (Err DBAPIError))).
Proof.
  intros Hup Hlup Hheld Ht Hseats Hfk w0. subst w0.
  rewrite exec_confirm_booking, Hup, bool_decide_eq_true_2 by done. simpl andb. cbv iota.
  rewrite exec_confirm_commit, confirm_transaction_eq.
  cbn [ledger_up ledger set_redis bookings_id_seq].
  rewrite Hlup, Ht. apply Z.ltb_lt in Hseats. rewrite Hseats. cbn zeta.
  split.
  - intros Hu Hs. rewrite booking_sent_int4 by done. cbn [negb].
    assert (booking_fks_ok (confirmed_row req) (decremented (cf_trip_id req) t (ledger w))
            = false) as ->; [|done].
    unfold booking_fks_ok. simpl. destruct Hfk as [->|Hseat]; [done|].
    rewrite (bool_decide_eq_false_2 _ Hseat). by rewrite andb_false_r.
  - intros Hout. by rewrite booking_sent_out_of_range.
Qed.

Lemma unknown_user_witness :
  let req := mkConfirmReq 1 3 "tokA" (Some 99) in
  let w0 := set_redis (delete (LOCK_KEY_TPL 1 (Some 3)) (redis demo_locked)) demo_locked in
  exec (confirm_booking req) demo_locked = (set_bookings_id_seq 1 w0, already_booked)
  ∧ exec (confirm_booking (mkConfirmReq 1 3 "tokA" (Some 2147483648))) demo_locked
    = (w0, Raise (Err DBAPIError)).
Proof.
  split.
  - apply (proj1 (unknown_user_or_seat_reported_as_booked
                    (mkConfirmReq 1 3 "tokA" (Some 99)) demo_locked (mkTrip 1)
                    eq_refl eq_refl eq_refl eq_refl eq_refl (or_introl eq_refl))).
    + intros u Hu. by injection Hu as <-.
    + reflexivity.
  - apply (proj2 (unknown_user_or_seat_reported_as_booked
                    (mkConfirmReq 1 3 "tokA" (Some 2147483648)) demo_locked (mkTrip 1)
                    eq_refl eq_refl eq_refl eq_refl eq_refl (or_introl eq_refl))).
    left. exists 2147483648. split_and!; [done| |reflexivity].
    change (2147483648 ∉ ({[ 7; 8 ]} : gset Z)).
    rewrite not_elem_of_union, !not_elem_of_singleton. lia.
Defined.

(** ** Providers and signatures *)

Lemma get_adapter_Ok name ad : get_adapter name = Ok ad ↔ lower name = provider_name ad.
Proof.
  unfold get_adapter.
  destruct (String.eqb (lower name) "flutterwave") eqn:H1;
    [apply String.eqb_eq in H1|apply String.eqb_neq in H1].
  { rewrite H1. destruct ad; simpl; split; intros; congruence. }
  destruct (String.eqb (lower name) "mtn") eqn:H2;
    [apply String.eqb_eq in H2|apply String.eqb_neq in H2].
  { rewrite H2. destruct ad; simpl; split; intros; congruence. }
  destruct (String.eqb (lower name) "airtel") eqn:H3;
    [apply String.eqb_eq in H3|apply String.eqb_neq in H3].
  { rewrite H3. destruct ad; simpl; split; intros; congruence. }
  destruct ad; simpl; split; intros; congruence.
Qed.

Lemma get_adapter_unknown name :
  (∀ ad, lower name ≠ provider_name ad) → get_adapter name = Raise (Err PaymentError).
Proof.
  intros Hno. unfold get_adapter.
  pose proof (Hno FlutterwaveAdapter) as H1. pose proof (Hno MTNAdapter) as H2.
  pose proof (Hno AirtelAdapter) as H3. simpl in H1, H2, H3.
  apply String.eqb_neq in H1, H2, H3. by rewrite H1, H2, H3.
Qed.

Section Providers.

Variable hmac_sha256_hexdigest : string → string → string.
Variable json_loads : string → option Body.
Variables FLUTTERWAVE_SECRET MTN_SECRET AIRTEL_SECRET : string.

Local Abbreviation secret_of := (get_secret FLUTTERWAVE_SECRET MTN_SECRET AIRTEL_SECRET).
Local Abbreviation verify :=
  (verify_signature hmac_sha256_hexdigest FLUTTERWAVE_SECRET MTN_SECRET AIRTEL_SECRET).
Local Abbreviation webhook :=
  (payment_webhook hmac_sha256_hexdigest json_loads FLUTTERWAVE_SECRET MTN_SECRET AIRTEL_SECRET).

(** X8. The signature check.  With an empty secret, the default of the
    settings, every delivery to that provider is answered 400 "Invalid
    signature", whatever it carries.  With a secret set, the handler
    compares the hex HMAC-SHA256 of the body under the secret with the
    x-signature header (or, when that one is absent or empty, with
    x-flutterwave-signature): a header with a character outside ASCII
    makes [hmac.compare_digest] raise TypeError, which the handler does
    not catch, and an ASCII header that differs from the digest is
    answered 400 "Invalid signature".  Nothing is read or written in any
    of these cases. *)
Theorem webhook_needs_configured_secret (provider : string) (ad : adapter) :
  get_adapter provider = Ok ad →
  (∀ key msg, is_ascii (hmac_sha256_hexdigest key msg) = true) →
  (secret_of ad = "" →
   ∀ request w, exec (webhook provider request) w = (w, invalid_signature))
  ∧ (secret_of ad ≠ "" →
     ∀ request w,
       (is_ascii (sig_header (lower_headers (headers request))) = false →
        exec (webhook provider request) w = (w, Raise (Err TypeError)))
       ∧ (is_ascii (sig_header (lower_headers (headers request))) = true →
          sig_header (lower_headers (headers request))
          ≠ hmac_sha256_hexdigest (secret_of ad) (body request) →
          exec (webhook provider request) w = (w, invalid_signature))).
Proof.
  intros Had Hhex. split.
  - intros Hempty request w. unfold payment_webhook, verify_signature.
    by rewrite Had, Hempty.
  - intros Hset request w. apply String.eqb_neq in Hset.
    unfold payment_webhook, verify_signature, compare_digest.
    rewrite Had, Hset, Hhex. cbn [andb]. split.
    + by intros ->.
    + intros -> Hne. apply not_eq_sym, String.eqb_neq in Hne. by rewrite Hne.
Qed.

(** X9. Providers are looked up by their lower-cased name, and only
    flutterwave, mtn and airtel exist.  For any other name both payment
    endpoints raise PaymentError, which is not an HTTPException, before
    they read or write anything. *)
Theorem unknown_provider_raises_payment_error (name : string) :
  (∀ ad, get_adapter name = Ok ad ↔ lower name = provider_name ad)
  ∧ ((∀ ad, lower name ≠ provider_name ad) →
     (∀ request w, exec (webhook name request) w = (w, Raise (Err PaymentError)))
     ∧ (∀ hex bid amount currency w,
          exec (initiate_payment hex (mkInitiateReq bid amount currency name)) w
          = (w, Raise (Err PaymentError)))).
Proof.
  split; [intros ad; apply get_adapter_Ok|].
  intros Hno. pose proof (get_adapter_unknown name Hno) as Hg. split.
  - intros request w. unfold payment_webhook. by rewrite Hg.
  - intros hex bid amount currency w. unfold initiate_payment. simpl. by rewrite Hg.
Qed.

End Providers.

(** MTN with the empty secret of the default settings; Airtel, whose
    secret is set, with a signature header holding the character 233,
    and with the header "bad". *)
Lemma webhook_needs_configured_secret_witness :
  exec (demo_webhook "MTN" (demo_request "first")) demo_paying
  = (demo_paying, invalid_signature)
  ∧ exec (demo_webhook "airtel"
            (mkRequest [("X-Signature", String (Ascii.ascii_of_N 233) "")] "first"))
      demo_paying
    = (demo_paying, Raise (Err TypeError))
  ∧ exec (demo_webhook "airtel" (mkRequest [("X-Signature", "bad")] "first")) demo_paying
    = (demo_paying, invalid_signature).
Proof.
  split_and!.
  - apply (proj1 (webhook_needs_configured_secret demo_hmac demo_json_loads
                    "" "" "secret" "MTN" MTNAdapter eq_refl (λ _ _, eq_refl))).
    reflexivity.
  - apply (proj2 (webhook_needs_configured_secret demo_hmac demo_json_loads
                    "" "" "secret" "airtel" AirtelAdapter eq_refl (λ _ _, eq_refl))).
    + discriminate.
    + reflexivity.
  - apply (proj2 (webhook_needs_configured_secret demo_hmac demo_json_loads
                    "" "" "secret" "airtel" AirtelAdapter eq_refl (λ _ _, eq_refl))).
    + discriminate.
    + reflexivity.
    + discriminate.
Defined.

Lemma unknown_provider_witness :
  (∀ request w, exec (demo_webhook "paypal" request) w = (w, Raise (Err PaymentError)))
  ∧ (∀ hex bid amount currency w,
       exec (initiate_payment hex (mkInitiateReq bid amount currency "paypal")) w
       = (w, Raise (Err PaymentError))).
Proof.
  apply (proj2 (unknown_provider_raises_payment_error demo_hmac demo_json_loads
                  "" "" "secret" "paypal")).
  intros []; discriminate.
Defined.

(** ** Webhook deliveries, continued *)

(** What a delivery run alone leaves in Redis and on the clock. *)
Lemma marker_after_delivery provider eid st ref w :
  redis_up w = true →
  redis_lookup w (IDEMPOTENCY_KEY_TPL provider eid) = None →
  redis_up (exec (webhook_check provider eid st ref) w).1 = true
  ∧ now (exec (webhook_check provider eid st ref) w).1 = now w
  ∧ redis (exec (webhook_check provider eid st ref) w).1 !! IDEMPOTENCY_KEY_TPL provider eid
    = Some (Entry "1" (Some (now w + 86400))).
Proof.
  intros Hup Hfree. rewrite exec_webhook_check, Hup, Hfree, exec_webhook_apply. cbn [fst].
  destruct (webhook_transaction_frame provider st ref (marked provider eid w))
    as (Hru & _ & Hnow & Hk).
  rewrite Hru, Hnow, Hk.
  - split_and!; [done..|]. simpl. by rewrite lookup_insert_eq.
  - intros tid sid Heq. by apply (lock_key_ne_idempotency_key tid sid provider eid).
Qed.

Section Deliveries.

Variable hmac_sha256_hexdigest : string → string → string.
Variable json_loads : string → option Body.
Variables FLUTTERWAVE_SECRET MTN_SECRET AIRTEL_SECRET : string.

Local Abbreviation webhook :=
  (payment_webhook hmac_sha256_hexdigest json_loads FLUTTERWAVE_SECRET MTN_SECRET AIRTEL_SECRET).
Local Abbreviation accepts :=
  (accepted hmac_sha256_hexdigest json_loads FLUTTERWAVE_SECRET MTN_SECRET AIRTEL_SECRET).

(** X10. The marker of an event is kept for 86400 seconds.  After a first
    delivery has been served, a redelivery of the event less than a day
    later is acknowledged without any effect; a redelivery a day later or
    more no longer finds the marker, sets it again and runs the
    transaction again. *)
Theorem marker_lives_for_a_day
    (provider : string) (request : Request) (eid : string) (st ref : option jval)
    (w : World) :
  accepts provider request eid st ref →
  redis_up w = true →
  redis_lookup w (IDEMPOTENCY_KEY_TPL provider eid) = None →
  let w1 := (exec (webhook provider request) w).1 in
  ∀ dt,
    (Z.of_N dt < 86400 →
       exec (webhook provider request) (tick dt w1) = (tick dt w1, Ok (WebhookAck true)))
    ∧ (86400 ≤ Z.of_N dt →
       redis_lookup (tick dt w1) (IDEMPOTENCY_KEY_TPL provider eid) = None
       ∧ exec (webhook provider request) (tick dt w1)
         = exec (webhook_apply provider st ref) (marked provider eid (tick dt w1))).
Proof.
  intros Hacc Hup Hfree w1 dt. subst w1.
  rewrite (payment_webhook_accepted _ _ _ _ _ _ _ _ _ _ Hacc).
  destruct (marker_after_delivery provider eid st ref w Hup Hfree) as (Hup1 & Hnow & Hk).
  set (w1 := (exec (webhook_check provider eid st ref) w).1) in *.
  assert (redis_lookup (tick dt w1) (IDEMPOTENCY_KEY_TPL provider eid)
          = if bool_decide (now w + Z.of_N dt < now w + 86400) then Some "1" else None) as Hl.
  { rewrite redis_lookup_tick_eq, Hk, Hnow. done. }
  assert (redis_up (tick dt w1) = true) as Hupt by done.
  split; intros Hdt.
  - rewrite bool_decide_eq_true_2 in Hl by lia.
    by rewrite exec_webhook_check, Hupt, Hl.
  - rewrite bool_decide_eq_false_2 in Hl by lia.
    by rewrite exec_webhook_check, Hupt, Hl.
Qed.

End Deliveries.

(** The failed event "evt1" again after ten seconds, and after a day. *)
Lemma marker_lives_for_a_day_witness :
  exec (demo_webhook "airtel" (demo_request "first"))
    (tick 10 (exec (demo_webhook "airtel" (demo_request "first")) demo_paying).1)
  = (tick 10 (exec (demo_webhook "airtel" (demo_request "first")) demo_paying).1,
     Ok (WebhookAck true))
  ∧ redis_lookup (tick 86400 (exec (demo_webhook "airtel" (demo_request "first")) demo_paying).1)
      (IDEMPOTENCY_KEY_TPL "airtel" "evt1") = None
  ∧ exec (demo_webhook "airtel" (demo_request "first"))
      (tick 86400 (exec (demo_webhook "airtel" (demo_request "first")) demo_paying).1)
    = exec (webhook_apply "airtel" (Some (JStr "failed")) (Some (JStr demo_ref)))
        (marked "airtel" "evt1"
           (tick 86400 (exec (demo_webhook "airtel" (demo_request "first")) demo_paying).1)).
Proof.
  assert (accepted demo_hmac demo_json_loads "" "" "secret" "airtel" (demo_request "first")
            "evt1" (Some (JStr "failed")) (Some (JStr demo_ref))) as Hacc.
  { exists AirtelAdapter, (JStr "evt1"). vm_compute. repeat split; reflexivity. }
  assert (redis_lookup demo_paying (IDEMPOTENCY_KEY_TPL "airtel" "evt1") = None) as Hfree
    by (vm_compute; reflexivity).
  split.
  - apply (marker_lives_for_a_day demo_hmac demo_json_loads "" "" "secret"
             "airtel" (demo_request "first") "evt1" (Some (JStr "failed"))
             (Some (JStr demo_ref)) demo_paying Hacc eq_refl Hfree 10%N).
    simpl; lia.
  - apply (marker_lives_for_a_day demo_hmac demo_json_loads "" "" "secret"
             "airtel" (demo_request "first") "evt1" (Some (JStr "failed"))
             (Some (JStr demo_ref)) demo_paying Hacc eq_refl Hfree 86400%N).
    simpl; lia.
Defined.

(** The transaction on a success event that reaches a booking, in closed
    form: the payment takes the status and the booking becomes paid. *)
Lemma webhook_transaction_success prov s ref w pid pay b :
  ledger_up w = true →
  payment_by_ref (py_str <$> ref) (ledger w) = Some (pid, pay) →
  lower s ∈ success_statuses →
  booking_id pay ≠ 0 → bookings (ledger w) !! booking_id pay = Some b →
  webhook_transaction prov (Some (JStr s)) ref w =
    (set_ledger
       (mkDB (users (ledger w)) (seats (ledger w)) (trips (ledger w))
          (alter (with_status "paid") (booking_id pay) (bookings (ledger w)))
          (alter (λ p, mkPayment (booking_id p) (provider p) (provider_ref p) s)
             pid (payments (ledger w)))) w,
     Ok tt).
Proof.
  intros Hup Hpay Hs Hbid Hb.
  pose proof (success_nonempty s Hs) as Hne.
  unfold webhook_transaction, db_begin, webhook_body, bind, select_payment_by_ref.
  rewrite Hup, Hpay, lcstatus_of_text. unfold ret at 1.
  rewrite (bool_decide_eq_true_2 _ Hs).
  rewrite flush_payment_status_text, set_payment_status_fits
    by (done || by apply varchar_success).
  unfold locate_booking, select_booking. apply Z.eqb_neq in Hbid. rewrite Hbid.
  cbn [ledger set_ledger bookings with_payments]. rewrite Hb.
  unfold set_booking_status. by destruct w.
Qed.

(** The transaction on an event whose status is a text that is neither a
    success nor a failure: only the payment row can change, when the
    column takes the status. *)
Lemma webhook_transaction_other prov s ref w pid pay :
  ledger_up w = true →
  payment_by_ref (py_str <$> ref) (ledger w) = Some (pid, pay) →
  lower s ∉ success_statuses → lower s ∉ failed_statuses →
  webhook_transaction prov (Some (JStr s)) ref w =
    if String.eqb s "" then (w, Ok tt)
    else match varchar 50 s with
         | Some s' =>
             (set_ledger
                (with_payments
                   (alter (λ p, mkPayment (booking_id p) (provider p) (provider_ref p) s')
                      pid (payments (ledger w))) (ledger w)) w,
              Ok tt)
         | None => (w, Raise (Err DBAPIError))
         end.
Proof.
  intros Hup Hpay Hs Hf.
  unfold webhook_transaction, db_begin, webhook_body, bind, select_payment_by_ref.
  rewrite Hup, Hpay, lcstatus_of_text. unfold ret at 1.
  rewrite (bool_decide_eq_false_2 _ Hs), (bool_decide_eq_false_2 _ Hf).
  destruct (String.eqb s "") eqn:He.
  - apply String.eqb_eq in He as ->. done.
  - apply String.eqb_neq in He. rewrite flush_payment_status_text by done.
    unfold set_payment_status. destruct (varchar 50 s); [done|]. by rewrite set_ledger_id.
Qed.

(** The transaction for a reference that no payment row carries. *)
Lemma webhook_transaction_unmatched prov st ref w :
  payment_by_ref (py_str <$> ref) (ledger w) = None →
  ∃ e, webhook_transaction prov st ref w = (w, Raise (Err e)).
Proof.
  intros Hpay. unfold_webhook_transaction.
  destruct w as [r ru d du now0 sb sp]; simpl in *.
  destruct du; [|by eexists]. rewrite Hpay.
  destruct (py_or st (Some (JStr ""))) as [[s|z|tr tx]|]; simpl; by eexists.
Qed.


Section Outcomes.

Variable hmac_sha256_hexdigest : string → string → string.
Variable json_loads : string → option Body.
Variables FLUTTERWAVE_SECRET MTN_SECRET AIRTEL_SECRET : string.

Local Abbreviation webhook :=
  (payment_webhook hmac_sha256_hexdigest json_loads FLUTTERWAVE_SECRET MTN_SECRET AIRTEL_SECRET).
Local Abbreviation accepts :=
  (accepted hmac_sha256_hexdigest json_loads FLUTTERWAVE_SECRET MTN_SECRET AIRTEL_SECRET).
Local Abbreviation verify :=
  (verify_signature hmac_sha256_hexdigest FLUTTERWAVE_SECRET MTN_SECRET AIRTEL_SECRET).

(** X11. A first delivery with a success status whose payment leads to a
    booking: the handler acknowledges, the booking becomes paid whatever
    its status was (a cancelled one included), the payment row takes the
    status as sent, no other booking and no trip changes, and Redis only
    gains the marker of the event. *)
Theorem successful_payment_marks_booking_paid
    (prov : string) (request : Request) (eid s : string) (ref : option jval)
    (w : World) (pid : Z) (pay : Payment) (b : Booking) :
  accepts prov request eid (Some (JStr s)) ref →
  lower s ∈ success_statuses →
  redis_up w = true → ledger_up w = true →
  redis_lookup w (IDEMPOTENCY_KEY_TPL prov eid) = None →
  payment_by_ref (py_str <$> ref) (ledger w) = Some (pid, pay) →
  booking_id pay ≠ 0 → bookings (ledger w) !! booking_id pay = Some b →
  let w' := (exec (webhook prov request) w).1 in
  (exec (webhook prov request) w).2 = Ok (WebhookAck true)
  ∧ bookings (ledger w') !! booking_id pay = Some (with_status "paid" b)
  ∧ (∀ bid, bid ≠ booking_id pay → bookings (ledger w') !! bid = bookings (ledger w) !! bid)
  ∧ trips (ledger w') = trips (ledger w)
  ∧ pay_status <$> payments (ledger w') !! pid = Some s
  ∧ redis w' = redis (marked prov eid w).
Proof.
  intros Hacc Hs Hup Hlup Hfree Hpay Hbid Hb w'. subst w'.
  rewrite (payment_webhook_accepted _ _ _ _ _ _ _ _ _ _ Hacc).
  rewrite exec_webhook_check, Hup, Hfree, exec_webhook_apply.
  rewrite (webhook_transaction_success prov s ref _ pid pay b) by done.
  destruct (payment_by_ref_Some _ _ _ _ Hpay) as [Hpid _].
  cbn [fst snd webhook_answer]. split_and!; try done; simpl.
  - by rewrite lookup_alter_eq, Hb.
  - intros bid Hne. by rewrite lookup_alter_ne.
  - by rewrite lookup_alter_eq, Hpid.
Qed.

(** X12. A first delivery whose status is a text that is neither in the
    success list nor in the failed list ("pending", or empty), for a
    payment that exists.  When the status has at most 50 characters,
    none of them NUL, the handler acknowledges and only the payment row
    changes; it takes the status as sent, or keeps its own when the
    status is empty.  When the column VARCHAR(50) refuses the status,
    the delivery is answered 500 and the payment is as before.  Bookings
    and trips are as before in both cases. *)
Theorem unrecognised_status_only_updates_payment
    (prov : string) (request : Request) (eid s : string) (ref : option jval)
    (w : World) (pid : Z) (pay : Payment) :
  accepts prov request eid (Some (JStr s)) ref →
  lower s ∉ success_statuses → lower s ∉ failed_statuses →
  redis_up w = true → ledger_up w = true →
  redis_lookup w (IDEMPOTENCY_KEY_TPL prov eid) = None →
  payment_by_ref (py_str <$> ref) (ledger w) = Some (pid, pay) →
  let w' := (exec (webhook prov request) w).1 in
  ((String.length s ≤ 50)%nat → all_chars not_nul s = true →
   (exec (webhook prov request) w).2 = Ok (WebhookAck true)
   ∧ bookings (ledger w') = bookings (ledger w)
   ∧ trips (ledger w') = trips (ledger w)
   ∧ payments (ledger w') !! pid
     = Some (mkPayment (booking_id pay) (provider pay) (provider_ref pay)
               (if String.eqb s "" then pay_status pay else s))
   ∧ (∀ i, i ≠ pid → payments (ledger w') !! i = payments (ledger w) !! i)
   ∧ redis w' = redis (marked prov eid w))
  ∧ (varchar 50 s = None →
     exec (webhook prov request) w
     = (marked prov eid w, Raise (HTTPException 500 (StrOf (Err DBAPIError))))
     ∧ ledger w' = ledger w).
Proof.
  intros Hacc Hs Hf Hup Hlup Hfree Hpay w'. subst w'.
  rewrite (payment_webhook_accepted _ _ _ _ _ _ _ _ _ _ Hacc).
  rewrite exec_webhook_check, Hup, Hfree, exec_webhook_apply.
  rewrite (webhook_transaction_other prov s ref _ pid pay) by done.
  destruct (payment_by_ref_Some _ _ _ _ Hpay) as [Hpid _].
  split.
  - intros Hlen Hnul. rewrite (varchar_fits 50 s) by done.
    destruct (String.eqb s "") eqn:He; cbn [fst snd webhook_answer].
    + split_and!; try done. simpl. rewrite Hpid. by destruct pay.
    + split_and!; try done; simpl.
      * by rewrite lookup_alter_eq, Hpid.
      * intros i Hne. by rewrite lookup_alter_ne.
  - intros Hno. rewrite Hno.
    destruct (String.eqb s "") eqn:He; [|done].
    apply String.eqb_eq in He as ->. discriminate Hno.
Qed.

(** X13. An event for a reference that no payment row carries is never
    recorded.  The handler builds a payment without booking, which the
    ledger refuses at the commit; the first delivery is answered 500 with
    the ledger as it was and the marker set, and the provider's retry is
    acknowledged without any effect. *)
Theorem unmatched_reference_is_never_recorded
    (prov : string) (request : Request) (eid : string) (st ref : option jval) (w : World) :
  accepts prov request eid st ref →
  redis_up w = true →
  redis_lookup w (IDEMPOTENCY_KEY_TPL prov eid) = None →
  payment_by_ref (py_str <$> ref) (ledger w) = None →
  ∃ exc,
    exec (webhook prov request) w
    = (marked prov eid w, Raise (HTTPException 500 (StrOf (Err exc))))
    ∧ ledger (marked prov eid w) = ledger w
    ∧ exec (webhook prov request) (marked prov eid w)
      = (marked prov eid w, Ok (WebhookAck true)).
Proof.
  intros Hacc Hup Hfree Hpay.
  rewrite (payment_webhook_accepted _ _ _ _ _ _ _ _ _ _ Hacc).
  destruct (webhook_transaction_unmatched prov st ref (marked prov eid w) Hpay) as [exc Htx].
  exists exc. split_and!; [|done|].
  - by rewrite exec_webhook_check, Hup, Hfree, exec_webhook_apply, Htx.
  - by apply exec_webhook_marked.
Qed.


(** X15. A delivery that passes the signature check but carries no event
    id.  A body that is not JSON is read as the empty object.  For a
    JSON object none of whose members id, event_id, tx_id,
    transaction_id is truthy the handler looks under data: when data is
    absent, or is an object whose id and tx_ref are not truthy, it
    answers 400 "Missing event id for idempotency"; when data is
    anything but an object (null, a string, a number, an array) the
    lookup raises AttributeError, which the handler does not catch.  A
    body that is JSON but not an object raises AttributeError at the
    first lookup.  Nothing is read or written in any of these cases. *)
Theorem delivery_without_event_id_is_refused
    (provider : string) (request : Request) (ad : adapter) :
  get_adapter provider = Ok ad →
  verify ad (lower_headers (headers request)) (body request) = Ok true →
  (json_loads (body request) = None →
   ∀ w, exec (webhook provider request) w = (w, missing_event_id))
  ∧ (json_loads (body request) = Some JsonOther →
     ∀ w, exec (webhook provider request) w = (w, Raise (Err AttributeError)))
  ∧ (∀ p, json_loads (body request) = Some (JsonObject p) →
       (∀ k, k ∈ ["id"; "event_id"; "tx_id"; "transaction_id"] →
             truthy (members p !! k) = false) →
       match data p with
       | None => ∀ w, exec (webhook provider request) w = (w, missing_event_id)
       | Some (DataObject d) =>
           truthy (d !! "id") = false → truthy (d !! "tx_ref") = false →
           ∀ w, exec (webhook provider request) w = (w, missing_event_id)
       | Some (DataOther _) =>
           ∀ w, exec (webhook provider request) w = (w, Raise (Err AttributeError))
       end).
Proof.
  intros Had Hsig.
  assert (∀ p, default (JsonObject (mkPayload ∅ None)) (json_loads (body request))
               = JsonObject p →
            (∀ k, k ∈ ["id"; "event_id"; "tx_id"; "transaction_id"] →
                  truthy (members p !! k) = false) →
            match data p with
            | None => ∀ w, exec (webhook provider request) w = (w, missing_event_id)
            | Some (DataObject d) =>
                truthy (d !! "id") = false → truthy (d !! "tx_ref") = false →
                ∀ w, exec (webhook provider request) w = (w, missing_event_id)
            | Some (DataOther _) =>
                ∀ w, exec (webhook provider request) w = (w, Raise (Err AttributeError))
            end) as Hobj.
  { intros p Hp Htop. unfold payment_webhook. rewrite Had, Hsig, Hp.
    unfold extract_event_id, py_or, dict_get, data_or_empty.
    rewrite (Htop "id"), (Htop "event_id"), (Htop "tx_id"), (Htop "transaction_id")
      by set_solver.
    cbn [negb]. destruct (data p) as [[d|tr]|]; [| |done].
    - intros Hid Href w. rewrite Hid. destruct (d !! "tx_ref") as [v|] eqn:Hv; [|done].
      by rewrite Href.
    - done. }
  split_and!.
  - intros Hjson. apply (Hobj (mkPayload ∅ None)); [by rewrite Hjson|].
    intros k _. cbn [members]. by rewrite lookup_empty.
  - intros Hjson w. unfold payment_webhook. by rewrite Had, Hsig, Hjson.
  - intros p Hjson. apply Hobj. by rewrite Hjson.
Qed.

End Outcomes.

(** The success event "evt9" for the payment of booking 1: the booking
    becomes paid. *)
Lemma successful_payment_witness :
  (exec (demo_status_webhook (JStr "success") "airtel" (demo_request "evt9")) demo_paying).2
  = Ok (WebhookAck true)
  ∧ bookings (ledger (exec (demo_status_webhook (JStr "success") "airtel" (demo_request "evt9"))
                        demo_paying).1)
      !! booking_id (mkPayment 1 (Some "airtel") (Some demo_ref) "initiated")
    = Some (with_status "paid" (mkBooking (Some 7) 1 (Some 3) "confirmed"))
  ∧ (∀ bid, bid ≠ booking_id (mkPayment 1 (Some "airtel") (Some demo_ref) "initiated") →
       bookings (ledger (exec (demo_status_webhook (JStr "success") "airtel" (demo_request "evt9"))
                           demo_paying).1) !! bid
       = bookings (ledger demo_paying) !! bid)
  ∧ trips (ledger (exec (demo_status_webhook (JStr "success") "airtel" (demo_request "evt9"))
                     demo_paying).1)
    = trips (ledger demo_paying)
  ∧ pay_status <$> payments (ledger (exec (demo_status_webhook (JStr "success") "airtel"
                                             (demo_request "evt9")) demo_paying).1) !! 1
    = Some "success"
  ∧ redis (exec (demo_status_webhook (JStr "success") "airtel" (demo_request "evt9"))
             demo_paying).1
    = redis (marked "airtel" "evt9" demo_paying).
Proof.
  apply (successful_payment_marks_booking_paid demo_hmac (demo_status_loads (JStr "success"))
           "" "" "secret" "airtel" (demo_request "evt9") "evt9" "success"
           (Some (JStr demo_ref)) demo_paying 1
           (mkPayment 1 (Some "airtel") (Some demo_ref) "initiated")
           (mkBooking (Some 7) 1 (Some 3) "confirmed")).
  - exists AirtelAdapter, (JStr "evt9"). vm_compute. repeat split; reflexivity.
  - vm_compute. repeat constructor.
  - reflexivity.
  - reflexivity.
  - vm_compute; reflexivity.
  - vm_compute; reflexivity.
  - done.
  - vm_compute; reflexivity.
Defined.

(** The status "pending", and a status of 51 letters, for the payment of
    booking 1. *)
Lemma unrecognised_status_witness :
  ((exec (demo_status_webhook (JStr "pending") "airtel" (demo_request "evt9")) demo_paying).2
   = Ok (WebhookAck true)
   ∧ bookings (ledger (exec (demo_status_webhook (JStr "pending") "airtel" (demo_request "evt9"))
                         demo_paying).1)
     = bookings (ledger demo_paying)
   ∧ trips (ledger (exec (demo_status_webhook (JStr "pending") "airtel" (demo_request "evt9"))
                      demo_paying).1)
     = trips (ledger demo_paying)
   ∧ payments (ledger (exec (demo_status_webhook (JStr "pending") "airtel" (demo_request "evt9"))
                         demo_paying).1) !! 1
     = Some (mkPayment 1 (Some "airtel") (Some demo_ref) "pending")
   ∧ (∀ i, i ≠ 1 →
        payments (ledger (exec (demo_status_webhook (JStr "pending") "airtel"
                                  (demo_request "evt9")) demo_paying).1) !! i
        = payments (ledger demo_paying) !! i)
   ∧ redis (exec (demo_status_webhook (JStr "pending") "airtel" (demo_request "evt9"))
              demo_paying).1
     = redis (marked "airtel" "evt9" demo_paying))
  ∧ (exec (demo_status_webhook (JStr demo_long_status) "airtel" (demo_request "evt9"))
       demo_paying
     = (marked "airtel" "evt9" demo_paying,
        Raise (HTTPException 500 (StrOf (Err DBAPIError))))
     ∧ ledger (exec (demo_status_webhook (JStr demo_long_status) "airtel"
                       (demo_request "evt9")) demo_paying).1
       = ledger demo_paying).
Proof.
  split.
  - apply (proj1 (unrecognised_status_only_updates_payment demo_hmac
                    (demo_status_loads (JStr "pending"))
                    "" "" "secret" "airtel" (demo_request "evt9") "evt9" "pending"
                    (Some (JStr demo_ref)) demo_paying 1
                    (mkPayment 1 (Some "airtel") (Some demo_ref) "initiated")
                    ltac:(exists AirtelAdapter, (JStr "evt9"); vm_compute;
                          repeat split; reflexivity)
                    ltac:(vm_compute; intros H; enum_elem_of H; discriminate H)
                    ltac:(vm_compute; intros H; enum_elem_of H; discriminate H)
                    eq_refl eq_refl eq_refl eq_refl)).
    + simpl. lia.
    + reflexivity.
  - apply (proj2 (unrecognised_status_only_updates_payment demo_hmac
                    (demo_status_loads (JStr demo_long_status))
                    "" "" "secret" "airtel" (demo_request "evt9") "evt9" demo_long_status
                    (Some (JStr demo_ref)) demo_paying 1
                    (mkPayment 1 (Some "airtel") (Some demo_ref) "initiated")
                    ltac:(exists AirtelAdapter, (JStr "evt9"); vm_compute;
                          repeat split; reflexivity)
                    ltac:(vm_compute; intros H; enum_elem_of H; discriminate H)
                    ltac:(vm_compute; intros H; enum_elem_of H; discriminate H)
                    eq_refl eq_refl eq_refl eq_refl)).
    reflexivity.
Defined.

(** The failed event "evt1" before any payment has been initiated. *)
Lemma unmatched_reference_witness :
  ∃ exc,
    exec (demo_webhook "airtel" (demo_request "first")) demo_world
    = (marked "airtel" "evt1" demo_world, Raise (HTTPException 500 (StrOf (Err exc))))
    ∧ ledger (marked "airtel" "evt1" demo_world) = ledger demo_world
    ∧ exec (demo_webhook "airtel" (demo_request "first")) (marked "airtel" "evt1" demo_world)
      = (marked "airtel" "evt1" demo_world, Ok (WebhookAck true)).
Proof.
  apply (unmatched_reference_is_never_recorded demo_hmac demo_json_loads "" "" "secret"
           "airtel" (demo_request "first") "evt1" (Some (JStr "failed"))
           (Some (JStr demo_ref)) demo_world).
  - exists AirtelAdapter, (JStr "evt1"). vm_compute. repeat split; reflexivity.
  - reflexivity.
  - vm_compute; reflexivity.
  - vm_compute; reflexivity.
Defined.


(** Four signed bodies without an event id: one that is not JSON, the
    object {"data": null}, the object {"data": {"status": "failed"}} and
    a JSON array. *)
Lemma delivery_without_event_id_witness :
  exec (demo_webhook "airtel" (demo_request "garbage")) demo_paying
  = (demo_paying, missing_event_id)
  ∧ exec (demo_shape_webhook (JsonObject (mkPayload ∅ (Some (DataOther false))))
            "airtel" (demo_request "x")) demo_paying
    = (demo_paying, Raise (Err AttributeError))
  ∧ exec (demo_shape_webhook
            (JsonObject (mkPayload ∅ (Some (DataObject {[ "status" := JStr "failed" ]}))))
            "airtel" (demo_request "x")) demo_paying
    = (demo_paying, missing_event_id)
  ∧ exec (demo_shape_webhook JsonOther "airtel" (demo_request "x")) demo_paying
    = (demo_paying, Raise (Err AttributeError)).
Proof.
  split_and!.
  - apply (proj1 (delivery_without_event_id_is_refused demo_hmac demo_json_loads "" "" "secret"
                    "airtel" (demo_request "garbage") AirtelAdapter eq_refl eq_refl)).
    reflexivity.
  - apply (proj2 (proj2 (delivery_without_event_id_is_refused demo_hmac
                           (λ _, Some (JsonObject (mkPayload ∅ (Some (DataOther false)))))
                           "" "" "secret"
                           "airtel" (demo_request "x") AirtelAdapter eq_refl eq_refl))
             (mkPayload ∅ (Some (DataOther false))) eq_refl).
    intros k _. cbn [members]. by rewrite lookup_empty.
  - apply (proj2 (proj2 (delivery_without_event_id_is_refused demo_hmac
                           (λ _, Some (JsonObject
                              (mkPayload ∅ (Some (DataObject {[ "status" := JStr "failed" ]})))))
                           "" "" "secret"
                           "airtel" (demo_request "x") AirtelAdapter eq_refl eq_refl))
             (mkPayload ∅ (Some (DataObject {[ "status" := JStr "failed" ]}))) eq_refl).
    + intros k _. cbn [members]. by rewrite lookup_empty.
    + reflexivity.
    + reflexivity.
  - apply (proj1 (proj2 (delivery_without_event_id_is_refused demo_hmac
                           (λ _, Some JsonOther) "" "" "secret"
                           "airtel" (demo_request "x") AirtelAdapter eq_refl eq_refl))).
    reflexivity.
Defined.

(** ** Initiating a payment *)

Lemma provider_ref_free_iff ref d :
  provider_ref_free (Some ref) (payments d) = true ↔ payment_by_ref (Some ref) d = None.
Proof.
  unfold provider_ref_free, payment_by_ref. rewrite bool_decide_eq_true. split.
  - intros Hfree.
    destruct (head _) as [[i p]|] eqn:Hh; [|done].
    apply head_Some_elem_of, list_elem_of_filter in Hh as [Href Hin].
    apply elem_of_map_to_list in Hin. by destruct (Hfree i p Hin).
  - intros Hnone i p Hp Href. apply head_None in Hnone.
    apply (filter_nil_not_elem_of _ _ (i, p) Hnone); [done|].
    by apply elem_of_map_to_list.
Qed.

Lemma payment_by_ref_insert ref i p d :
  provider_ref p = Some ref →
  payment_by_ref (Some ref) d = None →
  payment_by_ref (Some ref) (with_payments (<[i := p]> (payments d)) d) = Some (i, p).
Proof.
  intros Href Hnone. apply provider_ref_free_iff, bool_decide_eq_true_1 in Hnone.
  unfold payment_by_ref. simpl.
  destruct (head _) as [[j q]|] eqn:Hh.
  - apply head_Some_elem_of, list_elem_of_filter in Hh as [Hq Hin]. simpl in Hq.
    apply elem_of_map_to_list in Hin.
    destruct (decide (i = j)) as [<-|Hne].
    + rewrite lookup_insert_eq in Hin. by injection Hin as <-.
    + rewrite lookup_insert_ne in Hin by done. by destruct (Hnone j q Hin).
  - apply head_None in Hh.
    destruct (filter_nil_not_elem_of _ _ (i, p) Hh); [done|].
    apply elem_of_map_to_list. by rewrite lookup_insert_eq.
Qed.

Lemma append_length s1 s2 :
  String.length (s1 +:+ s2) = (String.length s1 + String.length s2)%nat.
Proof. induction s1 as [|c s1 IH]; simpl; [done|]. by rewrite IH. Qed.

Lemma all_chars_impl (P Q : Ascii.ascii → bool) s :
  (∀ c, P c = true → Q c = true) → all_chars P s = true → all_chars Q s = true.
Proof.
  intros HPQ. induction s as [|c s IH]; simpl; [done|].
  rewrite !andb_true_iff. intros [Hc Hs]. auto.
Qed.

Lemma all_chars_append P s1 s2 :
  all_chars P (s1 +:+ s2) = all_chars P s1 && all_chars P s2.
Proof. induction s1 as [|c s1 IH]; simpl; [done|]. by rewrite IH, andb_assoc. Qed.

(** The row of a new payment is stored as it is built: the name of a
    provider, the reference made of a prefix and [uuid4().hex], and
    "initiated" fit their columns. *)
Lemma payment_row_initiated bid name ad hex :
  get_adapter name = Ok ad →
  String.length hex = 32%nat → all_chars not_nul hex = true →
  payment_row bid name (adapter_initiate ad hex) "initiated"
  = Some (mkPayment bid (Some name) (Some (adapter_initiate ad hex)) "initiated").
Proof.
  intros Had Hlen Hnul. unfold payment_row.
  assert (varchar 128 name = Some name) as ->.
  { apply get_adapter_Ok in Had.
    destruct ad; (eapply varchar_of_lower; [exact Had|reflexivity|simpl; lia]). }
  assert (varchar 255 (adapter_initiate ad hex) = Some (adapter_initiate ad hex)) as ->.
  { apply varchar_fits.
    - destruct ad; unfold adapter_initiate; by rewrite all_chars_append, Hnul.
    - destruct ad; unfold adapter_initiate; rewrite append_length, Hlen; simpl; lia. }
  done.
Qed.

(** [initiate_payment] in closed form. *)
Lemma exec_initiate_payment hex req ad w :
  get_adapter (pi_provider req) = Ok ad → ledger_up w = true →
  String.length hex = 32%nat → all_chars not_nul hex = true →
  let ref := adapter_initiate ad hex in
  let row := mkPayment (pi_booking_id req) (Some (pi_provider req)) (Some ref) "initiated" in
  let pid := nextval (payments_id_seq w) (payments (ledger w)) in
  exec (initiate_payment hex req) w
  = if negb (bool_decide (is_Some (bookings (ledger w) !! pi_booking_id req))
             || int4 (pi_booking_id req))
    then (w, Raise (Err DBAPIError))
    else if negb (payment_fits req)
    then (set_payments_id_seq pid w, Raise (Err DBAPIError))
    else if bool_decide (is_Some (bookings (ledger w) !! pi_booking_id req))
            && provider_ref_free (Some ref) (payments (ledger w))
    then (set_ledger (with_payments (<[pid := row]> (payments (ledger w))) (ledger w))
            (set_payments_id_seq pid w),
          Ok (PaymentInitiateResponse (pi_provider req) ref))
    else (set_payments_id_seq pid w, unable_to_create_payment).
Proof.
  intros Had Hup Hlen Hnul ref row pid. subst ref row pid.
  unfold initiate_payment. rewrite Had.
  unfold db_begin, insert_payment, payment_fits. cbn [exec]. rewrite Hup.
  destruct (negb (_ || _)); [by rewrite set_ledger_id|].
  destruct (numeric_10_2 _ && _); cbn [negb]; [|by destruct w].
  rewrite (payment_row_initiated _ _ ad) by done. cbn [provider_ref].
  destruct (_ && _); by destruct w.
Qed.

(** X16. Initiating a payment records its reference.  For a known
    provider, a reachable ledger and a reference made from
    [uuid4().hex]: when the booking exists, the reference is not taken,
    the amount fits NUMERIC(10, 2) and the currency VARCHAR(8), the
    handler answers the provider as sent and the reference, one payment
    row with status "initiated" is added for the booking under the id
    drawn from the sequence of [payments.id], and a webhook's lookup by
    that reference finds exactly this row.  When the amount or the
    currency does not fit, or the booking id is past the range of its
    column, the handler raises DBAPIError, which it does not catch; when
    the booking does not exist or the reference is taken, it answers 500
    "Unable to create payment record".  The ledger is as before whenever
    the handler raises. *)
Theorem initiate_payment_records_reference
    (hex : string) (req : PaymentInitiateRequest) (ad : adapter) (w : World) :
  get_adapter (pi_provider req) = Ok ad →
  ledger_up w = true →
  String.length hex = 32%nat → all_chars not_nul hex = true →
  let ref := adapter_initiate ad hex in
  let row := mkPayment (pi_booking_id req) (Some (pi_provider req)) (Some ref) "initiated" in
  let pid := nextval (payments_id_seq w) (payments (ledger w)) in
  let w' := (exec (initiate_payment hex req) w).1 in
  (is_Some (bookings (ledger w) !! pi_booking_id req) →
   payment_by_ref (Some ref) (ledger w) = None →
   payment_fits req = true →
   (exec (initiate_payment hex req) w).2 = Ok (PaymentInitiateResponse (pi_provider req) ref)
   ∧ ledger w' = with_payments (<[pid := row]> (payments (ledger w))) (ledger w)
   ∧ payments (ledger w) !! pid = None
   ∧ payments_id_seq w < pid
   ∧ payment_by_ref (Some ref) (ledger w') = Some (pid, row))
  ∧ (is_Some (bookings (ledger w) !! pi_booking_id req) ∨ int4 (pi_booking_id req) = true →
     payment_fits req = false →
     (exec (initiate_payment hex req) w).2 = Raise (Err DBAPIError)
     ∧ ledger w' = ledger w)
  ∧ (bookings (ledger w) !! pi_booking_id req = None → int4 (pi_booking_id req) = false →
     exec (initiate_payment hex req) w = (w, Raise (Err DBAPIError)))
  ∧ ((bookings (ledger w) !! pi_booking_id req = None ∧ int4 (pi_booking_id req) = true)
     ∨ (is_Some (bookings (ledger w) !! pi_booking_id req)
        ∧ is_Some (payment_by_ref (Some ref) (ledger w))) →
     payment_fits req = true →
     (exec (initiate_payment hex req) w).2 = unable_to_create_payment
     ∧ ledger w' = ledger w).
Proof.
  intros Had Hup Hlen Hnul ref row pid w'. subst w'.
  rewrite (exec_initiate_payment hex req ad w) by done. fold ref row pid.
  split_and!.
  - intros Hb Hfree Hfits.
    rewrite (bool_decide_eq_true_2 _ Hb), Hfits,
      (proj2 (provider_ref_free_iff _ _) Hfree).
    cbn [orb negb andb fst snd]. split_and!; [done|done|apply nextval_fresh|apply nextval_gt|].
    by apply payment_by_ref_insert.
  - intros Hsent Hfits. rewrite Hfits.
    assert (bool_decide (is_Some (bookings (ledger w) !! pi_booking_id req))
            || int4 (pi_booking_id req) = true) as ->; [|done].
    destruct Hsent as [Hb| ->]; [|by rewrite orb_true_r].
    by rewrite (bool_decide_eq_true_2 _ Hb).
  - intros Hb Hrange. rewrite Hrange, bool_decide_eq_false_2; [done|].
    rewrite Hb. by intros [? ?].
  - intros Hcase Hfits. rewrite Hfits. cbn [negb].
    destruct Hcase as [[Hb Hrange]|[Hb Href]].
    + rewrite Hrange, orb_true_r. cbn [negb].
      rewrite bool_decide_eq_false_2; [done|]. rewrite Hb. by intros [? ?].
    + rewrite (bool_decide_eq_true_2 _ Hb). cbn [orb negb andb].
      assert (provider_ref_free (Some ref) (payments (ledger w)) = false) as ->; [|done].
      apply not_true_is_false. intros Hfree. apply provider_ref_free_iff in Hfree.
      rewrite Hfree in Href. by destruct Href.
Qed.

(** A payment of 50000 UGX for booking 1 once it exists; an amount of
    10^9; a booking id past the range of the column; and booking 1
    before it exists. *)
Lemma initiate_payment_witness :
  let amount := Finite (QArith_base.Qmake 50000 1) in
  let req := mkInitiateReq 1 amount (Some "UGX") "airtel" in
  let hex := "0123456789abcdef0123456789abcdef" in
  let row := mkPayment 1 (Some "airtel") (Some ("airtel_" +:+ hex)) "initiated" in
  ((exec (initiate_payment hex req) demo_booked).2
   = Ok (PaymentInitiateResponse "airtel" ("airtel_" +:+ hex))
   ∧ ledger (exec (initiate_payment hex req) demo_booked).1
     = with_payments (<[1 := row]> (payments (ledger demo_booked))) (ledger demo_booked)
   ∧ payments (ledger demo_booked) !! 1 = None
   ∧ payments_id_seq demo_booked < 1
   ∧ payment_by_ref (Some ("airtel_" +:+ hex))
       (ledger (exec (initiate_payment hex req) demo_booked).1) = Some (1, row))
  ∧ ((exec (initiate_payment hex
              (mkInitiateReq 1 (Finite (QArith_base.Qmake 1000000000 1)) (Some "UGX") "airtel"))
        demo_booked).2 = Raise (Err DBAPIError)
     ∧ ledger (exec (initiate_payment hex
                       (mkInitiateReq 1 (Finite (QArith_base.Qmake 1000000000 1)) (Some "UGX")
                          "airtel")) demo_booked).1 = ledger demo_booked)
  ∧ exec (initiate_payment hex (mkInitiateReq 2147483648 amount (Some "UGX") "airtel"))
      demo_booked
    = (demo_booked, Raise (Err DBAPIError))
  ∧ ((exec (initiate_payment hex req) demo_world).2 = unable_to_create_payment
     ∧ ledger (exec (initiate_payment hex req) demo_world).1 = ledger demo_world).
Proof.
  intros amount req hex row. split; [|split; [|split]].
  - apply (proj1 (initiate_payment_records_reference hex req
                    AirtelAdapter demo_booked eq_refl eq_refl eq_refl eq_refl)).
    + vm_compute. by eexists.
    + vm_compute; reflexivity.
    + reflexivity.
  - apply (proj1 (proj2 (initiate_payment_records_reference hex
                    (mkInitiateReq 1 (Finite (QArith_base.Qmake 1000000000 1)) (Some "UGX")
                       "airtel")
                    AirtelAdapter demo_booked eq_refl eq_refl eq_refl eq_refl))).
    + by right.
    + reflexivity.
  - apply (proj1 (proj2 (proj2 (initiate_payment_records_reference hex
                    (mkInitiateReq 2147483648 amount (Some "UGX") "airtel")
                    AirtelAdapter demo_booked eq_refl eq_refl eq_refl eq_refl)))).
    + vm_compute; reflexivity.
    + reflexivity.
  - apply (proj2 (proj2 (proj2 (initiate_payment_records_reference hex req
                    AirtelAdapter demo_world eq_refl eq_refl eq_refl eq_refl)))).
    + left. split; [vm_compute; reflexivity|reflexivity].
    + reflexivity.
Defined.

(** ** The key space of Redis *)

Lemma numeric_not_colon c : numeric c = true → not_colon c = true.
Proof. destruct c as [[] [] [] [] [] [] [] []]; by vm_compute. Qed.

Lemma not_colon_lower_ascii c : not_colon (lower_ascii c) = not_colon c.
Proof. destruct c as [[] [] [] [] [] [] [] []]; by vm_compute. Qed.

Lemma all_chars_not_colon_lower s :
  all_chars not_colon (lower s) = all_chars not_colon s.
Proof. induction s as [|c s IH]; simpl; [done|]. by rewrite IH, not_colon_lower_ascii. Qed.

Lemma numeric_pretty_N_char x : numeric (pretty_N_char x) = true.
Proof.
  destruct x as [|p]; [done|].
  do 4 (try destruct p as [p|p|]; try done).
Qed.

Lemma numeric_pretty_N_go x s :
  all_chars numeric s = true → all_chars numeric (pretty_N_go x s) = true.
Proof.
  revert s. induction (N.lt_wf_0 x) as [x _ IH]. intros s Hs.
  destruct (decide (x = 0%N)) as [->|Hx]; [by rewrite pretty_N_go_0|].
  rewrite pretty_N_go_step by lia. apply IH.
  - apply N.div_lt; lia.
  - simpl. by rewrite numeric_pretty_N_char, Hs.
Qed.

Lemma numeric_pretty_Z (z : Z) : all_chars numeric (pretty z) = true.
Proof.
  assert (∀ p : positive, all_chars numeric (pretty (N.pos p)) = true) as Hpos.
  { intros p. unfold pretty, pretty_N. simpl. by apply numeric_pretty_N_go. }
  destruct z as [|p|p]; [done|apply Hpos|].
  change (pretty (Z.neg p)) with ("-" +:+ pretty (N.pos p)).
  rewrite all_chars_append, Hpos. done.
Qed.

Lemma append_nil_l s : "" +:+ s = s.
Proof. done. Qed.
Lemma append_cons c s t : String c s +:+ t = String c (s +:+ t).
Proof. done. Qed.
Lemma append_inv_l s a b : s +:+ a = s +:+ b → a = b.
Proof.
  induction s as [|c s IH]; rewrite ?append_cons, ?append_nil_l; [done|].
  intros H. injection H as H. by apply IH.
Qed.

(** A text without colon before a colon is read back from the whole. *)
Lemma append_colon_inj s1 s2 e1 e2 :
  all_chars not_colon s1 = true → all_chars not_colon s2 = true →
  s1 +:+ ":" +:+ e1 = s2 +:+ ":" +:+ e2 → s1 = s2 ∧ e1 = e2.
Proof.
  revert s2. induction s1 as [|c1 s1 IH]; intros [|c2 s2] Hs1 Hs2 H;
    rewrite ?append_cons, ?append_nil_l in H.
  - by injection H as ->.
  - injection H as <- _. done.
  - injection H as -> _. done.
  - injection H as -> Heq. simpl in Hs1, Hs2.
    apply andb_true_iff in Hs1 as [_ Hs1]. apply andb_true_iff in Hs2 as [_ Hs2].
    destruct (IH s2 Hs1 Hs2) as [-> ->]; [|done].
    by rewrite ?append_cons, ?append_nil_l.
Qed.

Lemma format_int_inj x y : format_int x = format_int y → x = y.
Proof.
  assert (∀ z : Z, pretty z ≠ "None") as Hne.
  { intros z Hz. pose proof (numeric_pretty_Z z) as Hn. rewrite Hz in Hn. done. }
  destruct x as [x|], y as [y|]; simpl; try done.
  - by intros ->%(inj pretty).
  - intros H. by destruct (Hne x).
  - intros H. by destruct (Hne y).
Qed.

Lemma LOCK_KEY_TPL_inj t s t' s' :
  LOCK_KEY_TPL t s = LOCK_KEY_TPL t' s' → t = t' ∧ s = s'.
Proof.
  unfold LOCK_KEY_TPL. intros H%append_inv_l.
  apply append_colon_inj in H as [Ht Hs].
  - split; [by apply (inj pretty)|by apply format_int_inj].
  - apply (all_chars_impl numeric); [apply numeric_not_colon|apply numeric_pretty_Z].
  - apply (all_chars_impl numeric); [apply numeric_not_colon|apply numeric_pretty_Z].
Qed.

Lemma provider_not_colon name ad :
  get_adapter name = Ok ad → all_chars not_colon name = true.
Proof.
  intros H%get_adapter_Ok. rewrite <- all_chars_not_colon_lower, H. by destruct ad.
Qed.

Lemma IDEMPOTENCY_KEY_TPL_inj p1 e1 p2 e2 a1 a2 :
  get_adapter p1 = Ok a1 → get_adapter p2 = Ok a2 →
  IDEMPOTENCY_KEY_TPL p1 e1 = IDEMPOTENCY_KEY_TPL p2 e2 → p1 = p2 ∧ e1 = e2.
Proof.
  intros H1 H2. unfold IDEMPOTENCY_KEY_TPL. intros H%append_inv_l.
  apply append_colon_inj in H; [done|by eapply provider_not_colon..].
Qed.

Lemma redis_lookup_frame w w' key :
  now w' = now w → redis w' !! key = redis w !! key →
  redis_lookup w' key = redis_lookup w key.
Proof. intros Hn Hk. unfold redis_lookup. by rewrite Hn, Hk. Qed.

(** X17. Leases of distinct seats never meet.  The key of a lease
    determines its trip and seat, so the three lease endpoints called for
    one (trip, seat) leave the lease of every other (trip, seat) as it
    is, whatever they answer. *)
Theorem seat_leases_are_independent (trip seat trip' seat' : Z) :
  (trip, seat) ≠ (trip', seat') →
  LOCK_KEY_TPL trip (Some seat) ≠ LOCK_KEY_TPL trip' (Some seat')
  ∧ ∀ w,
      (∀ uuid ttl,
         redis_lookup (exec (create_lock uuid (mkLockReq trip' seat' ttl)) w).1
           (LOCK_KEY_TPL trip (Some seat))
         = redis_lookup w (LOCK_KEY_TPL trip (Some seat)))
      ∧ (∀ tok user,
           redis_lookup (exec (confirm_booking (mkConfirmReq trip' seat' tok user)) w).1
             (LOCK_KEY_TPL trip (Some seat))
           = redis_lookup w (LOCK_KEY_TPL trip (Some seat)))
      ∧ (∀ tok,
           redis_lookup (exec (release_lock_endpoint (mkReleaseReq trip' seat' tok)) w).1
             (LOCK_KEY_TPL trip (Some seat))
           = redis_lookup w (LOCK_KEY_TPL trip (Some seat))).
Proof.
  intros Hne.
  assert (LOCK_KEY_TPL trip' (Some seat') ≠ LOCK_KEY_TPL trip (Some seat)) as Hk.
  { intros [-> [= ->]]%LOCK_KEY_TPL_inj. done. }
  split; [done|]. intros w. split_and!.
  - intros uuid ttl.
    assert (now (exec (create_lock uuid (mkLockReq trip' seat' ttl)) w).1 = now w
            ∧ redis (exec (create_lock uuid (mkLockReq trip' seat' ttl)) w).1
                !! LOCK_KEY_TPL trip (Some seat)
              = redis w !! LOCK_KEY_TPL trip (Some seat)) as [Hn Hr].
    { unfold create_lock, lock_seat, bind, ret, raise, redis_set_nx, connected.
      cbn [exec lk_trip_id lk_seat_id lk_ttl].
      destruct (redis_up w); [|done]. destruct ttl as [t|].
      - destruct (t <=? 0); [done|].
        destruct (redis_lookup w (LOCK_KEY_TPL trip' (Some seat'))); [done|].
        simpl. destruct (_ <=? DATETIME_MAX); simpl; by rewrite lookup_insert_ne.
      - destruct (redis_lookup w (LOCK_KEY_TPL trip' (Some seat'))); [done|].
        simpl. by rewrite lookup_insert_ne. }
    by apply redis_lookup_frame.
  - intros tok user. rewrite exec_confirm_booking. cbn [cf_trip_id cf_seat_id cf_token].
    destruct (_ && _); [|done].
    set (w0 := set_redis _ w).
    assert (redis_lookup w0 (LOCK_KEY_TPL trip (Some seat))
            = redis_lookup w (LOCK_KEY_TPL trip (Some seat))) as <-.
    { apply redis_lookup_frame; [done|]. simpl. by rewrite lookup_delete_ne. }
    destruct (exec_confirm_commit_cases (mkConfirmReq trip' seat' tok user) w0)
      as [(t' & _ & _ & _ & _ & _ & Heq)|(w1 & e & Heq & _ & [-> | ->])]; by rewrite Heq.
  - intros [tok|].
    + rewrite exec_release_with_token. destruct (_ && _); [|done].
      apply redis_lookup_frame; [done|]. simpl. by rewrite lookup_delete_ne.
    + rewrite exec_release_without_token. destruct (redis_up w); [|done].
      apply redis_lookup_frame; [done|]. simpl. by rewrite lookup_delete_ne.
Qed.

(** Seats 3 and 4 of trip 1. *)
Lemma seat_leases_are_independent_witness :
  LOCK_KEY_TPL 1 (Some 3) ≠ LOCK_KEY_TPL 1 (Some 4)
  ∧ ∀ w,
      (∀ uuid ttl,
         redis_lookup (exec (create_lock uuid (mkLockReq 1 4 ttl)) w).1 (LOCK_KEY_TPL 1 (Some 3))
         = redis_lookup w (LOCK_KEY_TPL 1 (Some 3)))
      ∧ (∀ tok user,
           redis_lookup (exec (confirm_booking (mkConfirmReq 1 4 tok user)) w).1
             (LOCK_KEY_TPL 1 (Some 3))
           = redis_lookup w (LOCK_KEY_TPL 1 (Some 3)))
      ∧ (∀ tok,
           redis_lookup (exec (release_lock_endpoint (mkReleaseReq 1 4 tok)) w).1
             (LOCK_KEY_TPL 1 (Some 3))
           = redis_lookup w (LOCK_KEY_TPL 1 (Some 3))).
Proof.
  apply (seat_leases_are_independent 1 3 1 4). intros [=].
Defined.

(** X18. Markers of distinct events never meet.  For provider names the
    adapters accept, the key of a marker determines the provider as it
    was spelled in the path and the event id; so the marker of one event
    never makes another look processed, a lease key is never a marker
    key, and the same event delivered under another spelling of the
    provider is not recognised as a redelivery. *)
Theorem event_markers_are_injective (p1 p2 e1 e2 : string) (a1 a2 : adapter) :
  get_adapter p1 = Ok a1 → get_adapter p2 = Ok a2 →
  (IDEMPOTENCY_KEY_TPL p1 e1 = IDEMPOTENCY_KEY_TPL p2 e2 → p1 = p2 ∧ e1 = e2)
  ∧ ((p1, e1) ≠ (p2, e2) →
     ∀ w, redis_lookup (marked p1 e1 w) (IDEMPOTENCY_KEY_TPL p2 e2)
          = redis_lookup w (IDEMPOTENCY_KEY_TPL p2 e2))
  ∧ (∀ tid sid, LOCK_KEY_TPL tid sid ≠ IDEMPOTENCY_KEY_TPL p1 e1).
Proof.
  intros H1 H2. split_and!.
  - by apply (IDEMPOTENCY_KEY_TPL_inj p1 e1 p2 e2 a1 a2).
  - intros Hne w. apply redis_lookup_frame; [done|]. simpl.
    rewrite lookup_insert_ne; [done|].
    intros [-> ->]%(IDEMPOTENCY_KEY_TPL_inj p1 e1 p2 e2 a1 a2); done.
  - intros tid sid. apply lock_key_ne_idempotency_key.
Qed.

(** The event "evt1" under the spellings "Airtel" and "airtel". *)
Lemma event_markers_witness :
  (IDEMPOTENCY_KEY_TPL "Airtel" "evt1" = IDEMPOTENCY_KEY_TPL "airtel" "evt1" →
   "Airtel" = "airtel" ∧ "evt1" = "evt1")
  ∧ (("Airtel", "evt1") ≠ ("airtel", "evt1") →
     ∀ w, redis_lookup (marked "Airtel" "evt1" w) (IDEMPOTENCY_KEY_TPL "airtel" "evt1")
          = redis_lookup w (IDEMPOTENCY_KEY_TPL "airtel" "evt1"))
  ∧ (∀ tid sid, LOCK_KEY_TPL tid sid ≠ IDEMPOTENCY_KEY_TPL "Airtel" "evt1").
Proof.
  apply (event_markers_are_injective "Airtel" "airtel" "evt1" "evt1"
           AirtelAdapter AirtelAdapter); reflexivity.
Defined.

(** ** Further invariants of the ledger *)

Global Instance provider_ref_unique_inv : LedgerInv provider_ref_unique.
Proof.
  split.
  - intros tid w Hu. unfold update_trip_decrement.
    destruct (trips (ledger w) !! tid) as [t|]; [|by destruct (int4 tid)].
    by destruct (0 <? seats_available t).
  - intros b w Hu. unfold insert_booking. destruct (negb _); [done|].
    by destruct (_ && _).
  - intros bid amount currency prov ref st w Hu. unfold insert_payment.
    destruct (negb _); [done|].
    destruct (if numeric_10_2 _ && _ then _ else _) as [row|]; [|done].
    destruct (bool_decide _ && provider_ref_free _ _) eqn:Hok; [|done].
    apply andb_true_iff in Hok as [_ Hfree]. simpl.
    intros i j p q r Hi Hj Hp Hq. simpl in Hi, Hj.
    destruct (decide (nextval (payments_id_seq w) (payments (ledger w)) = i)) as [<-|Hni],
             (decide (nextval (payments_id_seq w) (payments (ledger w)) = j)) as [<-|Hnj];
      [done|..].
    + rewrite lookup_insert_eq in Hi. rewrite lookup_insert_ne in Hj by done.
      injection Hi as <-. rewrite Hp in Hfree.
      apply bool_decide_eq_true_1 in Hfree. by destruct (Hfree j q Hj).
    + rewrite lookup_insert_eq in Hj. rewrite lookup_insert_ne in Hi by done.
      injection Hj as <-. rewrite Hq in Hfree.
      apply bool_decide_eq_true_1 in Hfree. by destruct (Hfree i p Hi).
    + rewrite lookup_insert_ne in Hi, Hj by done. by apply (Hu i j p q r).
  - intros pid st0 w Hu. unfold set_payment_status.
    destruct (varchar 50 st0) as [st|]; [|done].
    intros i j p q r Hi Hj Hp Hq. simpl in Hi, Hj.
    assert (∀ k x, alter (λ p, mkPayment (booking_id p) (provider p) (provider_ref p) st)
                     pid (payments (ledger w)) !! k = Some x →
                   ∃ y, payments (ledger w) !! k = Some y ∧ provider_ref y = provider_ref x)
      as Hold.
    { intros k x. destruct (decide (pid = k)) as [->|Hne].
      - rewrite lookup_alter_eq. destruct (payments (ledger w) !! k) as [y|]; [|done].
        intros [= <-]. by exists y.
      - rewrite lookup_alter_ne by done. intros Hx. by exists x. }
    apply Hold in Hi as (p0 & Hi & Hp0). apply Hold in Hj as (q0 & Hj & Hq0).
    apply (Hu i j p0 q0 r); congruence.
  - by intros bid st w Hu.
Qed.

Global Instance references_hold_inv : LedgerInv references_hold.
Proof.
  split.
  - intros tid w [Hb Hp]. unfold update_trip_decrement.
    destruct (trips (ledger w) !! tid) as [t|] eqn:Ht; [|by destruct (int4 tid)].
    destruct (0 <? seats_available t); [|done]. split; [|done].
    intros i b Hi. specialize (Hb i b Hi). simpl in *.
    unfold booking_fks_ok in *. simpl.
    apply andb_true_iff in Hb as [Hb Hs]. apply andb_true_iff in Hb as [Hu Ht'].
    rewrite Hu, Hs, andb_true_r. simpl. apply bool_decide_eq_true_1 in Ht'.
    apply bool_decide_eq_true_2. by apply lookup_insert_is_Some'; right.
  - intros b w [Hb Hp]. unfold insert_booking. destruct (negb _); [done|].
    destruct (booking_fks_ok _ _ && uq_trip_seat_ok _ _) eqn:Hok; [|done].
    apply andb_true_iff in Hok as [Hfk _]. split; simpl.
    + apply map_Forall_insert_2; [done|]. intros i b' Hi. by apply (Hb i b').
    + intros i p Hi. simpl. apply lookup_insert_is_Some'. right. by apply (Hp i p).
  - intros bid amount currency prov ref st w [Hb Hp]. unfold insert_payment.
    destruct (negb _); [done|].
    destruct (if numeric_10_2 _ && _ then _ else _) as [row|] eqn:Hrow; [|done].
    destruct (bool_decide _ && provider_ref_free _ _) eqn:Hok; [|done].
    apply andb_true_iff in Hok as [Hex _]. apply bool_decide_eq_true_1 in Hex.
    split; [done|]. simpl. apply map_Forall_insert_2; [|done].
    destruct (numeric_10_2 _ && _); [|done]. unfold payment_row in Hrow.
    destruct (varchar 128 prov), (varchar 255 ref), (varchar 50 st); try done.
    by injection Hrow as <-.
  - intros pid st0 w [Hb Hp]. unfold set_payment_status.
    destruct (varchar 50 st0) as [st|]; [|done]. split; [done|]. simpl.
    intros i p. destruct (decide (pid = i)) as [->|Hne].
    + rewrite lookup_alter_eq.
      destruct (payments (ledger w) !! i) as [y|] eqn:Hy; [|done].
      intros [= <-]. simpl. by apply (Hp i y).
    + rewrite lookup_alter_ne by done. apply Hp.
  - intros bid st w [Hb Hp]. split; simpl.
    + intros i b' Hi. apply lookup_alter_status in Hi as (b0 & Hi & Ht & Hs & Hu & _).
      specialize (Hb i b0 Hi). unfold booking_fks_ok in *. simpl in *.
      by rewrite <- Ht, <- Hs, <- Hu.
    + intros i p Hi. simpl. specialize (Hp i p Hi). simpl in Hp.
      destruct Hp as [b0 Hb0].
      destruct (decide (bid = booking_id p)) as [->|Hne].
      * rewrite lookup_alter_eq, Hb0. by eexists.
      * rewrite lookup_alter_ne by done. by eexists.
Qed.

Global Instance bookings_persist_inv d0 : LedgerInv (bookings_persist d0).
Proof.
  split.
  - intros tid w Hp. unfold update_trip_decrement.
    destruct (trips (ledger w) !! tid) as [t|]; [|by destruct (int4 tid)].
    by destruct (0 <? seats_available t).
  - intros b w Hp. unfold insert_booking. destruct (negb _); [done|].
    destruct (_ && _); [|done].
    intros i b0 Hi. destruct (Hp i b0 Hi) as (b' & Hb' & Hsame). exists b'.
    split; [|done]. simpl. rewrite lookup_insert_ne; [done|].
    intros <-. by rewrite nextval_fresh in Hb'.
  - intros bid amount currency prov ref st w Hp. unfold insert_payment.
    destruct (negb _); [done|].
    destruct (if numeric_10_2 _ && _ then _ else _) as [row|]; [|done].
    by destruct (bool_decide _ && provider_ref_free _ _).
  - intros pid st w Hp. unfold set_payment_status.
    by destruct (varchar 50 st).
  - intros bid st w Hp i b0 Hi. destruct (Hp i b0 Hi) as (b' & Hb' & Hu & Ht & Hs).
    simpl. destruct (decide (bid = i)) as [->|Hne].
    + rewrite lookup_alter_eq, Hb'. simpl. eexists. split; [done|]. by simpl.
    + rewrite lookup_alter_ne by done. by exists b'.
Qed.

Lemma confirm_never_rebooks i b seat w :
  bookings (ledger w) !! i = Some b → seat_id b = Some seat →
  ∀ tok user resp,
    (exec (confirm_booking (mkConfirmReq (trip_id b) seat tok user)) w).2 ≠ Ok resp.
Proof.
  intros Hi Hs tok user resp. rewrite exec_confirm_booking.
  destruct (_ && _); [|done]. cbn [cf_trip_id cf_seat_id].
  set (req := mkConfirmReq (trip_id b) seat tok user).
  set (w0 := set_redis _ w).
  rewrite exec_confirm_commit, confirm_transaction_eq.
  destruct (ledger_up w0); [|done].
  destruct (trips (ledger w0) !! cf_trip_id req) as [t|]; [|by destruct (int4 _)].
  destruct (0 <? seats_available t); [|done]. cbv zeta.
  destruct (negb _); [done|].
  rewrite (uq_trip_seat_ok_clash req (bookings (ledger w0)) i b) by done.
  by rewrite andb_false_r.
Qed.

Section Reachable.

Variable hmac_sha256_hexdigest : string → string → string.
Variable json_loads : string → option Body.
Variables FLUTTERWAVE_SECRET MTN_SECRET AIRTEL_SECRET : string.

Local Abbreviation serve :=
  (handle hmac_sha256_hexdigest json_loads FLUTTERWAVE_SECRET MTN_SECRET AIRTEL_SECRET).
Local Abbreviation invariant :=
  (run_invariant hmac_sha256_hexdigest json_loads FLUTTERWAVE_SECRET MTN_SECRET AIRTEL_SECRET).

(** X19. Payment references stay unique.  Whatever requests are served,
    in whatever interleaving, no two payment rows ever carry the same
    reference; so the row a webhook finds by its reference is the one row
    with that reference. *)
Theorem payment_references_stay_unique
    (reqs : list request) (evs : list event) (w : World) :
  provider_ref_unique (ledger w) →
  let d' := ledger (run evs (w, serve <$> reqs)).1 in
  provider_ref_unique d'
  ∧ ∀ r i p,
      payment_by_ref (Some r) d' = Some (i, p)
      ↔ payments d' !! i = Some p ∧ provider_ref p = Some r.
Proof.
  intros Hu d'.
  assert (provider_ref_unique d') as Hu' by (by apply invariant; [apply _|]).
  split; [done|]. intros r i p. split; [apply payment_by_ref_Some|].
  intros [Hi Hr]. unfold payment_by_ref.
  destruct (head _) as [[j q]|] eqn:Hh.
  - apply head_Some_elem_of, list_elem_of_filter in Hh as [Hq Hin]. simpl in Hq.
    apply elem_of_map_to_list in Hin.
    assert (j = i) as -> by (by apply (Hu' j i q p r)). congruence.
  - apply head_None in Hh.
    destruct (filter_nil_not_elem_of _ _ (i, p) Hh); [done|].
    by apply elem_of_map_to_list.
Qed.

(** X20. References always lead to rows.  When every booking's user,
    trip and seat and every payment's booking exist, they still do after
    any requests in any interleaving; so the payment a webhook finds
    always has its booking, and the booking its trip. *)
Theorem references_always_lead_to_rows
    (reqs : list request) (evs : list event) (w : World) :
  references_hold (ledger w) →
  let d' := ledger (run evs (w, serve <$> reqs)).1 in
  references_hold d'
  ∧ ∀ r pid pay,
      payment_by_ref r d' = Some (pid, pay) →
      ∃ b t, bookings d' !! booking_id pay = Some b ∧ trips d' !! trip_id b = Some t.
Proof.
  intros Hr d'.
  assert (references_hold d') as Hr' by (by apply invariant; [apply _|]).
  split; [done|]. intros r pid pay [Hpid _]%payment_by_ref_Some.
  destruct Hr' as [Hb Hp]. destruct (Hp pid pay Hpid) as [b Hbk]. simpl in Hbk.
  specialize (Hb _ b Hbk). simpl in Hb. unfold booking_fks_ok in Hb.
  apply andb_true_iff in Hb as [Hb _]. apply andb_true_iff in Hb as [_ Ht].
  apply bool_decide_eq_true_1 in Ht as [t Ht]. by exists b, t.
Qed.

(** X21. A booking row is for ever.  No handler deletes a booking or
    changes its user, trip or seat: after any requests in any
    interleaving every booking is still there, whatever its status has
    become; and since every row, cancelled or not, holds its (trip, seat)
    under [uq_trip_seat], no confirm for that seat is ever answered with
    a booking again. *)
Theorem booking_row_is_for_ever
    (reqs : list request) (evs : list event) (w : World)
    (i : Z) (b : Booking) (seat : Z) :
  bookings (ledger w) !! i = Some b → seat_id b = Some seat →
  let w' := (run evs (w, serve <$> reqs)).1 in
  (∃ b', bookings (ledger w') !! i = Some b'
         ∧ user_id b' = user_id b ∧ trip_id b' = trip_id b ∧ seat_id b' = Some seat)
  ∧ ∀ tok user resp,
      (exec (confirm_booking (mkConfirmReq (trip_id b) seat tok user)) w').2 ≠ Ok resp.
Proof.
  intros Hi Hs w'.
  assert (bookings_persist (ledger w) (ledger w')) as Hp.
  { apply invariant; [apply _|]. intros j bj Hj. by exists bj. }
  destruct (Hp i b Hi) as (b' & Hb' & Hu & Ht & Hs').
  split; [exists b'; split_and!; congruence|].
  rewrite <- Ht. apply (confirm_never_rebooks i b' seat); congruence.
Qed.

End Reachable.

Lemma demo_paying_payments :
  payments (ledger demo_paying)
  = {[ 1 := mkPayment 1 (Some "airtel") (Some demo_ref) "initiated" ]}.
Proof. vm_compute; reflexivity. Qed.

Lemma demo_paying_bookings :
  bookings (ledger demo_paying) = {[ 1 := mkBooking (Some 7) 1 (Some 3) "confirmed" ]}.
Proof. vm_compute; reflexivity. Qed.

Lemma payment_references_witness :
  provider_ref_unique (ledger (run demo_service_schedule
                                 (demo_paying, demo_handle <$> demo_requests)).1)
  ∧ ∀ r i p,
      payment_by_ref (Some r)
        (ledger (run demo_service_schedule (demo_paying, demo_handle <$> demo_requests)).1)
      = Some (i, p)
      ↔ payments (ledger (run demo_service_schedule
                            (demo_paying, demo_handle <$> demo_requests)).1) !! i = Some p
        ∧ provider_ref p = Some r.
Proof.
  apply (payment_references_stay_unique demo_hmac demo_json_loads "" "" "secret"
           demo_requests demo_service_schedule demo_paying).
  intros i j p q r Hi Hj _ _. rewrite demo_paying_payments in Hi, Hj.
  apply lookup_singleton_Some in Hi as [<- _]. by apply lookup_singleton_Some in Hj as [<- _].
Defined.

Lemma references_witness :
  references_hold (ledger (run demo_service_schedule
                             (demo_paying, demo_handle <$> demo_requests)).1)
  ∧ ∀ r pid pay,
      payment_by_ref r
        (ledger (run demo_service_schedule (demo_paying, demo_handle <$> demo_requests)).1)
      = Some (pid, pay) →
      ∃ b t,
        bookings (ledger (run demo_service_schedule
                            (demo_paying, demo_handle <$> demo_requests)).1)
          !! booking_id pay = Some b
        ∧ trips (ledger (run demo_service_schedule
                           (demo_paying, demo_handle <$> demo_requests)).1)
            !! trip_id b = Some t.
Proof.
  apply (references_always_lead_to_rows demo_hmac demo_json_loads "" "" "secret"
           demo_requests demo_service_schedule demo_paying).
  split.
  - intros i b Hi. rewrite demo_paying_bookings in Hi.
    apply lookup_singleton_Some in Hi as [<- <-]. vm_compute; reflexivity.
  - intros i p Hi. rewrite demo_paying_payments in Hi.
    apply lookup_singleton_Some in Hi as [<- <-]. vm_compute. by eexists.
Defined.

(** Booking 1 through the failed event and the second client's attempt. *)
Lemma booking_row_witness :
  (∃ b', bookings (ledger (run demo_service_schedule
                             (demo_paying, demo_handle <$> demo_requests)).1) !! 1 = Some b'
         ∧ user_id b' = user_id (mkBooking (Some 7) 1 (Some 3) "confirmed")
         ∧ trip_id b' = trip_id (mkBooking (Some 7) 1 (Some 3) "confirmed")
         ∧ seat_id b' = Some 3)
  ∧ ∀ tok user resp,
      (exec (confirm_booking
               (mkConfirmReq (trip_id (mkBooking (Some 7) 1 (Some 3) "confirmed")) 3 tok user))
         (run demo_service_schedule (demo_paying, demo_handle <$> demo_requests)).1).2
      ≠ Ok resp.
Proof.
  apply (booking_row_is_for_ever demo_hmac demo_json_loads "" "" "secret"
           demo_requests demo_service_schedule demo_paying 1
           (mkBooking (Some 7) 1 (Some 3) "confirmed") 3).
  - vm_compute; reflexivity.
  - reflexivity.
Defined.

(** ** Seats and rows *)

Lemma booked_insert (d d' : DB) i b tid :
  bookings d !! i = None →
  booked (with_bookings (<[i := b]> (bookings d)) d') tid
  = booked d tid + (if decide (trip_id b = tid) then 1 else 0).
Proof.
  intros Hi. unfold booked. simpl.
  rewrite (Permutation_length
             (filter_Permutation (λ ib : Z * Booking, trip_id ib.2 = tid) _ _
                (map_to_list_insert (bookings d) i b Hi))).
  rewrite filter_cons. simpl. destruct (decide (trip_id b = tid)); simpl; lia.
Qed.

Lemma keeps_seats_conserved_confirm d0 req :
  keeps (seats_conserved d0) (confirm_transaction req).
Proof.
  intros w Hc. rewrite confirm_transaction_eq.
  destruct (ledger_up w); [|done].
  destruct (trips (ledger w) !! cf_trip_id req) as [t|] eqn:Ht; [|by destruct (int4 _)].
  destruct (0 <? seats_available t); [|done]. cbv zeta.
  destruct (negb _); [done|].
  destruct (_ && _); [|done].
  intros tid t0 t' H0 H'. unfold committed in *. cbn [fst ledger set_ledger] in *.
  rewrite (booked_insert (ledger w)) by apply nextval_fresh.
  simpl in H'. simpl. destruct (decide (cf_trip_id req = tid)) as [<-|Hne].
  - rewrite lookup_insert_eq in H'. injection H' as <-. simpl.
    specialize (Hc _ _ _ H0 Ht). lia.
  - rewrite lookup_insert_ne in H' by done. specialize (Hc _ _ _ H0 H'). lia.
Qed.

Lemma keeps_seats_conserved_insert_payment d0 bid amount currency prov ref st :
  keeps (seats_conserved d0) (insert_payment bid amount currency prov ref st).
Proof.
  intros w Hc. unfold insert_payment. destruct (negb _); [done|].
  destruct (if numeric_10_2 _ && _ then _ else _) as [row|]; [|done].
  by destruct (bool_decide _ && provider_ref_free _ _).
Qed.

Section Conservation.

Variable hmac_sha256_hexdigest : string → string → string.
Variable json_loads : string → option Body.
Variables FLUTTERWAVE_SECRET MTN_SECRET AIRTEL_SECRET : string.

Local Abbreviation serve :=
  (handle hmac_sha256_hexdigest json_loads FLUTTERWAVE_SECRET MTN_SECRET AIRTEL_SECRET).
Local Abbreviation invariant :=
  (run_invariant hmac_sha256_hexdigest json_loads FLUTTERWAVE_SECRET MTN_SECRET AIRTEL_SECRET).

Lemma safe_seats_conserved d0 r :
  is_webhook r = false → safe (seats_conserved d0) (serve r).
Proof.
  destruct r as [uuid req|req|req|hex req|prov req]; simpl; intros Hw; [..|done].
  - constructor; [apply keeps_lock_seat|]. intros [[l|]|e]; constructor.
  - constructor; [apply keeps_validate_and_consume_lock|].
    intros [[]|e]; simpl; try constructor.
    + apply keeps_seats_conserved_confirm.
    + intros [bid|[[]|]]; try constructor; [apply keeps_refresh_booking|].
      intros [b|e]; constructor.
  - constructor; [apply keeps_release_lock|]. intros [[]|e]; constructor.
  - unfold initiate_payment. destruct (get_adapter _); [|constructor].
    constructor; [apply keeps_db_begin, keeps_seats_conserved_insert_payment|].
    intros [?|[[]|]]; constructor.
Qed.

(** X22. Without payment events no seat is made or lost.  While only
    locks, confirms, releases and payment initiations are served, in any
    interleaving, with time passing and stores failing, the seats left on
    a trip plus the number of its booking rows stay what they were; with
    a counter that started non-negative, a trip never gets more new
    bookings than it had seats left. *)
Theorem seats_conserved_without_payment_events
    (reqs : list request) (evs : list event) (w : World) :
  Forall (λ r, is_webhook r = false) reqs →
  let d' := ledger (run evs (w, serve <$> reqs)).1 in
  seats_conserved (ledger w) d'
  ∧ (seats_nonneg (ledger w) →
     ∀ tid t, trips (ledger w) !! tid = Some t → is_Some (trips d' !! tid) →
              booked d' tid - booked (ledger w) tid ≤ seats_available t).
Proof.
  intros Hreqs d'.
  assert (seats_conserved (ledger w) d') as Hc.
  { apply (safe_run (seats_conserved (ledger w)) evs (w, serve <$> reqs)).
    - intros tid t t' Ht Ht'. simpl in *. rewrite Ht in Ht'. by injection Ht' as <-.
    - simpl. apply Forall_fmap. eapply Forall_impl; [exact Hreqs|].
      intros r Hr. by apply safe_seats_conserved. }
  split; [done|]. intros Hnn tid t Ht [t' Ht'].
  assert (seats_nonneg d') as Hnn' by (by apply invariant; [apply _|]).
  specialize (Hc _ _ _ Ht Ht'). specialize (Hnn' _ _ Ht'). simpl in Hnn'. lia.
Qed.

End Conservation.

Lemma seats_conserved_witness :
  seats_conserved (ledger demo_world)
    (ledger (run demo_rush_schedule (demo_world, demo_handle <$> demo_rush)).1)
  ∧ (seats_nonneg (ledger demo_world) →
     ∀ tid t,
       trips (ledger demo_world) !! tid = Some t →
       is_Some (trips (ledger (run demo_rush_schedule
                                 (demo_world, demo_handle <$> demo_rush)).1) !! tid) →
       booked (ledger (run demo_rush_schedule (demo_world, demo_handle <$> demo_rush)).1) tid
       - booked (ledger demo_world) tid ≤ seats_available t).
Proof.
  apply (seats_conserved_without_payment_events demo_hmac demo_json_loads "" "" "secret"
           demo_rush demo_rush_schedule demo_world).
  repeat constructor.
Defined.

(** ** The booking flow *)

Section Flow.

Variable hmac_sha256_hexdigest : string → string → string.
Variable json_loads : string → option Body.
Variables FLUTTERWAVE_SECRET MTN_SECRET AIRTEL_SECRET : string.

Local Abbreviation webhook :=
  (payment_webhook hmac_sha256_hexdigest json_loads FLUTTERWAVE_SECRET MTN_SECRET AIRTEL_SECRET).
Local Abbreviation accepts :=
  (accepted hmac_sha256_hexdigest json_loads FLUTTERWAVE_SECRET MTN_SECRET AIRTEL_SECRET).

(** X23. The booking flow of the integration test, for any instance.
    From a state where the seat has no lease and no booking row, the trip
    has a seat left, the user and the seat exist, the lease's expiry is a
    date Python can hold, the provider is one of the three, the amount
    fits NUMERIC(10, 2) and the currency VARCHAR(8): lock, confirm with
    the granted token, initiate a payment for the new booking, then the
    provider's signed success event for the reference of that payment.
    Each step is answered with its success; the booking gets the next
    value of the sequence of [bookings.id], and at the end it is paid and
    the trip has one seat less. *)
Theorem booking_flow_ends_paid
    (trip seat ttl : Z) (uuid hex : string) (user : option Z)
    (amount : pyfloat) (currency : option string)
    (prov : string) (ad : adapter) (request : Request) (eid s : string)
    (w : World) (t : Trip) :
  redis_up w = true → ledger_up w = true →
  0 < ttl → now w + ttl ≤ DATETIME_MAX →
  redis_lookup w (LOCK_KEY_TPL trip (Some seat)) = None →
  trips (ledger w) !! trip = Some t → 0 < seats_available t →
  fk_nullable user (users (ledger w)) = true → seat ∈ seats (ledger w) →
  (∀ i b, bookings (ledger w) !! i = Some b → ¬ (trip_id b = trip ∧ seat_id b = Some seat)) →
  get_adapter prov = Ok ad →
  String.length hex = 32%nat → all_chars not_nul hex = true →
  numeric_10_2 amount = true → is_Some (varchar 8 (default "UGX" currency)) →
  payment_by_ref (Some (adapter_initiate ad hex)) (ledger w) = None →
  accepts prov request eid (Some (JStr s)) (Some (JStr (adapter_initiate ad hex))) →
  lower s ∈ success_statuses →
  redis_lookup w (IDEMPOTENCY_KEY_TPL prov eid) = None →
  let bid := nextval (bookings_id_seq w) (bookings (ledger w)) in
  let lock := create_lock uuid (mkLockReq trip seat (Some ttl)) in
  let confirm := confirm_booking (mkConfirmReq trip seat uuid user) in
  let initiate := initiate_payment hex (mkInitiateReq bid amount currency prov) in
  let w1 := (exec lock w).1 in
  let w2 := (exec confirm w1).1 in
  let w3 := (exec initiate w2).1 in
  let w4 := (exec (webhook prov request) w3).1 in
  (exec lock w).2 = Ok (LockSeatResponse uuid (now w + ttl))
  ∧ (exec confirm w1).2 = Ok (BookingResponse bid trip (Some seat) "confirmed")
  ∧ (exec initiate w2).2 = Ok (PaymentInitiateResponse prov (adapter_initiate ad hex))
  ∧ (exec (webhook prov request) w3).2 = Ok (WebhookAck true)
  ∧ bookings (ledger w4) !! bid = Some (mkBooking user trip (Some seat) "paid")
  ∧ trips (ledger w4) !! trip = Some (mkTrip (seats_available t - 1)).
Proof.
  intros Hup Hlup Hpos Hmax Hfree Ht Hseats Huser Hseat Hrow Had Hlen Hnul Hamount Hcur.
  intros Hnew Hacc Hs Hmark bid lock confirm initiate w1 w2 w3 w4.
  subst w4 w3 w2 w1 lock confirm initiate.
  rewrite exec_create_lock_granted by done. cbn [fst snd].
  set (w1 := set_redis _ w).
  rewrite (exec_confirm_booking_commits (mkConfirmReq trip seat uuid user) w1 t); try done;
    [|apply (redis_lookup_live _ _ _ (now w + ttl)); simpl; [by rewrite lookup_insert_eq|lia]].
  cbn [fst snd cf_trip_id cf_seat_id].
  change (nextval (bookings_id_seq w1) (bookings (ledger w1))) with bid.
  set (w2 := set_ledger _ _).
  set (req := mkInitiateReq bid amount currency prov).
  pose proof (exec_initiate_payment hex req ad w2 Had Hlup Hlen Hnul) as Hinit.
  cbv zeta in Hinit. rewrite Hinit. clear Hinit.
  assert (bookings (ledger w2) !! bid = Some (mkBooking user trip (Some seat) "confirmed"))
    as Hbid by (simpl; by rewrite lookup_insert_eq).
  cbn [pi_booking_id pi_provider req].
  rewrite (bool_decide_eq_true_2 (is_Some (bookings (ledger w2) !! bid))) by (by rewrite Hbid).
  assert (payment_fits req = true) as ->.
  { unfold payment_fits. cbn [pi_amount pi_currency req]. rewrite Hamount.
    by rewrite bool_decide_eq_true_2. }
  rewrite (proj2 (provider_ref_free_iff (adapter_initiate ad hex) (ledger w2))) by done.
  cbn [orb negb andb fst snd].
  set (pid := nextval (payments_id_seq w2) (payments (ledger w2))).
  set (row := mkPayment bid (Some prov) (Some (adapter_initiate ad hex)) "initiated").
  set (w3 := set_ledger _ (set_payments_id_seq pid w2)).
  assert (redis_lookup w3 (IDEMPOTENCY_KEY_TPL prov eid) = None) as Hmark3.
  { rewrite <- Hmark. apply redis_lookup_frame; [done|]. simpl.
    rewrite lookup_delete_ne, lookup_insert_ne; first done;
      apply lock_key_ne_idempotency_key. }
  rewrite (payment_webhook_accepted _ _ _ _ _ _ _ _ _ _ Hacc).
  rewrite exec_webhook_check. change (redis_up w3) with (redis_up w). rewrite Hup, Hmark3.
  rewrite exec_webhook_apply.
  rewrite (webhook_transaction_success prov s _ _ pid row
             (mkBooking user trip (Some seat) "confirmed")); try done.
  - cbn [fst snd webhook_answer]. split_and!; try done; simpl.
    + by rewrite lookup_alter_eq, lookup_insert_eq.
    + by rewrite lookup_insert_eq.
  - simpl. by apply (payment_by_ref_insert _ _ row (ledger w2)).
  - simpl. pose proof (nextval_pos (bookings_id_seq w) (bookings (ledger w))) as H.
    fold bid in H. lia.
Qed.

(** X24. With Redis unreachable nothing is served and nothing changes.
    A lock request and a release without token fail with the
    ConnectionError; a confirm and a release with a token swallow it and
    answer their 409; a webhook delivery that passed the signature check
    fails with the ConnectionError before its transaction. *)
Theorem nothing_is_served_without_redis (w : World) :
  redis_up w = false →
  (∀ uuid req, exec (create_lock uuid req) w = (w, Raise (Err ConnectionError)))
  ∧ (∀ req, exec (confirm_booking req) w = (w, invalid_or_expired))
  ∧ (∀ trip seat tok,
       exec (release_lock_endpoint (mkReleaseReq trip seat (Some tok))) w
       = (w, mismatch_or_not_owned))
  ∧ (∀ trip seat,
       exec (release_lock_endpoint (mkReleaseReq trip seat None)) w
       = (w, Raise (Err ConnectionError)))
  ∧ (∀ prov request eid st ref,
       accepts prov request eid st ref →
       exec (webhook prov request) w = (w, Raise (Err ConnectionError))).
Proof.
  intros Hdown. split_and!.
  - intros uuid req. unfold create_lock, lock_seat, bind, redis_set_nx, connected.
    cbn [exec]. by rewrite Hdown.
  - intros req. by rewrite exec_confirm_booking, Hdown.
  - intros trip seat tok. by rewrite exec_release_with_token, Hdown.
  - intros trip seat. by rewrite exec_release_without_token, Hdown.
  - intros prov request eid st ref Hacc.
    rewrite (payment_webhook_accepted _ _ _ _ _ _ _ _ _ _ Hacc).
    by rewrite exec_webhook_check, Hdown.
Qed.

End Flow.

(** The flow on the small instance: seat 3 of trip 1 for user 7, paid
    through Airtel. *)
Lemma booking_flow_witness :
  let hex := "0123456789abcdef0123456789abcdef" in
  let amount := Finite (QArith_base.Qmake 50000 1) in
  let webhook :=
    payment_webhook demo_hmac (demo_paid_loads ("airtel_" +:+ hex)) "" "" "secret"
      "airtel" (demo_request "paid") in
  let lock := create_lock "tokA" (mkLockReq 1 3 (Some 60)) in
  let confirm := confirm_booking (mkConfirmReq 1 3 "tokA" (Some 7)) in
  let initiate := initiate_payment hex (mkInitiateReq 1 amount None "airtel") in
  let w1 := (exec lock demo_world).1 in
  let w2 := (exec confirm w1).1 in
  let w3 := (exec initiate w2).1 in
  let w4 := (exec webhook w3).1 in
  (exec lock demo_world).2 = Ok (LockSeatResponse "tokA" 1060)
  ∧ (exec confirm w1).2 = Ok (BookingResponse 1 1 (Some 3) "confirmed")
  ∧ (exec initiate w2).2 = Ok (PaymentInitiateResponse "airtel" ("airtel_" +:+ hex))
  ∧ (exec webhook w3).2 = Ok (WebhookAck true)
  ∧ bookings (ledger w4) !! 1 = Some (mkBooking (Some 7) 1 (Some 3) "paid")
  ∧ trips (ledger w4) !! 1 = Some (mkTrip 0).
Proof.
  intros hex amount.
  apply (booking_flow_ends_paid demo_hmac (demo_paid_loads ("airtel_" +:+ hex)) "" "" "secret"
           1 3 60 "tokA" hex (Some 7) amount None "airtel" AirtelAdapter (demo_request "paid")
           "evt9" "success" demo_world (mkTrip 1)).
  - reflexivity.
  - reflexivity.
  - lia.
  - vm_compute. by intros [=].
  - vm_compute; reflexivity.
  - vm_compute; reflexivity.
  - simpl; lia.
  - vm_compute; reflexivity.
  - simpl. set_solver.
  - simpl. intros i b Hb. by rewrite lookup_empty in Hb.
  - reflexivity.
  - reflexivity.
  - reflexivity.
  - reflexivity.
  - vm_compute. by eexists.
  - vm_compute; reflexivity.
  - exists AirtelAdapter, (JStr "evt9"). vm_compute. repeat split; reflexivity.
  - vm_compute. repeat constructor.
  - vm_compute; reflexivity.
Defined.

Lemma nothing_is_served_without_redis_witness :
  (∀ uuid req, exec (create_lock uuid req) demo_outage = (demo_outage, Raise (Err ConnectionError)))
  ∧ (∀ req, exec (confirm_booking req) demo_outage = (demo_outage, invalid_or_expired))
  ∧ (∀ trip seat tok,
       exec (release_lock_endpoint (mkReleaseReq trip seat (Some tok))) demo_outage
       = (demo_outage, mismatch_or_not_owned))
  ∧ (∀ trip seat,
       exec (release_lock_endpoint (mkReleaseReq trip seat None)) demo_outage
       = (demo_outage, Raise (Err ConnectionError)))
  ∧ (∀ prov request eid st ref,
       accepted demo_hmac demo_json_loads "" "" "secret" prov request eid st ref →
       exec (demo_webhook prov request) demo_outage = (demo_outage, Raise (Err ConnectionError))).
Proof.
  apply (nothing_is_served_without_redis demo_hmac demo_json_loads "" "" "secret" demo_outage).
  reflexivity.
Defined.
